(** * RESTStore: the session-aware request client

    A shallow embedding of [RESTStore] (the MobX store that mediates every
    HTTP call of the application): its refresh coordinator, session watcher,
    request client and upload client, together with the small part of the
    browser they run against (promises, the event loop, [localStorage],
    [window.fetch], [XMLHttpRequest]).

    Conventions.
    - A JavaScript number is modelled by the integer it holds ([Z]); every
      number the store computes with is an epoch-millisecond reading, an HTTP
      status or a ready state.  Numbers that are not integers are outside
      the model.
    - An object is the list of its own enumerable properties, in enumeration
      order; a property read takes the first entry with that key.
    - [JSON.parse], [qs.stringify] and the floating-point percentage of the
      upload progress listener belong to the platform and to libraries, not
      to the store: the development is parametric in them.
    - Code runs to completion between suspension points. What happens in
      between (a response arrives, a suspended continuation is resumed, the
      interval fires, another tab writes the storage, a caller invokes a
      method) is an [event]; the event loop may take them in any order. *)

From Stdlib Require Import ZArith String Ascii List Bool Lia.
From stdpp Require Import base option list gmap strings pretty.

#[local] Set Warnings "-register-all".
Local Open Scope Z_scope.
Local Open Scope string_scope.
Local Open Scope list_scope.

(** ** JavaScript values *)

Inductive json : Type :=
| JNull
| JBool (b : bool)
| JNum (n : Z)
| JStr (s : string)
| JArr (xs : list json)
| JObj (fields : list (string * json)).

(** An object literal / options bag. *)
Abbreviation obj := (list (string * json)).

(** [o.k]: [None] is [undefined]. *)
Fixpoint get (k : string) (o : obj) : option json :=
  match o with
  | [] => None
  | (k', v) :: o' => if String.eqb k k' then Some v else get k o'
  end.

(** [o.k] on an arbitrary value: primitives, arrays and strings have no such
    own property for the keys the store reads. *)
Definition prop (k : string) (j : json) : option json :=
  match j with
  | JObj fields => get k fields
  | _ => None
  end.

(** ToBoolean. *)
Definition truthy (j : json) : bool :=
  match j with
  | JNull => false
  | JBool b => b
  | JNum n => negb (Z.eqb n 0)
  | JStr s => negb (String.eqb s "")
  | JArr _ => true
  | JObj _ => true
  end.

Definition truthy_opt (v : option json) : bool :=
  match v with
  | None => false
  | Some j => truthy j
  end.

(** [const { k1, k2, ...rest } = o]: the rest object. *)
Definition rest (removed : list string) (o : obj) : obj :=
  List.filter (fun kv => negb (existsb (String.eqb (fst kv)) removed)) o.

(** [o[k] = v] on an object: overwrite in place, or add at the end. *)
Fixpoint obj_set (k : string) (v : json) (o : obj) : obj :=
  match o with
  | [] => [(k, v)]
  | (k', v') :: o' =>
      if String.eqb k k' then (k', v) :: o' else (k', v') :: obj_set k v o'
  end.

Definition has_key (k : string) (o : obj) : bool :=
  existsb (fun kv => String.eqb k (fst kv)) o.

(** [{ ...a, ...b }]: the properties of [a] in place, with the values [b]
    gives them, then the properties only [b] has. *)
Definition spread (a b : obj) : obj :=
  map (fun kv => (fst kv, default (snd kv) (get (fst kv) b))) a
  ++ List.filter (fun kv => negb (has_key (fst kv) a)) b.

Definition dquote : ascii := "034"%char.

Definition string_of_char (c : ascii) : string := String c EmptyString.

Definition index_key (i : nat) : string := pretty (Z.of_nat i).

Fixpoint chars_from (i : nat) (s : string) : obj :=
  match s with
  | EmptyString => []
  | String c s' => (index_key i, JStr (string_of_char c)) :: chars_from (S i) s'
  end.

(** Own enumerable properties of a value that is not [null]/[undefined]
    (what a spread or [Object.keys] sees). *)
Definition own_entries (j : json) : obj :=
  match j with
  | JObj fields => fields
  | JArr xs => imap (fun i x => (index_key i, x)) xs
  | JStr s => chars_from 0 s
  | _ => []
  end.

(** [Object.entries(v)]: throws a TypeError on [null] ([None]). *)
Definition Object_entries (j : json) : option obj :=
  match j with
  | JNull => None
  | _ => Some (own_entries j)
  end.

(** *** String conversions *)

Fixpoint join (sep : string) (l : list string) : string :=
  match l with
  | [] => ""
  | [s] => s
  | s :: l' => s +:+ sep +:+ join sep l'
  end.

(** ToString. *)
Fixpoint ToString (j : json) : string :=
  match j with
  | JNull => "null"
  | JBool true => "true"
  | JBool false => "false"
  | JNum n => pretty n
  | JStr s => s
  | JArr xs =>
      join "," (map (fun x => match x with JNull => "" | _ => ToString x end) xs)
  | JObj _ => "[object Object]"
  end.

Definition hex_digit (n : N) : ascii :=
  if N.ltb n 10 then ascii_of_N (48 + n) else ascii_of_N (87 + n).

(** QuoteJSONString on one code unit. *)
Definition escape_char (c : ascii) : string :=
  let n := N_of_ascii c in
  if N.eqb n 34 then String "\"%char (string_of_char dquote)
  else if N.eqb n 92 then "\\"
  else if N.eqb n 8 then "\b"
  else if N.eqb n 9 then "\t"
  else if N.eqb n 10 then "\n"
  else if N.eqb n 12 then "\f"
  else if N.eqb n 13 then "\r"
  else if N.ltb n 32 then
    "\u00" +:+ String (hex_digit (n / 16)) (string_of_char (hex_digit (n mod 16)))
  else string_of_char c.

Fixpoint escape (s : string) : string :=
  match s with
  | EmptyString => ""
  | String c s' => escape_char c +:+ escape s'
  end.

Definition quote (s : string) : string :=
  String dquote (escape s +:+ string_of_char dquote).

(** [JSON.stringify] (no indentation). *)
Fixpoint JSON_stringify (j : json) : string :=
  match j with
  | JNull => "null"
  | JBool true => "true"
  | JBool false => "false"
  | JNum n => pretty n
  | JStr s => quote s
  | JArr xs => "[" +:+ join "," (map JSON_stringify xs) +:+ "]"
  | JObj fields =>
      "{" +:+ join "," (map (fun kv => quote (fst kv) +:+ ":" +:+ JSON_stringify (snd kv)) fields) +:+ "}"
  end.

(** ** Module constants *)

(** 3 less than their real values defined in SSO to prevent timing issues. *)
Definition REFRESH_TIMEOUT : Z := 900000 - 3.
Definition ACCESS_TIMEOUT : Z := 60000 - 3.

(** ** [buildOptions] *)

Definition standard_headers : obj :=
  [("Content-Type", JStr "application/json"); ("Cache-Control", JStr "no-cache")].

Definition standard : obj :=
  [("headers", JObj standard_headers);
   ("credentials", JStr "include");
   ("mode", JStr "same-origin")].

Definition buildOptions (options : obj) : obj :=
  let options :=
    match get "headers" options with
    | Some h =>
        if truthy h
        then obj_set "headers" (JObj (spread standard_headers (own_entries h))) options
        else options
    | None => options
    end in
  spread standard options.

(** ** [responseErrorMsg] *)

(** [body && body.k], when that value is truthy. *)
Definition truthy_prop (k : string) (body : json) : option json :=
  if truthy body then
    match prop k body with
    | Some v => if truthy v then Some v else None
    | None => None
    end
  else None.

Definition responseErrorMsg (status : Z) (body : json) : json :=
  match truthy_prop "error_description" body with
  | Some description => description
  | None =>
      match truthy_prop "error" body with
      | Some e => e
      | None => JStr (pretty status +:+ " - " +:+ JSON_stringify body)
      end
  end.

(** ** The browser side: values, promises, requests *)

(** Values a promise settles with, or that are stored in an observable. *)
Inductive value : Type :=
| VUndefined
| VJson (j : json)
| VError (message : string) (status : option Z) (body : option json)
    (** an [Error] with the [status] and [body] properties attached to it *)
| VSyntaxError
    (** what [JSON.parse] / [response.json()] throw on malformed text *)
| VEvent (type : string)
    (** the event object handed to an XHR listener *).

Inductive pstate : Type :=
| Pending
| Fulfilled (v : value)
| Rejected (v : value).

(** What an [await] waits for: a plain value, or a promise of the heap. An
    [async] function that returns a promise settles as that promise does; the
    two are identified. *)
Inductive awaited : Type :=
| AwaitValue (v : value)
| AwaitPromise (p : nat).

(** A [Response] of the Fetch API. *)
Record response : Type := Response {
  r_status : Z;
  r_text : string
}.

Inductive net_outcome : Type :=
| NetResponse (r : response)
| NetError (e : value).

(** A call of [window.fetch(url, options)]. *)
Record request : Type := Request {
  req_url : string;
  req_options : obj
}.

Inductive form_value : Type :=
| FormText (s : string)
| FormFile (file : string).

(** An [XMLHttpRequest] that has been sent. *)
Record xhr : Type := Xhr {
  x_method : json;
  x_url : string;
  x_headers : obj;
  x_form : list (string * form_value);
  x_promise : nat
}.

(** Suspended continuations of the store's asynchronous code. *)
Inductive task : Type :=
| KRefreshFetch (p0 : nat)
    (** [refresh], executor at [await window.fetch('/api/auth/refresh', ...)];
        it alone holds [resolve]/[reject] of [p0] *)
| KRefreshJson (r : response) (p0 : nat)
    (** [refresh], executor at [await response.json()] *)
| KRefreshFinally (p0 p1 : nat)
    (** the [.finally] reaction on [p0]; [p1] is the promise [.finally] returned *)
| KFetchGate (a : awaited) (url : string) (requestOptions : obj) (skip401 : json) (p : nat)
    (** [fetch], executor at [await this.refresh()] *)
| KFetchThen (skip401 : json) (p : nat)
    (** [fetch], the [.then(response => ...)] reaction on [window.fetch] *)
| KFetchResolveJson (r : response) (p : nat)
    (** [fetch], [resolve(response.json())]: [p] follows the body promise *)
| KFetchText (r : response) (p : nat)
    (** [fetch], [response.text().then(message => ...)] *)
| KFetchJson (r : response) (p : nat)
    (** [fetch], [response.json().then(body => ...)] *)
| KUploadGate (a : awaited) (method : json) (url : string) (headers : json)
    (data : obj) (file : string) (p : nat)
    (** [upload], executor at [await this.refresh()] *).

(** ** The store *)

Record RESTStore : Type := {
  timestamp : Z;
  expired : bool;
  status : Z;
  error : json;
  progress : Z;
  uploadError : value;
  refreshPromise : option nat;
  timeoutId : option nat
}.

Record World : Type := {
  this : RESTStore;
  localStorage : gmap string Z;
    (** each value is the integer whose decimal text the storage holds *)
  clock : Z;
    (** what [Date.now()] currently reads *)
  promises : list pstate;
  requests : list request;
    (** the [window.fetch] calls issued so far, oldest first *)
  xhrs : list xhr;
    (** the XHRs sent so far, oldest first *)
  tasks : list task
}.

Definition with_this (f : RESTStore -> RESTStore) (w : World) : World :=
  {| this := f (this w); localStorage := localStorage w; clock := clock w;
     promises := promises w; requests := requests w; xhrs := xhrs w;
     tasks := tasks w |}.

Definition with_localStorage (f : gmap string Z -> gmap string Z) (w : World) : World :=
  {| this := this w; localStorage := f (localStorage w); clock := clock w;
     promises := promises w; requests := requests w; xhrs := xhrs w;
     tasks := tasks w |}.

Definition with_clock (t : Z) (w : World) : World :=
  {| this := this w; localStorage := localStorage w; clock := t;
     promises := promises w; requests := requests w; xhrs := xhrs w;
     tasks := tasks w |}.

Definition with_promises (f : list pstate -> list pstate) (w : World) : World :=
  {| this := this w; localStorage := localStorage w; clock := clock w;
     promises := f (promises w); requests := requests w; xhrs := xhrs w;
     tasks := tasks w |}.

Definition with_requests (f : list request -> list request) (w : World) : World :=
  {| this := this w; localStorage := localStorage w; clock := clock w;
     promises := promises w; requests := f (requests w); xhrs := xhrs w;
     tasks := tasks w |}.

Definition with_xhrs (f : list xhr -> list xhr) (w : World) : World :=
  {| this := this w; localStorage := localStorage w; clock := clock w;
     promises := promises w; requests := requests w; xhrs := f (xhrs w);
     tasks := tasks w |}.

Definition with_tasks (f : list task -> list task) (w : World) : World :=
  {| this := this w; localStorage := localStorage w; clock := clock w;
     promises := promises w; requests := requests w; xhrs := xhrs w;
     tasks := f (tasks w) |}.

Definition set_expired (b : bool) (s : RESTStore) : RESTStore :=
  {| timestamp := timestamp s; expired := b; status := status s; error := error s;
     progress := progress s; uploadError := uploadError s;
     refreshPromise := refreshPromise s; timeoutId := timeoutId s |}.

Definition set_status (n : Z) (s : RESTStore) : RESTStore :=
  {| timestamp := timestamp s; expired := expired s; status := n; error := error s;
     progress := progress s; uploadError := uploadError s;
     refreshPromise := refreshPromise s; timeoutId := timeoutId s |}.

Definition set_error (e : json) (s : RESTStore) : RESTStore :=
  {| timestamp := timestamp s; expired := expired s; status := status s; error := e;
     progress := progress s; uploadError := uploadError s;
     refreshPromise := refreshPromise s; timeoutId := timeoutId s |}.

Definition set_progress (n : Z) (s : RESTStore) : RESTStore :=
  {| timestamp := timestamp s; expired := expired s; status := status s; error := error s;
     progress := n; uploadError := uploadError s;
     refreshPromise := refreshPromise s; timeoutId := timeoutId s |}.

Definition set_uploadError (v : value) (s : RESTStore) : RESTStore :=
  {| timestamp := timestamp s; expired := expired s; status := status s; error := error s;
     progress := progress s; uploadError := v;
     refreshPromise := refreshPromise s; timeoutId := timeoutId s |}.

Definition set_refreshPromise (p : option nat) (s : RESTStore) : RESTStore :=
  {| timestamp := timestamp s; expired := expired s; status := status s; error := error s;
     progress := progress s; uploadError := uploadError s;
     refreshPromise := p; timeoutId := timeoutId s |}.

(** *** Promises *)

(** [new Promise(...)]: a fresh pending promise; its identity is its index. *)
Definition new_promise (w : World) : nat * World :=
  (length (promises w), with_promises (fun ps => ps ++ [Pending]) w).

Definition pstate_of (p : nat) (w : World) : pstate :=
  default Pending (promises w !! p).

(** [resolve(v)] / [reject(v)]: only the first settlement counts. *)
Definition settle (p : nat) (s : pstate) (w : World) : World :=
  match promises w !! p with
  | Some Pending => with_promises (fun ps => <[p := s]> ps) w
  | _ => w
  end.

Definition resolve (p : nat) (v : value) : World -> World := settle p (Fulfilled v).
Definition reject (p : nat) (v : value) : World -> World := settle p (Rejected v).

Definition outcome (a : awaited) (w : World) : pstate :=
  match a with
  | AwaitValue v => Fulfilled v
  | AwaitPromise p => pstate_of p w
  end.

Definition suspend (k : task) : World -> World :=
  with_tasks (fun ks => ks ++ [k]).

(** [window.fetch(url, options)], with the continuation that awaits it. *)
Definition window_fetch (url : string) (options : obj) (k : task) (w : World) : World :=
  suspend k (with_requests (fun rs => rs ++ [Request url options]) w).

(** *** The persisted clock *)

Definition lastRefreshed_key : string := "auth.lastRefreshed".

Definition Date_now (w : World) : Z := clock w.

(** [Number(window.localStorage.getItem(key))]: [Number(null)] is [0]. *)
Definition getLastRefresh (w : World) : Z :=
  match localStorage w !! lastRefreshed_key with
  | Some t => t
  | None => 0
  end.

Definition updateLastRefresh (w : World) : World :=
  with_localStorage (fun ls => <[lastRefreshed_key := Date_now w]> ls) w.

Definition clearLastRefresh (w : World) : World :=
  with_localStorage (fun ls => delete lastRefreshed_key ls) w.

(** *** Small actions *)

Definition resetExpired : World -> World := with_this (set_expired false).

(** [clearTimeout(this.timeoutId)] has nothing to cancel: [timeoutId] is
    never assigned. *)
Definition clearTimeout : World -> World := resetExpired.

Definition clearError : World -> World :=
  with_this (fun s => set_uploadError (VJson (JStr "")) (set_error (JStr "") (set_status 200 s))).

(** *** Session watcher: the callback of the 5000 ms interval *)

Definition WATCH_INTERVAL : Z := 5000.

Definition sessionWatch (w : World) : World :=
  if (getLastRefresh w + REFRESH_TIMEOUT <? Date_now w)%Z
  then with_this (set_expired true) w
  else w.

(** [new RESTStore()] in a browser whose storage is [ls] and whose clock
    reads [now]. *)
Definition constructor (ls : gmap string Z) (now : Z) : World :=
  {| this := {| timestamp := now; expired := false; status := 200; error := JStr "";
                progress := 0; uploadError := VJson (JStr "");
                refreshPromise := None; timeoutId := None |};
     localStorage := ls; clock := now; promises := []; requests := [];
     xhrs := []; tasks := [] |}.

(** ** Refresh coordinator *)

Definition refresh_url : string := "/api/auth/refresh".

Definition refresh (w : World) : awaited * World :=
  match refreshPromise (this w) with
  | Some p => (AwaitPromise p, w)
  | None =>
      if (getLastRefresh w + ACCESS_TIMEOUT >? Date_now w)%Z then (AwaitValue VUndefined, w)
      else
        let w := updateLastRefresh w in
        let '(p0, w) := new_promise w in
        let w := window_fetch refresh_url (buildOptions [("method", JStr "POST")])
                   (KRefreshFetch p0) w in
        let '(p1, w) := new_promise w in
        let w := suspend (KRefreshFinally p0 p1) w in
        let w := with_this (set_refreshPromise (Some p1)) w in
        (AwaitPromise p1, w)
  end.

(** The executor after [await window.fetch(...)]. When the awaited call
    rejects, the executor throws: neither [resolve] nor [reject] is reached. *)
Definition refresh_on_fetch (o : net_outcome) (p0 : nat) (w : World) : World :=
  match o with
  | NetError _ => w
  | NetResponse r =>
      if (r_status r =? 200)%Z then resolve p0 VUndefined (with_this (set_expired false) w)
      else suspend (KRefreshJson r p0) (with_this (set_expired true) w)
  end.

(** The [.finally] reaction, run once [p0] has settled: clear the handle,
    then the promise [.finally] returned takes the outcome of [p0]. The
    microtask hops between the two are not told apart. *)
Definition refresh_finally (p0 p1 : nat) (w : World) : World :=
  settle p1 (pstate_of p0 w) (with_this (set_refreshPromise None) w).

Fixpoint contains_char (c : ascii) (s : string) : bool :=
  match s with
  | EmptyString => false
  | String c' s' => if Ascii.eqb c c' then true else contains_char c s'
  end.

(** *** A concrete platform, for running the store on examples *)

Definition sample_documents : list json :=
  [ JObj [];
    JObj [("id", JNum 1)];
    JObj [("error", JStr "unauthorized")];
    JObj [("error_description", JStr ""); ("error", JStr "invalid_grant")] ].

(** A [JSON.parse] that reads back the documents of [sample_documents] (in
    the compact form [JSON.stringify] prints) and throws on any other text. *)
Definition sample_parse (text : string) : option json :=
  List.find (fun j => String.eqb (JSON_stringify j) text) sample_documents.

(** [qs.stringify] on flat objects of plain values. *)
Definition sample_qs (query : json) : string :=
  join "&" (map (fun kv => fst kv +:+ "=" +:+ ToString (snd kv)) (own_entries query)).

(** Round half up of [loaded * 100 / total]. *)
Definition sample_percent (loaded total : Z) : Z :=
  if (total =? 0)%Z then 0 else (200 * loaded + total) / (2 * total).

(** A browser that refreshed one second ago, and one whose persisted clock
    is absent long after the epoch. *)
Definition sample_fresh : World :=
  constructor {[ lastRefreshed_key := 1700000000000 ]} 1700000001000.

Definition sample_stale : World := constructor ∅ 1700000001000.

Definition sample_unauthorized : string :=
  JSON_stringify (JObj [("error", JStr "unauthorized")]).

Section Store.

(** [JSON.parse]: [None] when it throws. [response.json()] is [JSON.parse]
    of the body text. *)
Variable JSON_parse : string -> option json.

(** [qs.stringify(query, { skipNulls: true })]. *)
Variable qs_stringify : json -> string.

(** [Math.round((loaded * 100.0) / total)]. *)
Variable percent : Z -> Z -> Z.

(** The executor of [refresh] after [await response.json()]. *)
Definition refresh_on_json (r : response) (p0 : nat) (w : World) : World :=
  match JSON_parse (r_text r) with
  | None => w
  | Some body =>
      let w := with_this (set_error (responseErrorMsg (r_status r) body)) w in
      reject p0 (VError (ToString (error (this w))) (Some (r_status r)) (Some body)) w
  end.

(** ** Request client *)

(** [url] with the serialized query appended, when there is one. *)
Definition with_query (url : string) (query : option json) : string :=
  match query with
  | Some q =>
      if truthy q && (0 <? Z.of_nat (length (own_entries q)))%Z
      then url +:+ (if contains_char "?"%char url then "&" else "?") +:+ qs_stringify q
      else url
  | None => url
  end.

(** The freshness gate of [fetch] and [upload]:
    [!options.skipRefresh && recordActivity]. *)
Definition gate (options : obj) (recordActivity : bool) : bool :=
  negb (truthy_opt (get "skipRefresh" options)) && recordActivity.

(** [window.fetch(url, buildOptions(requestOptions)).then(response => ...)]. *)
Definition fetch_send (url : string) (requestOptions : obj) (skip401 : json) (p : nat)
    : World -> World :=
  window_fetch url (buildOptions requestOptions) (KFetchThen skip401 p).

Definition fetch (url : string) (options : obj) (recordActivity : bool) (w : World)
    : nat * World :=
  let '(p, w) := new_promise w in
  let query := get "query" options in
  let skip401 := default (JBool false) (get "skip401" options) in
  let requestOptions := rest ["query"; "skip401"] options in
  let url := with_query url query in
  if gate options recordActivity then
    let '(a, w) := refresh w in
    (p, suspend (KFetchGate a url requestOptions skip401 p) w)
  else (p, fetch_send url requestOptions skip401 p w).

(** After [await this.refresh()]: the [catch] rejects with the refresh error
    and returns; otherwise the call is issued. *)
Definition fetch_after_gate (a : awaited) (url : string) (requestOptions : obj)
    (skip401 : json) (p : nat) (w : World) : World :=
  match outcome a w with
  | Pending => w
  | Rejected e => reject p e w
  | Fulfilled _ => fetch_send url requestOptions skip401 p w
  end.

Definition response_ok (r : response) : bool :=
  ((200 <=? r_status r) && (r_status r <=? 299))%Z.

(** The [.then(response => ...)] reaction. A rejected [window.fetch] skips
    it, and nothing settles [p]. *)
Definition fetch_on_response (o : net_outcome) (skip401 : json) (p : nat) (w : World)
    : World :=
  match o with
  | NetError _ => w
  | NetResponse r =>
      let w :=
        if truthy skip401 && (r_status r =? 401)%Z
        then with_this (set_status 200) w
        else with_this (set_status (r_status r)) w in
      if response_ok r then
        suspend (KFetchResolveJson r p) (with_this (set_error (JStr "")) w)
      else if (r_status r =? 504)%Z then suspend (KFetchText r p) w
      else suspend (KFetchJson r p) w
  end.

(** [resolve(response.json())]: [p] settles as the body promise does. *)
Definition fetch_resolve_json (r : response) (p : nat) (w : World) : World :=
  match JSON_parse (r_text r) with
  | Some body => resolve p (VJson body) w
  | None => reject p VSyntaxError w
  end.

(** Specific handling for gateway timeout. *)
Definition fetch_on_text (r : response) (p : nat) (w : World) : World :=
  let message := r_text r in
  reject p (VError message None (Some (JObj [("error", JStr message)]))) w.

Definition fetch_on_json (r : response) (p : nat) (w : World) : World :=
  match JSON_parse (r_text r) with
  | None => w
  | Some body =>
      let w := with_this (set_error (responseErrorMsg (r_status r) body)) w in
      reject p (VError (ToString (error (this w))) (Some (r_status r)) (Some body)) w
  end.

(** ** Upload client *)

(** The form fields: every remaining option, JSON-stringified, then the file. *)
Definition form_data (data : obj) (file : string) : list (string * form_value) :=
  map (fun kv => (fst kv, FormText (JSON_stringify (snd kv)))) data
  ++ [("file", FormFile file)].

(** From [new XMLHttpRequest()] to [xhr.send(fd)]. [Object.entries(headers)]
    throws on [null]: the executor ends there and nothing is sent. *)
Definition upload_send (method : json) (url : string) (headers : json) (data : obj)
    (file : string) (p : nat) (w : World) : World :=
  match Object_entries headers with
  | None => w
  | Some hs => with_xhrs (fun xs => xs ++ [Xhr method url hs (form_data data file) p]) w
  end.

Definition upload (url : string) (file : string) (options : obj) (recordActivity : bool)
    (w : World) : nat * World :=
  let '(p, w) := new_promise w in
  let method := default (JStr "POST") (get "method" options) in
  let query := get "query" options in
  let headers := default (JObj []) (get "headers" options) in
  let data := rest ["method"; "query"; "headers"] options in
  let url := with_query url query in
  if gate options recordActivity then
    let '(a, w) := refresh w in
    (p, suspend (KUploadGate a method url headers data file p) w)
  else (p, upload_send method url headers data file p w).

Definition upload_after_gate (a : awaited) (method : json) (url : string) (headers : json)
    (data : obj) (file : string) (p : nat) (w : World) : World :=
  match outcome a w with
  | Pending => w
  | Rejected e => reject p e w
  | Fulfilled _ => upload_send method url headers data file p w
  end.

(** The ['progress'] listener of [xhr.upload]. *)
Definition xhr_onprogress (loaded total : Z) : World -> World :=
  with_this (set_progress (percent loaded total)).

(** The ['error'] listener: the event object has no [message]. *)
Definition xhr_onerror (x : xhr) (w : World) : World :=
  reject (x_promise x) (VEvent "error") (with_this (set_uploadError VUndefined) w).

(** [xhr.onreadystatechange]. The two conditions exclude each other; when
    [JSON.parse] throws, the handler ends before [resolve]/[reject]. *)
Definition xhr_onreadystatechange (x : xhr) (readyState xstatus : Z) (responseText : string)
    (w : World) : World :=
  let w := with_this (set_status xstatus) w in
  if (readyState =? 4)%Z && (xstatus =? 200)%Z then
    let w := with_this (set_uploadError (VJson (JStr ""))) w in
    match JSON_parse responseText with
    | Some parsed => resolve (x_promise x) (VJson parsed) w
    | None => w
    end
  else if (readyState =? 4)%Z && negb (xstatus =? 200)%Z then
    let w := with_this (set_uploadError (VJson (JStr responseText))) w in
    match JSON_parse responseText with
    | Some parsed => reject (x_promise x) (VJson parsed) w
    | None => w
    end
  else w.

(** ** The event loop *)

Definition drop_task (i : nat) : World -> World :=
  with_tasks (fun ks => delete i ks).

(** Whether what a suspended task waits for has arrived. The two tasks that
    wait for the network are resumed by [deliver] instead. *)
Definition ready (k : task) (w : World) : bool :=
  match k with
  | KRefreshFetch _ | KFetchThen _ _ => false
  | KRefreshFinally p0 _ =>
      match pstate_of p0 w with Pending => false | _ => true end
  | KFetchGate a _ _ _ _ | KUploadGate a _ _ _ _ _ _ =>
      match outcome a w with Pending => false | _ => true end
  | KRefreshJson _ _ | KFetchResolveJson _ _ | KFetchText _ _ | KFetchJson _ _ => true
  end.

Definition run_task (k : task) (w : World) : World :=
  match k with
  | KRefreshFetch _ | KFetchThen _ _ => w
  | KRefreshJson r p0 => refresh_on_json r p0 w
  | KRefreshFinally p0 p1 => refresh_finally p0 p1 w
  | KFetchGate a url requestOptions skip401 p =>
      fetch_after_gate a url requestOptions skip401 p w
  | KFetchResolveJson r p => fetch_resolve_json r p w
  | KFetchText r p => fetch_on_text r p w
  | KFetchJson r p => fetch_on_json r p w
  | KUploadGate a method url headers data file p =>
      upload_after_gate a method url headers data file p w
  end.

(** The event loop resumes the [i]-th suspended task. *)
Definition resume (i : nat) (w : World) : World :=
  match tasks w !! i with
  | Some k => if ready k w then run_task k (drop_task i w) else w
  | None => w
  end.

(** The [window.fetch] that the [i]-th suspended task awaits completes. *)
Definition deliver (i : nat) (o : net_outcome) (w : World) : World :=
  match tasks w !! i with
  | Some (KRefreshFetch p0) => refresh_on_fetch o p0 (drop_task i w)
  | Some (KFetchThen skip401 p) => fetch_on_response o skip401 p (drop_task i w)
  | _ => w
  end.

Inductive event : Type :=
| EClock (t : Z)
    (** time passes: [Date.now()] now reads [t] *)
| EStorage (k : string) (v : option Z)
    (** another tab sets or removes a key of the shared storage *)
| ETick
    (** the session-watch interval fires *)
| ERefresh
| EFetch (url : string) (options : obj) (recordActivity : bool)
| EUpload (url : string) (file : string) (options : obj) (recordActivity : bool)
| EClearTimeout
| EResetExpired
| EClearError
| EUpdateLastRefresh
| EClearLastRefresh
| EResume (i : nat)
| EDeliver (i : nat) (o : net_outcome)
| EXhrReadyState (x : nat) (readyState xstatus : Z) (responseText : string)
| EXhrProgress (x : nat) (loaded total : Z)
| EXhrError (x : nat).

Definition on_xhr (x : nat) (f : xhr -> World -> World) (w : World) : World :=
  match xhrs w !! x with
  | Some r => f r w
  | None => w
  end.

Definition step (e : event) (w : World) : World :=
  match e with
  | EClock t => with_clock t w
  | EStorage k (Some v) => with_localStorage (fun ls => <[k := v]> ls) w
  | EStorage k None => with_localStorage (fun ls => delete k ls) w
  | ETick => sessionWatch w
  | ERefresh => snd (refresh w)
  | EFetch url options recordActivity => snd (fetch url options recordActivity w)
  | EUpload url file options recordActivity =>
      snd (upload url file options recordActivity w)
  | EClearTimeout => clearTimeout w
  | EResetExpired => resetExpired w
  | EClearError => clearError w
  | EUpdateLastRefresh => updateLastRefresh w
  | EClearLastRefresh => clearLastRefresh w
  | EResume i => resume i w
  | EDeliver i o => deliver i o w
  | EXhrReadyState x readyState xstatus responseText =>
      on_xhr x (fun r => xhr_onreadystatechange r readyState xstatus responseText) w
  | EXhrProgress x loaded total => on_xhr x (fun _ => xhr_onprogress loaded total) w
  | EXhrError x => on_xhr x xhr_onerror w
  end.

Definition run (es : list event) (w : World) : World :=
  fold_left (fun w e => step e w) es w.

(** ** Vocabulary of the statements *)

(** The world a stale, idle [refresh] call leaves behind. *)
Definition refresh_started (w : World) : World :=
  let p0 := length (promises w) in
  {| this := set_refreshPromise (Some (S p0)) (this w);
     localStorage := <[lastRefreshed_key := Date_now w]> (localStorage w);
     clock := clock w;
     promises := promises w ++ [Pending; Pending];
     requests := requests w ++ [Request refresh_url (buildOptions [("method", JStr "POST")])];
     xhrs := xhrs w;
     tasks := tasks w ++ [KRefreshFetch p0; KRefreshFinally p0 (S p0)] |}.

(** Once a promise of [w] is settled, [w'] shows the same settlement. *)
Definition stable (w w' : World) : Prop :=
  forall p, pstate_of p w <> Pending -> pstate_of p w' = pstate_of p w.


(** *** The life of one refresh

    The continuations that belong to [refresh], and where a refresh stands:
    no refresh ([Idle]); the call to the refresh endpoint is awaited
    ([Waiting]); a failure response arrived and its body is being read
    ([Reading]); the inner promise [p0] has settled and the [.finally]
    reaction is due ([Done]); the executor threw, so nothing can settle
    [p0] any more ([Stuck]). [p1] is the in-flight handle. *)

Definition is_refresh_task (k : task) : bool :=
  match k with
  | KRefreshFetch _ | KRefreshJson _ _ | KRefreshFinally _ _ => true
  | _ => false
  end.

Definition refresh_tasks (w : World) : list task :=
  List.filter is_refresh_task (tasks w).

(** The promise a continuation of [fetch] or [upload] settles. *)
Definition foreign_target (k : task) : option nat :=
  match k with
  | KFetchGate _ _ _ _ p | KFetchThen _ p | KFetchResolveJson _ p
  | KFetchText _ p | KFetchJson _ p | KUploadGate _ _ _ _ _ _ p => Some p
  | KRefreshFetch _ | KRefreshJson _ _ | KRefreshFinally _ _ => None
  end.

Inductive phase : Type :=
| Idle
| Waiting (p0 p1 : nat)
| Reading (r : response) (p0 p1 : nat)
| Done (p0 p1 : nat)
| Stuck (p0 p1 : nat).

Definition phase_handle (ph : phase) : option nat :=
  match ph with
  | Idle => None
  | Waiting _ p1 | Reading _ _ p1 | Done _ p1 | Stuck _ p1 => Some p1
  end.

Definition phase_tasks (ph : phase) : list task :=
  match ph with
  | Idle => []
  | Waiting p0 p1 => [KRefreshFetch p0; KRefreshFinally p0 p1]
  | Reading r p0 p1 => [KRefreshFinally p0 p1; KRefreshJson r p0]
  | Done p0 p1 | Stuck p0 p1 => [KRefreshFinally p0 p1]
  end.

Definition owns (ph : phase) (q : nat) : Prop :=
  match ph with
  | Idle => False
  | Waiting p0 p1 | Reading _ p0 p1 | Done p0 p1 | Stuck p0 p1 => q = p0 \/ q = p1
  end.

Definition phase_pending (ph : phase) (ps : list pstate) : Prop :=
  match ph with
  | Idle => True
  | Waiting p0 p1 | Reading _ p0 p1 | Stuck p0 p1 =>
      p0 <> p1 /\ ps !! p0 = Some Pending /\ ps !! p1 = Some Pending
  | Done p0 p1 =>
      p0 <> p1 /\ (exists s, ps !! p0 = Some s /\ s <> Pending) /\ ps !! p1 = Some Pending
  end.

(** [q] is an allocated promise that does not belong to the refresh. *)
Definition free (ph : phase) (n : nat) (q : nat) : Prop :=
  (q < n)%nat /\ ~ owns ph q.

Record Inv (ph : phase) (w : World) : Prop := {
  inv_handle : refreshPromise (this w) = phase_handle ph;
  inv_tasks : refresh_tasks w = phase_tasks ph;
  inv_pending : phase_pending ph (promises w);
  inv_foreign :
    Forall (fun k => forall p, foreign_target k = Some p ->
                               free ph (length (promises w)) p) (tasks w);
  inv_xhrs : Forall (fun x => free ph (length (promises w)) (x_promise x)) (xhrs w)
}.

(** A stuck refresh stays stuck. *)
Definition keeps (ph ph' : phase) : Prop :=
  forall p0 p1, ph = Stuck p0 p1 -> ph' = Stuck p0 p1.


(** *** The reaction of [AuthStore] to the store

    The body of the [autorun] of [AuthStore]'s constructor, as a decision on
    the values it reads. *)




(** *** Calls that pass through the freshness gate *)






(** *** Who can settle a promise

    The promise a suspended continuation will settle, and all the promises
    that some continuation or some XHR still holds. *)

Definition target (k : task) : nat :=
  match k with
  | KRefreshFetch p0 | KRefreshJson _ p0 => p0
  | KRefreshFinally _ p1 => p1
  | KFetchGate _ _ _ _ p | KFetchThen _ p | KFetchResolveJson _ p
  | KFetchText _ p | KFetchJson _ p | KUploadGate _ _ _ _ _ _ p => p
  end.

Definition holders (w : World) : list nat :=
  (target <$> tasks w) ++ (x_promise <$> xhrs w).

(** An allocated promise that nothing holds any more. *)
Definition orphan (p : nat) (w : World) : Prop :=
  (p < length (promises w))%nat /\ p ∉ holders w.

(** [w'] still has [p] orphaned, in the state it has in [w]. *)
Definition keep (p : nat) (w w' : World) : Prop :=
  orphan p w' /\ promises w' !! p = promises w !! p.

(** Every promise has at most one holder; the promise of a suspended
    continuation is pending. *)
Record WF (w : World) : Prop := {
  wf_nodup : NoDup (holders w);
  wf_bound : Forall (fun q => (q < length (promises w))%nat) (holders w);
  wf_pending : Forall (fun k => promises w !! target k = Some Pending) (tasks w)
}.


(** *** Helpers of the collaborating stores *)

(** [s.lastIndexOf(c)]: the position of the last [c] in [s], or -1. *)
Fixpoint lastIndexOf (c : ascii) (s : string) : Z :=
  match s with
  | EmptyString => -1
  | String c' s' =>
      let i := lastIndexOf c s' in
      if (0 <=? i)%Z then i + 1 else if Ascii.eqb c c' then 0 else -1
  end.

Fixpoint string_drop (n : nat) (s : string) : string :=
  match n, s with
  | O, _ => s
  | S _, EmptyString => EmptyString
  | S n', String _ s' => string_drop n' s'
  end.

(** [s.substr(start)]: a negative [start] counts from the end. *)
Definition substr (start : Z) (s : string) : string :=
  if (start <? 0)%Z
  then string_drop (Z.to_nat (Z.max (Z.of_nat (String.length s) + start) 0)) s
  else string_drop (Z.to_nat start) s.

(** [ConfigStore.sponsorId]:
    [this.sponsor ? this.sponsor.substr(this.sponsor.lastIndexOf('/') + 1) : '']. *)
Definition sponsorId (sponsor : string) : string :=
  if String.eqb sponsor "" then ""
  else substr (lastIndexOf "/"%char sponsor + 1) sponsor.

(** [ConfigStore.siteId], the same on [this.siteUrl]. *)
Definition siteId (siteUrl : string) : string :=
  if String.eqb siteUrl "" then ""
  else substr (lastIndexOf "/"%char siteUrl + 1) siteUrl.

(** [s.indexOf(needle)]. *)
Definition indexOf (needle s : string) : Z :=
  match String.index 0 needle s with
  | Some n => Z.of_nat n
  | None => -1
  end.

(** [SponsorStore.isCommunity]: [sponsorId && sponsorId.indexOf('CM_') === 0].
    A sponsor id is a string or [undefined] ([None]); the result is the id
    itself when it is falsy. *)
Definition isCommunity (sponsorId : option string) : option json :=
  match sponsorId with
  | None => None
  | Some s =>
      if String.eqb s "" then Some (JStr "")
      else Some (JBool (indexOf "CM_" s =? 0)%Z)
  end.

(** [SponsorStore.isEnterprise]: [sponsorId && sponsorId.indexOf('CM_') !== 0]. *)
Definition isEnterprise (sponsorId : option string) : option json :=
  match sponsorId with
  | None => None
  | Some s =>
      if String.eqb s "" then Some (JStr "")
      else Some (JBool (negb (indexOf "CM_" s =? 0)%Z))
  end.

(** An entry of [AuthStore.permissions]: a module and, when present, the
    roles held in it. *)
Record module_roles : Type := ModuleRoles {
  pm_module : string;
  pm_roles : option (list string)
}.

(** [AuthStore.hasRole(module, ...roles)]. *)
Definition hasRole (permissions : list module_roles) (module : string)
    (roles : list string) : bool :=
  match List.find (fun moduleRoles => String.eqb (pm_module moduleRoles) module) permissions with
  | Some moduleRoles =>
      match pm_roles moduleRoles with
      | Some held =>
          negb (length (List.filter (fun role => existsb (String.eqb role) held) roles) =? 0)%nat
      | None => false
      end
  | None => false
  end.


(** *** Outgoing requests *)

(** The options of a request went through [buildOptions]. *)
Definition built (q : request) : Prop :=
  exists options, req_options q = buildOptions options.

(** [w'] has the requests of [w], then some that went through
    [buildOptions]. *)
Definition more_requests (w w' : World) : Prop :=
  exists l, requests w' = requests w ++ l /\ Forall built l.


(** * Properties *)

(** ** The persisted clock and the session watcher *)

Lemma getLastRefresh_absent (w : World) :
  localStorage w !! lastRefreshed_key = None -> getLastRefresh w = 0.
Proof. unfold getLastRefresh. intros ->. reflexivity. Qed.

Lemma getLastRefresh_update (w : World) :
  getLastRefresh (updateLastRefresh w) = Date_now w.
Proof.
  unfold getLastRefresh, updateLastRefresh; simpl.
  rewrite lookup_insert_eq. reflexivity.
Qed.

Lemma getLastRefresh_clear (w : World) : getLastRefresh (clearLastRefresh w) = 0.
Proof.
  unfold getLastRefresh, clearLastRefresh; simpl.
  rewrite lookup_delete_eq. reflexivity.
Qed.

Lemma sessionWatch_cases (w : World) :
  (Date_now w - getLastRefresh w > REFRESH_TIMEOUT
   /\ sessionWatch w = with_this (set_expired true) w)
  \/ (Date_now w - getLastRefresh w <= REFRESH_TIMEOUT /\ sessionWatch w = w).
Proof.
  unfold sessionWatch.
  destruct (Z.ltb_spec (getLastRefresh w + REFRESH_TIMEOUT) (Date_now w)); [left | right];
    split; try reflexivity; lia.
Qed.

(** ** Refresh coordinator: one call *)

Lemma refresh_in_flight (w : World) (p : nat) :
  refreshPromise (this w) = Some p -> refresh w = (AwaitPromise p, w).
Proof. unfold refresh. intros ->. reflexivity. Qed.

Lemma refresh_fresh (w : World) :
  refreshPromise (this w) = None ->
  Date_now w - getLastRefresh w < ACCESS_TIMEOUT ->
  refresh w = (AwaitValue VUndefined, w).
Proof.
  unfold refresh. intros -> Hfresh.
  destruct (Z.gtb_spec (getLastRefresh w + ACCESS_TIMEOUT) (Date_now w)); [reflexivity | lia].
Qed.

Lemma refresh_stale (w : World) :
  refreshPromise (this w) = None ->
  Date_now w - getLastRefresh w >= ACCESS_TIMEOUT ->
  refresh w = (AwaitPromise (S (length (promises w))), refresh_started w).
Proof.
  unfold refresh. intros -> Hstale.
  destruct (Z.gtb_spec (getLastRefresh w + ACCESS_TIMEOUT) (Date_now w)); [lia |].
  unfold refresh_started, new_promise, window_fetch, suspend, updateLastRefresh,
    with_this, with_tasks, with_requests, with_promises, with_localStorage; simpl.
  rewrite length_app; simpl. rewrite Nat.add_1_r.
  rewrite <- !app_assoc; simpl. reflexivity.
Qed.

Lemma deliver_localStorage (i : nat) (o : net_outcome) (w : World) :
  localStorage (deliver i o w) = localStorage w.
Proof.
  unfold deliver. destruct (tasks w !! i) as [[]|]; try reflexivity.
  - unfold refresh_on_fetch. destruct o as [r|]; [|reflexivity].
    destruct (r_status r =? 200)%Z; [|reflexivity].
    unfold resolve, settle; simpl. destruct (_ !! _) as [[]|]; reflexivity.
  - unfold fetch_on_response. destruct o as [r|]; [|reflexivity].
    destruct (truthy skip401 && _), (response_ok r), (r_status r =? 504)%Z; reflexivity.
Qed.

(** C2. An idle [refresh()] (no refresh in flight): when
    [now - lastRefreshedAt < ACCESS_TIMEOUT] it returns at once and changes
    nothing (no network call, persisted clock untouched); when
    [now - lastRefreshedAt >= ACCESS_TIMEOUT] it issues exactly one network
    call and has written [lastRefreshedAt = now] while the executor is still
    suspended on that call and both promises are pending; delivering the
    response later does not write the clock. *)
Theorem C2_refresh_idle (w : World) :
  refreshPromise (this w) = None ->
  (Date_now w - getLastRefresh w < ACCESS_TIMEOUT ->
     refresh w = (AwaitValue VUndefined, w)
     /\ requests (snd (refresh w)) = requests w
     /\ localStorage (snd (refresh w)) = localStorage w)
  /\ (Date_now w - getLastRefresh w >= ACCESS_TIMEOUT ->
     let w' := snd (refresh w) in
     requests w' =
       requests w ++ [Request refresh_url (buildOptions [("method", JStr "POST")])]
     /\ localStorage w' = <[lastRefreshed_key := Date_now w]> (localStorage w)
     /\ getLastRefresh w' = Date_now w
     /\ (exists p0 p1,
           fst (refresh w) = AwaitPromise p1
           /\ tasks w' = tasks w ++ [KRefreshFetch p0; KRefreshFinally p0 p1]
           /\ pstate_of p0 w' = Pending /\ pstate_of p1 w' = Pending)
     /\ (forall i o, localStorage (deliver i o w') = localStorage w')).
Proof.
  intros Hidle. split; intros Hage.
  - rewrite (refresh_fresh w Hidle Hage). auto.
  - rewrite (refresh_stale w Hidle Hage). cbn [snd fst].
    split; [reflexivity|]. split; [reflexivity|].
    split.
    { unfold getLastRefresh, refresh_started; simpl.
      rewrite lookup_insert_eq. reflexivity. }
    split.
    { exists (length (promises w)), (S (length (promises w))).
      split; [reflexivity|]. split; [reflexivity|].
      unfold pstate_of, refresh_started; simpl. split.
      - rewrite lookup_app_r by lia. rewrite Nat.sub_diag. reflexivity.
      - rewrite lookup_app_r by lia.
        replace (S (length (promises w)) - length (promises w))%nat with 1%nat by lia.
        reflexivity. }
    intros i o. apply deliver_localStorage.
Qed.

(** C4 (amended). A tick of the session watcher sets the expiry flag exactly
    when [now - lastRefreshedAt > REFRESH_TIMEOUT] (strictly): the flag is
    true after the tick iff it was true before or the ceiling is exceeded;
    while [now - lastRefreshedAt <= REFRESH_TIMEOUT] the tick changes
    nothing; and with ticks every [WATCH_INTERVAL] from a start [t0] not
    later than the crossing, some tick falls within one interval after the
    crossing and sets the flag. *)
Theorem C4_session_watch (w : World) :
  (expired (this (sessionWatch w)) = true <->
     expired (this w) = true \/ Date_now w - getLastRefresh w > REFRESH_TIMEOUT)
  /\ (Date_now w - getLastRefresh w <= REFRESH_TIMEOUT -> sessionWatch w = w)
  /\ (forall t0 : Z,
        t0 <= getLastRefresh w + REFRESH_TIMEOUT ->
        exists k : nat,
          let t := t0 + Z.of_nat (S k) * WATCH_INTERVAL in
          getLastRefresh w + REFRESH_TIMEOUT < t
          /\ t <= getLastRefresh w + REFRESH_TIMEOUT + WATCH_INTERVAL
          /\ expired (this (sessionWatch (with_clock t w))) = true).
Proof.
  split; [|split].
  - destruct (sessionWatch_cases w) as [[Hc ->]|[Hc ->]]; simpl.
    + split; [intros _; right; exact Hc | reflexivity].
    + split; [intros H; left; exact H | intros [H|H]; [exact H | lia]].
  - intros Hc. destruct (sessionWatch_cases w) as [[Hc' _]|[_ ->]]; [lia | reflexivity].
  - intros t0 Ht0.
    set (T := getLastRefresh w + REFRESH_TIMEOUT) in *.
    exists (Z.to_nat ((T - t0) / WATCH_INTERVAL)).
    assert (Hq : 0 <= (T - t0) / WATCH_INTERVAL)
      by (apply Z.div_pos; [lia | reflexivity]).
    pose proof (Z.mul_div_le (T - t0) WATCH_INTERVAL eq_refl) as Hlo.
    pose proof (Z.mul_succ_div_gt (T - t0) WATCH_INTERVAL eq_refl) as Hhi.
    cbv zeta. rewrite Nat2Z.inj_succ, Z2Nat.id by exact Hq.
    split; [lia|]. split; [lia|].
    unfold sessionWatch.
    change (getLastRefresh (with_clock _ w)) with (getLastRefresh w).
    cbn [Date_now with_clock clock]. fold T.
    destruct (Z.ltb_spec T (t0 + Z.succ ((T - t0) / WATCH_INTERVAL) * WATCH_INTERVAL));
      [reflexivity | lia].
Qed.

(** C9. When the persisted clock key is absent, [getLastRefresh()] is 0; at
    any clock reading past the session ceiling (every reading of a running
    browser: 15 minutes after the epoch) an idle [refresh()] therefore
    issues its network call, and a tick of the session watcher sets the
    expiry flag. [clearLastRefresh] (logout) leaves the key absent. *)
Theorem C9_absent_clock (w : World) :
  localStorage w !! lastRefreshed_key = None ->
  REFRESH_TIMEOUT < Date_now w ->
  getLastRefresh w = 0
  /\ (refreshPromise (this w) = None ->
      requests (snd (refresh w)) =
        requests w ++ [Request refresh_url (buildOptions [("method", JStr "POST")])])
  /\ expired (this (sessionWatch w)) = true
  /\ (forall w0, localStorage (clearLastRefresh w0) !! lastRefreshed_key = None).
Proof.
  intros Habsent Hnow.
  pose proof (getLastRefresh_absent w Habsent) as H0.
  split; [exact H0|]. split_and!.
  - intros Hidle. rewrite (refresh_stale w Hidle); [reflexivity|].
    rewrite H0. unfold ACCESS_TIMEOUT, REFRESH_TIMEOUT in *. lia.
  - destruct (sessionWatch_cases w) as [[_ ->]|[Hc _]]; [reflexivity | lia].
  - intros w0. unfold clearLastRefresh; simpl. apply lookup_delete_eq.
Qed.

(** ** Promises *)

Lemma pstate_of_settle (p : nat) (s : pstate) (w : World) :
  promises w !! p = Some Pending -> pstate_of p (settle p s w) = s.
Proof.
  intros Hp. unfold settle, pstate_of. rewrite Hp. simpl.
  rewrite list_lookup_insert_eq by (eapply lookup_lt_Some; exact Hp). reflexivity.
Qed.

Lemma this_settle (p : nat) (s : pstate) (w : World) : this (settle p s w) = this w.
Proof. unfold settle. destruct (promises w !! p) as [[]|]; reflexivity. Qed.

Lemma settle_not_pending (p : nat) (s : pstate) (w : World) :
  pstate_of p w <> Pending -> settle p s w = w.
Proof.
  unfold settle, pstate_of. destruct (promises w !! p) as [[]|]; simpl; congruence.
Qed.

(** ** Response normalization *)

Lemma truthy_prop_Some (k : string) (body v : json) :
  prop k body = Some v -> truthy v = true -> truthy_prop k body = Some v.
Proof.
  unfold truthy_prop. intros Hk Hv. destruct body; try discriminate.
  simpl in *. rewrite Hk, Hv. reflexivity.
Qed.

Lemma truthy_prop_None (k : string) (body : json) :
  truthy_opt (prop k body) = false -> truthy_prop k body = None.
Proof.
  unfold truthy_prop, truthy_opt. destruct (truthy body); [|reflexivity].
  destruct (prop k body) as [v|]; [|reflexivity]. intros ->. reflexivity.
Qed.

Lemma fetch_on_json_rejects (r : response) (p : nat) (w : World) (body : json) :
  JSON_parse (r_text r) = Some body ->
  promises w !! p = Some Pending ->
  error (this (fetch_on_json r p w)) = responseErrorMsg (r_status r) body
  /\ pstate_of p (fetch_on_json r p w) =
       Rejected (VError (ToString (responseErrorMsg (r_status r) body))
                        (Some (r_status r)) (Some body)).
Proof.
  intros Hparse Hp. unfold fetch_on_json, reject. rewrite Hparse. split.
  - rewrite this_settle. reflexivity.
  - apply pstate_of_settle. exact Hp.
Qed.

Lemma fetch_on_json_never_fulfils (r : response) (p : nat) (w : World) (v : value) :
  pstate_of p w = Pending -> pstate_of p (fetch_on_json r p w) <> Fulfilled v.
Proof.
  intros Hp. unfold fetch_on_json, reject.
  destruct (JSON_parse (r_text r)) as [body|]; [|congruence].
  unfold settle, pstate_of in *. simpl.
  destruct (promises w !! p) as [[]|] eqn:E; simpl in *; try congruence.
  - rewrite list_lookup_insert_eq by (eapply lookup_lt_Some; exact E). discriminate.
  - rewrite E. discriminate.
Qed.

(** C6 (amended). For a non-2xx, non-504 response whose body parses, the
    derived message is [body.error_description] when that is truthy, else
    [body.error] when that is truthy, else the status code, [" - "] and the
    serialized body; a non-empty ["X"] under [error_description] yields
    ["X"], a non-empty ["Y"] under [error] yields ["Y"], and [{}] with
    status 500 yields ["500 - {}"]; the handler stores the message in
    [error] and rejects with an error carrying the status, the parsed body
    and the message as a string. *)
Theorem C6_error_message (status0 : Z) (body : json) :
  (forall d, prop "error_description" body = Some d -> truthy d = true ->
     responseErrorMsg status0 body = d)
  /\ (forall e, truthy_opt (prop "error_description" body) = false ->
        prop "error" body = Some e -> truthy e = true ->
        responseErrorMsg status0 body = e)
  /\ (truthy_opt (prop "error_description" body) = false ->
      truthy_opt (prop "error" body) = false ->
      responseErrorMsg status0 body =
        JStr (pretty status0 +:+ " - " +:+ JSON_stringify body))
  /\ (forall X, X <> "" ->
        responseErrorMsg status0 (JObj [("error_description", JStr X)]) = JStr X)
  /\ (forall Y, Y <> "" -> responseErrorMsg status0 (JObj [("error", JStr Y)]) = JStr Y)
  /\ responseErrorMsg 500 (JObj []) = JStr ("500" +:+ " - {}")
  /\ (forall r skip401 p w,
        response_ok r = false -> r_status r <> 504 ->
        tasks (fetch_on_response (NetResponse r) skip401 p w) = tasks w ++ [KFetchJson r p])
  /\ (forall r p w,
        r_status r = status0 -> JSON_parse (r_text r) = Some body ->
        promises w !! p = Some Pending ->
        error (this (fetch_on_json r p w)) = responseErrorMsg status0 body
        /\ pstate_of p (fetch_on_json r p w) =
             Rejected (VError (ToString (responseErrorMsg status0 body))
                              (Some status0) (Some body))).
Proof.
  split_and!.
  - intros d Hd Ht. unfold responseErrorMsg.
    rewrite (truthy_prop_Some _ _ _ Hd Ht). reflexivity.
  - intros e Hnd He Ht. unfold responseErrorMsg.
    rewrite (truthy_prop_None _ _ Hnd), (truthy_prop_Some _ _ _ He Ht). reflexivity.
  - intros Hnd Hne. unfold responseErrorMsg.
    rewrite (truthy_prop_None _ _ Hnd), (truthy_prop_None _ _ Hne). reflexivity.
  - intros X HX. unfold responseErrorMsg, truthy_prop; simpl.
    destruct (String.eqb_spec X ""); [contradiction | reflexivity].
  - intros Y HY. unfold responseErrorMsg, truthy_prop; simpl.
    destruct (String.eqb_spec Y ""); [contradiction | reflexivity].
  - vm_compute. reflexivity.
  - intros r skip401 p w Hok H504. unfold fetch_on_response. rewrite Hok.
    destruct (Z.eqb_spec (r_status r) 504); [contradiction|].
    destruct (truthy skip401 && _); reflexivity.
  - intros r p w <- Hparse Hp. apply fetch_on_json_rejects; assumption.
Qed.

(** C3 (amended). For a [fetch] whose [options.skip401] is truthy and whose
    response has status 401, the handler sets the observable [status] to
    200 and settles nothing; the response is then handled like any other
    non-2xx one: once the body is parsed the call is rejected with the
    error carrying status 401, the body and the derived message, and in no
    case does the body handler fulfil the call. *)
Theorem C3_skip401 (options : obj) (r : response) (p : nat) (w : World) :
  truthy_opt (get "skip401" options) = true ->
  r_status r = 401 ->
  let skip401 := default (JBool false) (get "skip401" options) in
  let w1 := fetch_on_response (NetResponse r) skip401 p w in
  status (this w1) = 200
  /\ promises w1 = promises w
  /\ tasks w1 = tasks w ++ [KFetchJson r p]
  /\ (forall w2 body,
        JSON_parse (r_text r) = Some body -> promises w2 !! p = Some Pending ->
        pstate_of p (fetch_on_json r p w2) =
          Rejected (VError (ToString (responseErrorMsg 401 body)) (Some 401) (Some body)))
  /\ (forall w2 v, pstate_of p w2 = Pending ->
        pstate_of p (fetch_on_json r p w2) <> Fulfilled v).
Proof.
  intros Hskip H401 skip401 w1.
  assert (Ht : truthy skip401 = true).
  { unfold skip401. destruct (get "skip401" options); [exact Hskip | discriminate]. }
  subst w1. unfold fetch_on_response, response_ok. rewrite Ht, H401. simpl.
  split_and!; try reflexivity.
  - intros w2 body Hparse Hp.
    pose proof (proj2 (fetch_on_json_rejects r p w2 body Hparse Hp)) as H.
    rewrite H401 in H. exact H.
  - intros w2 v. apply fetch_on_json_never_fulfils.
Qed.

(** C7 (amended). On completion of an upload (ready state 4) whose promise
    is still pending, the observable [status] is the XHR status; with status
    200 [uploadError] is cleared and, when the response text parses as JSON,
    the call resolves with the parsed value; with any other status
    [uploadError] is the raw response text and, when the text parses as
    JSON, the call fails with the parsed body. *)
Theorem C7_upload_completion (x : xhr) (xstatus : Z) (text : string) (w : World) :
  promises w !! x_promise x = Some Pending ->
  let w' := xhr_onreadystatechange x 4 xstatus text w in
  status (this w') = xstatus
  /\ (xstatus = 200 ->
      uploadError (this w') = VJson (JStr "")
      /\ forall parsed, JSON_parse text = Some parsed ->
           pstate_of (x_promise x) w' = Fulfilled (VJson parsed))
  /\ (xstatus <> 200 ->
      uploadError (this w') = VJson (JStr text)
      /\ forall parsed, JSON_parse text = Some parsed ->
           pstate_of (x_promise x) w' = Rejected (VJson parsed)).
Proof.
  intros Hp w'. subst w'. unfold xhr_onreadystatechange. simpl.
  destruct (Z.eqb_spec xstatus 200) as [->|Hne]; simpl.
  - destruct (JSON_parse text) as [parsed|] eqn:Hparse.
    + unfold resolve. rewrite this_settle. simpl.
      split; [reflexivity|]. split; [|intros H; contradiction].
      intros _. split; [reflexivity|]. intros ? [= <-].
      apply pstate_of_settle. exact Hp.
    + simpl. split; [reflexivity|]. split; [|intros H; contradiction].
      intros _. split; [reflexivity|]. intros ? [=].
  - destruct (JSON_parse text) as [parsed|] eqn:Hparse.
    + unfold reject. rewrite this_settle. simpl.
      split; [reflexivity|]. split; [intros H; contradiction|].
      intros _. split; [reflexivity|]. intros ? [= <-].
      apply pstate_of_settle. exact Hp.
    + simpl. split; [reflexivity|]. split; [intros H; contradiction|].
      intros _. split; [reflexivity|]. intros ? [=].
Qed.

(** ** Objects *)

Lemma get_rest (k : string) (removed : list string) (o : obj) :
  get k (rest removed o) =
  if existsb (String.eqb k) removed then None else get k o.
Proof.
  unfold rest. induction o as [|[k' v] o IH]; simpl.
  - destruct (existsb _ removed); reflexivity.
  - destruct (String.eqb_spec k k') as [->|Hne].
    + destruct (existsb (String.eqb k') removed) eqn:E; simpl.
      * exact IH.
      * rewrite String.eqb_refl. reflexivity.
    + destruct (existsb (String.eqb k') removed); simpl.
      * exact IH.
      * destruct (String.eqb_spec k k'); [contradiction | exact IH].
Qed.

Lemma get_obj_set (k k' : string) (v : json) (o : obj) :
  get k (obj_set k' v o) = if String.eqb k k' then Some v else get k o.
Proof.
  induction o as [|[k1 v1] o IH]; simpl.
  - destruct (String.eqb k k'); reflexivity.
  - destruct (String.eqb_spec k' k1) as [->|Hne]; simpl.
    + destruct (String.eqb k k1); reflexivity.
    + destruct (String.eqb_spec k k1) as [->|Hne1].
      * destruct (String.eqb_spec k1 k'); [congruence | reflexivity].
      * exact IH.
Qed.

Lemma get_has_key (k : string) (o : obj) : has_key k o = false -> get k o = None.
Proof.
  unfold has_key. induction o as [|[k' v] o IH]; simpl; [reflexivity|].
  destruct (String.eqb k k'); simpl; [discriminate | exact IH].
Qed.

Lemma get_filter_new (k : string) (a b : obj) :
  has_key k a = false ->
  get k (List.filter (fun kv => negb (has_key (fst kv) a)) b) = get k b.
Proof.
  intros Hk. induction b as [|[k' v] b IH]; simpl; [reflexivity|].
  destruct (String.eqb_spec k k') as [<-|Hne].
  - rewrite Hk. simpl. rewrite String.eqb_refl. reflexivity.
  - destruct (has_key k' a); simpl; [exact IH|].
    destruct (String.eqb_spec k k'); [contradiction | exact IH].
Qed.

Lemma get_app (k : string) (a b : obj) :
  get k (a ++ b) = match get k a with Some v => Some v | None => get k b end.
Proof.
  induction a as [|[k' v] a IH]; simpl; [reflexivity|].
  destruct (String.eqb k k'); [reflexivity | exact IH].
Qed.

Lemma has_key_get (k : string) (o : obj) : has_key k o = negb (bool_decide (get k o = None)).
Proof.
  unfold has_key. induction o as [|[k' v] o IH]; simpl; [reflexivity|].
  destruct (String.eqb k k'); simpl; [reflexivity | exact IH].
Qed.

Lemma get_spread (k : string) (a b : obj) :
  get k (spread a b) =
  match get k b with
  | Some v => Some v
  | None => get k a
  end.
Proof.
  unfold spread. rewrite get_app.
  assert (Hmap : get k (map (fun kv => (fst kv, default (snd kv) (get (fst kv) b))) a) =
                 match get k a with
                 | Some va => Some (default va (get k b))
                 | None => None
                 end).
  { induction a as [|[k' v] a IH]; simpl; [reflexivity|].
    destruct (String.eqb_spec k k') as [->|Hne]; [reflexivity | exact IH]. }
  rewrite Hmap. destruct (get k a) as [va|] eqn:Ha.
  - destruct (get k b); reflexivity.
  - rewrite get_filter_new.
    + destruct (get k b); reflexivity.
    + rewrite has_key_get, Ha. reflexivity.
Qed.

Lemma get_buildOptions (k : string) (options : obj) :
  k <> "headers" -> get k standard = None ->
  get k (buildOptions options) = get k options.
Proof.
  intros Hk Hstd. unfold buildOptions.
  assert (Hset : forall h, get k (obj_set "headers" h options) = get k options).
  { intros h. rewrite get_obj_set.
    destruct (String.eqb_spec k "headers"); [contradiction | reflexivity]. }
  rewrite get_spread, Hstd.
  destruct (get "headers" options) as [h|]; [destruct (truthy h)|];
    rewrite ?Hset; destruct (get k options); reflexivity.
Qed.

Lemma get_In (k : string) (v : json) (o : obj) : get k o = Some v -> In (k, v) o.
Proof.
  induction o as [|[k' v'] o IH]; simpl; [discriminate|].
  destruct (String.eqb_spec k k') as [->|Hne].
  - intros [= ->]. left; reflexivity.
  - intros H. right. exact (IH H).
Qed.

Lemma In_form_data (k : string) (v : json) (data : obj) (file : string) :
  In (k, v) data -> In (k, FormText (JSON_stringify v)) (form_data data file).
Proof.
  intros H. unfold form_data. apply in_or_app. left.
  apply (in_map (fun kv => (fst kv, FormText (JSON_stringify (snd kv)))) data (k, v) H).
Qed.

(** ** The freshness gate *)

Lemma gate_spec (options : obj) (recordActivity : bool) :
  gate options recordActivity = true <->
  truthy_opt (get "skipRefresh" options) = false /\ recordActivity = true.
Proof.
  unfold gate. destruct (truthy_opt _), recordActivity; simpl; intuition congruence.
Qed.

Lemma fetch_gated (url : string) (options : obj) (recordActivity : bool) (w : World) :
  gate options recordActivity = true ->
  fetch url options recordActivity w =
  (length (promises w),
   suspend (KFetchGate (fst (refresh (snd (new_promise w))))
              (with_query url (get "query" options))
              (rest ["query"; "skip401"] options)
              (default (JBool false) (get "skip401" options))
              (length (promises w)))
           (snd (refresh (snd (new_promise w))))).
Proof.
  intros Hg. unfold fetch. cbn [new_promise snd]. rewrite Hg.
  destruct (refresh _). reflexivity.
Qed.

Lemma fetch_ungated (url : string) (options : obj) (recordActivity : bool) (w : World) :
  gate options recordActivity = false ->
  fetch url options recordActivity w =
  (length (promises w),
   fetch_send (with_query url (get "query" options))
              (rest ["query"; "skip401"] options)
              (default (JBool false) (get "skip401" options))
              (length (promises w))
              (snd (new_promise w))).
Proof. intros Hg. unfold fetch. cbn [new_promise snd]. rewrite Hg. reflexivity. Qed.

Lemma upload_gated (url file : string) (options : obj) (recordActivity : bool) (w : World) :
  gate options recordActivity = true ->
  upload url file options recordActivity w =
  (length (promises w),
   suspend (KUploadGate (fst (refresh (snd (new_promise w))))
              (default (JStr "POST") (get "method" options))
              (with_query url (get "query" options))
              (default (JObj []) (get "headers" options))
              (rest ["method"; "query"; "headers"] options)
              file (length (promises w)))
           (snd (refresh (snd (new_promise w))))).
Proof.
  intros Hg. unfold upload. cbn [new_promise snd]. rewrite Hg.
  destruct (refresh _). reflexivity.
Qed.

Lemma upload_ungated (url file : string) (options : obj) (recordActivity : bool) (w : World) :
  gate options recordActivity = false ->
  upload url file options recordActivity w =
  (length (promises w),
   upload_send (default (JStr "POST") (get "method" options))
               (with_query url (get "query" options))
               (default (JObj []) (get "headers" options))
               (rest ["method"; "query"; "headers"] options)
               file (length (promises w))
               (snd (new_promise w))).
Proof. intros Hg. unfold upload. cbn [new_promise snd]. rewrite Hg. reflexivity. Qed.

Lemma requests_settle (p : nat) (s : pstate) (w : World) :
  requests (settle p s w) = requests w.
Proof. unfold settle. destruct (promises w !! p) as [[]|]; reflexivity. Qed.

(** C5 (amended). [fetch] awaits the refresh coordinator before its own
    network call exactly when [options.skipRefresh] is falsy and
    [recordActivity] is true. In that case the synchronous part calls
    [refresh()] and suspends on its result without issuing the call; the
    call is not resumed while the refresh is pending, and a rejected refresh
    rejects the call with the refresh error and issues nothing. Otherwise
    (in particular whenever [skipRefresh] is truthy, whatever the clock
    reads) no refresh is triggered: the call is issued at once and the
    store and the persisted clock are untouched. *)
Theorem C5_freshness_gate (url : string) (options : obj) (recordActivity : bool)
    (w : World) :
  let p := length (promises w) in
  let w0 := snd (new_promise w) in
  let u := with_query url (get "query" options) in
  let ro := rest ["query"; "skip401"] options in
  let s := default (JBool false) (get "skip401" options) in
  (gate options recordActivity = true <->
     truthy_opt (get "skipRefresh" options) = false /\ recordActivity = true)
  /\ (gate options recordActivity = true ->
      fetch url options recordActivity w =
        (p, suspend (KFetchGate (fst (refresh w0)) u ro s p) (snd (refresh w0)))
      /\ requests (snd (fetch url options recordActivity w)) = requests (snd (refresh w0)))
  /\ (gate options recordActivity = false ->
      fetch url options recordActivity w = (p, fetch_send u ro s p w0)
      /\ requests (snd (fetch url options recordActivity w)) =
           requests w ++ [Request u (buildOptions ro)]
      /\ this (snd (fetch url options recordActivity w)) = this w
      /\ localStorage (snd (fetch url options recordActivity w)) = localStorage w)
  /\ (truthy_opt (get "skipRefresh" options) = true -> gate options recordActivity = false)
  /\ (forall a w2, outcome a w2 = Pending ->
        ready (KFetchGate a u ro s p) w2 = false
        /\ fetch_after_gate a u ro s p w2 = w2)
  /\ (forall a w2 e, outcome a w2 = Rejected e ->
        fetch_after_gate a u ro s p w2 = reject p e w2
        /\ requests (fetch_after_gate a u ro s p w2) = requests w2
        /\ (promises w2 !! p = Some Pending ->
            pstate_of p (fetch_after_gate a u ro s p w2) = Rejected e))
  /\ (forall a w2 v, outcome a w2 = Fulfilled v ->
        requests (fetch_after_gate a u ro s p w2) =
          requests w2 ++ [Request u (buildOptions ro)]).
Proof.
  intros p w0 u ro s. split_and!.
  - apply gate_spec.
  - intros Hg. rewrite (fetch_gated _ _ _ _ Hg). split; reflexivity.
  - intros Hg. rewrite (fetch_ungated _ _ _ _ Hg). split_and!; reflexivity.
  - intros Hs. unfold gate. rewrite Hs. reflexivity.
  - intros a w2 Ha. unfold fetch_after_gate. simpl. rewrite Ha. split; reflexivity.
  - intros a w2 e Ha. unfold fetch_after_gate. rewrite Ha. split_and!.
    + reflexivity.
    + apply requests_settle.
    + intros Hp. apply pstate_of_settle. exact Hp.
  - intros a w2 v Ha. unfold fetch_after_gate. rewrite Ha. reflexivity.
Qed.

(** C10. The control flags are not fully stripped. The options [fetch]
    hands to the transport hold neither [query] nor [skip401] but hold
    [skipRefresh] exactly as the caller gave it, on the direct path and
    after the gate alike. [upload] strips neither flag: a [skipRefresh] or
    [skip401] entry of its options is JSON-stringified into a form field of
    the request that is sent (whenever [headers] is not [null], on which
    [Object.entries] throws before anything is sent). *)
Theorem C10_control_flags (url : string) (options : obj) (w : World) :
  let p := length (promises w) in
  let w0 := snd (new_promise w) in
  let u := with_query url (get "query" options) in
  let ro := rest ["query"; "skip401"] options in
  let s := default (JBool false) (get "skip401" options) in
  let sent := Request u (buildOptions ro) in
  let method := default (JStr "POST") (get "method" options) in
  let headers := default (JObj []) (get "headers" options) in
  let data := rest ["method"; "query"; "headers"] options in
  (get "query" (req_options sent) = None
   /\ get "skip401" (req_options sent) = None
   /\ get "skipRefresh" (req_options sent) = get "skipRefresh" options)
  /\ (forall recordActivity, gate options recordActivity = false ->
        requests (snd (fetch url options recordActivity w)) = requests w ++ [sent])
  /\ (forall recordActivity, gate options recordActivity = true ->
        exists a w1,
          fetch url options recordActivity w = (p, suspend (KFetchGate a u ro s p) w1)
          /\ forall w2 v, outcome a w2 = Fulfilled v ->
               requests (fetch_after_gate a u ro s p w2) = requests w2 ++ [sent])
  /\ (forall flag v file,
        flag = "skipRefresh" \/ flag = "skip401" ->
        get flag options = Some v ->
        headers <> JNull ->
        let x := Xhr method u (own_entries headers) (form_data data file) p in
        In (flag, FormText (JSON_stringify v)) (x_form x)
        /\ (forall recordActivity, gate options recordActivity = false ->
              xhrs (snd (upload url file options recordActivity w)) = xhrs w ++ [x])
        /\ (forall recordActivity, gate options recordActivity = true ->
              exists a w1,
                upload url file options recordActivity w =
                  (p, suspend (KUploadGate a method u headers data file p) w1)
                /\ forall w2 v', outcome a w2 = Fulfilled v' ->
                     xhrs (upload_after_gate a method u headers data file p w2) =
                       xhrs w2 ++ [x])).
Proof.
  intros p w0 u ro s sent method headers data. split_and!.
  - unfold sent, ro; cbn [req_options].
    rewrite get_buildOptions, get_rest by (simpl; congruence). reflexivity.
  - unfold sent, ro; cbn [req_options].
    rewrite get_buildOptions, get_rest by (simpl; congruence). reflexivity.
  - unfold sent, ro; cbn [req_options].
    rewrite get_buildOptions, get_rest by (simpl; congruence). reflexivity.
  - intros ra Hg. rewrite (fetch_ungated _ _ _ _ Hg). reflexivity.
  - intros ra Hg. rewrite (fetch_gated _ _ _ _ Hg).
    eexists _, _. split; [reflexivity|].
    intros w2 v Ha. unfold fetch_after_gate. rewrite Ha. reflexivity.
  - intros flag v file Hflag Hget Hh x.
    assert (Hsend : forall w2, upload_send method u headers data file p w2 =
                               with_xhrs (fun xs => xs ++ [x]) w2).
    { intros w2. unfold upload_send, Object_entries.
      destruct headers; try reflexivity. contradiction. }
    split_and!.
    + unfold x; cbn [x_form]. apply In_form_data, get_In. unfold data.
      rewrite get_rest. destruct Hflag as [-> | ->]; simpl; exact Hget.
    + intros ra Hg. rewrite (upload_ungated _ _ _ _ _ Hg). cbn [snd].
      fold method u headers data p. rewrite Hsend. reflexivity.
    + intros ra Hg. rewrite (upload_gated _ _ _ _ _ Hg).
      eexists _, _. split; [reflexivity|].
      intros w2 v' Ha. unfold upload_after_gate. rewrite Ha.
      rewrite Hsend. reflexivity.
Qed.

(** ** A settled promise stays settled *)

Lemma stable_refl (w : World) : stable w w.
Proof. intros p _. reflexivity. Qed.

Lemma stable_trans (w1 w2 w3 : World) : stable w1 w2 -> stable w2 w3 -> stable w1 w3.
Proof.
  intros H12 H23 p Hp. rewrite <- (H12 p Hp). apply H23. rewrite (H12 p Hp). exact Hp.
Qed.

Lemma stable_eq (w w' : World) : promises w' = promises w -> stable w w'.
Proof. intros H p _. unfold pstate_of. rewrite H. reflexivity. Qed.

Lemma stable_settle (p : nat) (s : pstate) (w : World) : stable w (settle p s w).
Proof.
  intros q Hq. unfold settle.
  destruct (promises w !! p) as [[]|] eqn:E; try reflexivity.
  unfold pstate_of in *. simpl.
  destruct (decide (p = q)) as [->|Hne].
  - rewrite E in Hq. contradiction.
  - rewrite list_lookup_insert_ne by exact Hne. reflexivity.
Qed.

Lemma stable_alloc (l : list pstate) (w : World) :
  stable w (with_promises (fun ps => ps ++ l) w).
Proof.
  intros q Hq. unfold pstate_of in *. simpl.
  destruct (promises w !! q) as [s|] eqn:E; [|contradiction].
  rewrite (lookup_app_l_Some _ _ _ _ E). reflexivity.
Qed.

Ltac stable_step :=
  lazymatch goal with
  | |- stable ?w ?w => apply stable_refl
  | |- stable _ (settle _ _ _) => eapply stable_trans; [|apply stable_settle]
  | |- stable _ (resolve _ _ _) => unfold resolve
  | |- stable _ (reject _ _ _) => unfold reject
  | |- stable _ (with_promises (fun ps => ps ++ _) _) =>
      eapply stable_trans; [|apply stable_alloc]
  | |- stable ?w (?g ?w1) =>
      apply (stable_trans w w1 (g w1)); [|apply stable_eq; reflexivity]
  end.

Ltac stable_tac := repeat (repeat case_match; stable_step).

Lemma stable_refresh (w : World) : stable w (snd (refresh w)).
Proof.
  unfold refresh. destruct (refreshPromise (this w)); [apply stable_refl|].
  destruct (_ >? _)%Z; [apply stable_refl|].
  unfold new_promise, window_fetch, updateLastRefresh. cbn [snd]. stable_tac.
Qed.

Lemma stable_gate (k : awaited -> task) (w : World) :
  stable w (let '(a, w1) := refresh (snd (new_promise w)) in suspend (k a) w1).
Proof.
  pose proof (stable_refresh (snd (new_promise w))) as H.
  destruct (refresh _) as [a w1]. cbn [snd] in H.
  apply (stable_trans _ _ _ (stable_alloc [Pending] w)).
  apply (stable_trans _ _ _ H). stable_tac.
Qed.

Lemma stable_fetch (url : string) (options : obj) (ra : bool) (w : World) :
  stable w (snd (fetch url options ra w)).
Proof.
  destruct (gate options ra) eqn:Hg.
  - rewrite (fetch_gated _ _ _ _ Hg). cbn [snd].
    pose proof (stable_gate (fun a => KFetchGate a (with_query url (get "query" options))
      (rest ["query"; "skip401"] options) (default (JBool false) (get "skip401" options))
      (length (promises w))) w) as H.
    destruct (refresh _) as [a w1]. exact H.
  - rewrite (fetch_ungated _ _ _ _ Hg). cbn [snd].
    unfold fetch_send, window_fetch, new_promise. cbn [snd]. stable_tac.
Qed.

Lemma stable_upload (url file : string) (options : obj) (ra : bool) (w : World) :
  stable w (snd (upload url file options ra w)).
Proof.
  destruct (gate options ra) eqn:Hg.
  - rewrite (upload_gated _ _ _ _ _ Hg). cbn [snd].
    pose proof (stable_gate (fun a => KUploadGate a (default (JStr "POST") (get "method" options))
      (with_query url (get "query" options)) (default (JObj []) (get "headers" options))
      (rest ["method"; "query"; "headers"] options) file (length (promises w))) w) as H.
    destruct (refresh _) as [a w1]. exact H.
  - rewrite (upload_ungated _ _ _ _ _ Hg). cbn [snd].
    unfold upload_send, new_promise. cbn [snd]. stable_tac.
Qed.

Lemma stable_run_task (k : task) (w : World) : stable w (run_task k w).
Proof.
  destruct k; simpl;
    unfold refresh_on_json, refresh_finally, fetch_after_gate, fetch_send, window_fetch,
      fetch_resolve_json, fetch_on_text, fetch_on_json, upload_after_gate, upload_send;
    stable_tac.
Qed.

Lemma stable_step_event (e : event) (w : World) : stable w (step e w).
Proof.
  destruct e; simpl.
  - stable_tac.
  - stable_tac.
  - unfold sessionWatch. stable_tac.
  - apply stable_refresh.
  - apply stable_fetch.
  - apply stable_upload.
  - unfold clearTimeout, resetExpired. stable_tac.
  - unfold resetExpired. stable_tac.
  - unfold clearError. stable_tac.
  - unfold updateLastRefresh. stable_tac.
  - unfold clearLastRefresh. stable_tac.
  - unfold resume. repeat case_match; try apply stable_refl.
    eapply stable_trans; [|apply stable_run_task].
    unfold drop_task. stable_tac.
  - unfold deliver, refresh_on_fetch, fetch_on_response, drop_task. stable_tac.
  - unfold on_xhr, xhr_onreadystatechange. stable_tac.
  - unfold on_xhr, xhr_onprogress. stable_tac.
  - unfold on_xhr, xhr_onerror. stable_tac.
Qed.

Lemma run_snoc (es : list event) (e : event) (w : World) :
  run (es ++ [e]) w = step e (run es w).
Proof. unfold run. rewrite fold_left_app. reflexivity. Qed.

Lemma stable_run (es : list event) (w : World) : stable w (run es w).
Proof.
  induction es as [|e es IH] using rev_ind.
  - apply stable_refl.
  - rewrite run_snoc. eapply stable_trans; [exact IH | apply stable_step_event].
Qed.

(** C1. While a refresh is outstanding (the in-flight handle of the store
    is some promise [p]), whatever happened since ([es]), a [refresh()] call
    changes nothing, so that no second network call is issued, and returns
    that same promise [p], as the call made at [w] did. All these callers
    await one promise: in every later world they observe the same outcome,
    and once it has settled the success or failure they see never changes.
    The call that started the refresh (the only one to issue a network
    call) returned that very promise too. *)
Theorem C1_refresh_deduplicated (w : World) (p : nat) (es : list event) :
  refreshPromise (this w) = Some p ->
  refreshPromise (this (run es w)) = Some p ->
  let w' := run es w in
  refresh w' = (AwaitPromise p, w')
  /\ requests (snd (refresh w')) = requests w'
  /\ fst (refresh w') = fst (refresh w)
  /\ (forall wf, outcome (fst (refresh w')) wf = outcome (fst (refresh w)) wf)
  /\ (forall es', outcome (fst (refresh w')) w' <> Pending ->
        outcome (fst (refresh w')) (run es' w') = outcome (fst (refresh w')) w')
  /\ (forall w0 q, refreshPromise (this w0) = None ->
        fst (refresh w0) = AwaitPromise q ->
        refreshPromise (this (snd (refresh w0))) = Some q
        /\ length (requests (snd (refresh w0))) = S (length (requests w0))).
Proof.
  intros Hw Hw' w'. subst w'.
  rewrite (refresh_in_flight _ _ Hw), (refresh_in_flight _ _ Hw'). cbn [fst snd].
  split_and!; try reflexivity.
  - intros es' Hs. apply (stable_run es' (run es w) p Hs).
  - intros w0 q Hidle.
    destruct (Z.lt_ge_cases (Date_now w0 - getLastRefresh w0) ACCESS_TIMEOUT) as [Hf|Hs].
    + rewrite (refresh_fresh w0 Hidle Hf). discriminate.
    + rewrite (refresh_stale w0 Hidle ltac:(lia)). cbn [fst snd]. intros [= <-].
      split; [reflexivity|]. unfold refresh_started; simpl.
      rewrite length_app. simpl. lia.
Qed.

(** ** The refresh invariant *)

Lemma filter_delete_false {A : Type} (P : A -> bool) (l : list A) (i : nat) (k : A) :
  l !! i = Some k -> P k = false -> List.filter P (delete i l) = List.filter P l.
Proof.
  revert i. induction l as [|a l IH]; intros [|i] Hi Hk; simpl in *; try discriminate.
  - injection Hi as ->. rewrite Hk. reflexivity.
  - rewrite (IH i Hi Hk). reflexivity.
Qed.

Lemma filter_delete_true {A : Type} (P : A -> bool) (l : list A) (i : nat) (k : A) :
  l !! i = Some k -> P k = true ->
  exists l1 l2, List.filter P l = l1 ++ k :: l2 /\ List.filter P (delete i l) = l1 ++ l2.
Proof.
  revert i. induction l as [|a l IH]; intros [|i] Hi Hk; simpl in *; try discriminate.
  - injection Hi as ->. rewrite Hk. exists [], (List.filter P l). split; reflexivity.
  - destruct (IH i Hi Hk) as (l1 & l2 & H1 & H2). rewrite H1, H2.
    destruct (P a).
    + exists (a :: l1), l2. split; reflexivity.
    + exists l1, l2. split; reflexivity.
Qed.

Lemma refresh_tasks_suspend (k : task) (w : World) :
  refresh_tasks (suspend k w) =
  refresh_tasks w ++ (if is_refresh_task k then [k] else []).
Proof. unfold refresh_tasks, suspend; simpl. rewrite List.filter_app. reflexivity. Qed.

Lemma owns_lt (ph : phase) (ps : list pstate) (q : nat) :
  phase_pending ph ps -> owns ph q -> (q < length ps)%nat.
Proof.
  destruct ph; simpl; try contradiction.
  all: intros (_ & H0 & H1) [-> | ->];
    try destruct H0 as (s & H0 & _); eapply lookup_lt_Some; eassumption.
Qed.

Lemma free_fresh (ph : phase) (w : World) (l : list pstate) :
  Inv ph w -> l <> [] -> free ph (length (promises w ++ l)) (length (promises w)).
Proof.
  intros HI Hl. split.
  - rewrite length_app. destruct l; [contradiction | simpl; lia].
  - intros Ho. pose proof (owns_lt _ _ _ (inv_pending _ _ HI) Ho). lia.
Qed.

Lemma free_mono (ph : phase) (n m q : nat) : (n <= m)%nat -> free ph n q -> free ph m q.
Proof. intros Hle [Hq Ho]. split; [lia | exact Ho]. Qed.

Lemma Inv_frame (ph : phase) (w w' : World) :
  refreshPromise (this w') = refreshPromise (this w) ->
  tasks w' = tasks w -> promises w' = promises w -> xhrs w' = xhrs w ->
  Inv ph w -> Inv ph w'.
Proof.
  intros Hh Ht Hp Hx [I1 I2 I3 I4 I5]. unfold refresh_tasks in *.
  split; unfold refresh_tasks; rewrite ?Hh, ?Ht, ?Hp, ?Hx; assumption.
Qed.

Lemma phase_pending_insert (ph : phase) (ps : list pstate) (q : nat) (s : pstate) :
  ~ owns ph q -> phase_pending ph ps -> phase_pending ph (<[q := s]> ps).
Proof.
  destruct ph; simpl; try tauto.
  all: intros Ho (Hne & H0 & H1); split; [exact Hne|].
  all: rewrite !list_lookup_insert_ne by (intros ->; tauto); split; assumption.
Qed.

Lemma phase_pending_app (ph : phase) (ps l : list pstate) :
  phase_pending ph ps -> phase_pending ph (ps ++ l).
Proof.
  destruct ph; simpl; try tauto.
  all: intros (Hne & H0 & H1); split; [exact Hne|].
  all: try destruct H0 as (s & H0 & Hs).
  all: split; [| apply lookup_app_l_Some; exact H1].
  all: try (apply lookup_app_l_Some; exact H0).
  exists s. split; [apply lookup_app_l_Some; exact H0 | exact Hs].
Qed.

Lemma Inv_settle (ph : phase) (w : World) (q : nat) (s : pstate) :
  ~ owns ph q -> Inv ph w -> Inv ph (settle q s w).
Proof.
  intros Ho HI. unfold settle. destruct (promises w !! q) as [[]|]; try exact HI.
  destruct HI as [I1 I2 I3 I4 I5].
  split; unfold refresh_tasks in *; simpl; rewrite ?length_insert; try assumption.
  apply phase_pending_insert; assumption.
Qed.

Lemma Inv_alloc (ph : phase) (w : World) (l : list pstate) :
  Inv ph w -> Inv ph (with_promises (fun ps => ps ++ l) w).
Proof.
  intros [I1 I2 I3 I4 I5].
  split; unfold refresh_tasks in *; simpl; try assumption.
  - apply phase_pending_app. exact I3.
  - eapply Forall_impl; [exact I4|]. intros k Hk p Hp.
    eapply free_mono; [|exact (Hk p Hp)]. rewrite length_app. lia.
  - eapply Forall_impl; [exact I5|]. intros x Hx.
    eapply free_mono; [|exact Hx]. rewrite length_app. lia.
Qed.

Lemma Inv_suspend (ph : phase) (w : World) (k : task) (p : nat) :
  foreign_target k = Some p -> free ph (length (promises w)) p ->
  Inv ph w -> Inv ph (suspend k w).
Proof.
  intros Hk Hp [I1 I2 I3 I4 I5].
  split; try assumption.
  - rewrite refresh_tasks_suspend, I2.
    destruct k; try discriminate; simpl; apply app_nil_r.
  - simpl. apply Forall_app. split; [exact I4|].
    constructor; [|constructor]. intros p' Hp'. congruence.
Qed.

Lemma Inv_drop (ph : phase) (w : World) (i : nat) (k : task) :
  tasks w !! i = Some k -> is_refresh_task k = false ->
  Inv ph w -> Inv ph (drop_task i w).
Proof.
  intros Hi Hk [I1 I2 I3 I4 I5].
  split; try assumption.
  - unfold refresh_tasks, drop_task in *; simpl.
    rewrite (filter_delete_false _ _ _ _ Hi Hk). exact I2.
  - simpl. apply Forall_delete. exact I4.
Qed.

Lemma Inv_xhr_add (ph : phase) (w : World) (x : xhr) :
  free ph (length (promises w)) (x_promise x) ->
  Inv ph w -> Inv ph (with_xhrs (fun xs => xs ++ [x]) w).
Proof.
  intros Hx [I1 I2 I3 I4 I5]. split; try assumption.
  simpl. apply Forall_app. split; [exact I5 | constructor; [exact Hx | constructor]].
Qed.

Lemma Inv_task_free (ph : phase) (w : World) (i : nat) (k : task) (p : nat) :
  Inv ph w -> tasks w !! i = Some k -> foreign_target k = Some p ->
  free ph (length (promises w)) p.
Proof.
  intros HI Hi Hk.
  exact (proj1 (Forall_lookup _ _) (inv_foreign _ _ HI) i k Hi p Hk).
Qed.

Lemma Inv_xhr_free (ph : phase) (w : World) (i : nat) (x : xhr) :
  Inv ph w -> xhrs w !! i = Some x -> free ph (length (promises w)) (x_promise x).
Proof.
  intros HI Hi. exact (proj1 (Forall_lookup _ _) (inv_xhrs _ _ HI) i x Hi).
Qed.

Lemma keeps_refl (ph : phase) : keeps ph ph.
Proof. intros p0 p1 H. exact H. Qed.

Lemma Inv_refresh_started (w : World) :
  Inv Idle w ->
  Inv (Waiting (length (promises w)) (S (length (promises w)))) (refresh_started w).
Proof.
  intros [I1 I2 I3 I4 I5]. split.
  - reflexivity.
  - unfold refresh_tasks in *. simpl. rewrite List.filter_app, I2. reflexivity.
  - simpl. split; [lia|]. split.
    + rewrite lookup_app_r by lia. rewrite Nat.sub_diag. reflexivity.
    + rewrite lookup_app_r by lia.
      replace (S (length (promises w)) - length (promises w))%nat with 1%nat by lia.
      reflexivity.
  - simpl. rewrite length_app. apply Forall_app. split.
    + eapply Forall_impl; [exact I4|]. intros k Hk p Hp.
      destruct (Hk p Hp) as [Hlt _]. split; simpl; lia.
    + constructor; [intros p [=]|]. constructor; [intros p [=]|]. constructor.
  - simpl. rewrite length_app.
    eapply Forall_impl; [exact I5|]. intros x [Hlt _]. split; simpl; lia.
Qed.

Lemma Inv_refresh (ph : phase) (w : World) :
  Inv ph w ->
  exists ph',
    Inv ph' (snd (refresh w)) /\ keeps ph ph'
    /\ forall q, free ph (length (promises w)) q ->
                 free ph' (length (promises (snd (refresh w)))) q.
Proof.
  intros HI. unfold refresh.
  destruct (refreshPromise (this w)) as [p|] eqn:Hh.
  { exists ph. split_and!; [exact HI | apply keeps_refl | auto]. }
  destruct (Z.gtb_spec (getLastRefresh w + ACCESS_TIMEOUT) (Date_now w)) as [Hf|Hs].
  { exists ph. split_and!; [exact HI | apply keeps_refl | auto]. }
  assert (ph = Idle) as ->.
  { pose proof (inv_handle _ _ HI) as H. rewrite Hh in H. destruct ph; try discriminate.
    reflexivity. }
  pose proof (refresh_stale w Hh ltac:(lia)) as Hr. unfold refresh in Hr.
  rewrite Hh in Hr.
  destruct (Z.gtb_spec (getLastRefresh w + ACCESS_TIMEOUT) (Date_now w)); [lia|].
  rewrite Hr. cbn [snd].
  exists (Waiting (length (promises w)) (S (length (promises w)))). split_and!.
  - apply Inv_refresh_started. exact HI.
  - intros p0 p1 [=].
  - intros q [Hq _]. unfold refresh_started; simpl. rewrite length_app.
    split; simpl; lia.
Qed.

(** The freshness gate of [fetch] and [upload]: allocate the promise of the
    call, call [refresh], suspend on its result. *)
Lemma Inv_gate (ph : phase) (w : World) (k : awaited -> task) :
  (forall a, foreign_target (k a) = Some (length (promises w))) ->
  Inv ph w ->
  exists ph',
    Inv ph' (suspend (k (fst (refresh (snd (new_promise w)))))
                     (snd (refresh (snd (new_promise w)))))
    /\ keeps ph ph'.
Proof.
  intros Hk HI. cbn [new_promise snd].
  pose proof (Inv_alloc ph w [Pending] HI) as HI0.
  destruct (Inv_refresh _ _ HI0) as (ph' & HI1 & Hkeep & Hfree).
  exists ph'. split; [|exact Hkeep].
  eapply Inv_suspend; [apply Hk | | exact HI1].
  apply Hfree. cbn [with_promises promises]. apply free_fresh; [exact HI | discriminate].
Qed.

Lemma Inv_fetch_send (ph : phase) (w : World) (u : string) (ro : obj) (s : json) (p : nat) :
  free ph (length (promises w)) p -> Inv ph w -> Inv ph (fetch_send u ro s p w).
Proof.
  intros Hp HI. unfold fetch_send, window_fetch.
  eapply Inv_suspend; [reflexivity | exact Hp |].
  eapply Inv_frame; [.. | exact HI]; reflexivity.
Qed.

Lemma Inv_upload_send (ph : phase) (w : World) (m : json) (u : string) (h : json)
    (data : obj) (file : string) (p : nat) :
  free ph (length (promises w)) p -> Inv ph w -> Inv ph (upload_send m u h data file p w).
Proof.
  intros Hp HI. unfold upload_send. destruct (Object_entries h); [|exact HI].
  apply Inv_xhr_add; assumption.
Qed.

Lemma Inv_fetch (ph : phase) (w : World) (url : string) (options : obj) (ra : bool) :
  Inv ph w -> exists ph', Inv ph' (snd (fetch url options ra w)) /\ keeps ph ph'.
Proof.
  intros HI. destruct (gate options ra) eqn:Hg.
  - rewrite (fetch_gated _ _ _ _ Hg). cbn [snd].
    apply (Inv_gate ph w (fun a => KFetchGate a _ _ _ _)); [reflexivity | exact HI].
  - rewrite (fetch_ungated _ _ _ _ Hg). cbn [snd new_promise].
    exists ph. split; [|apply keeps_refl].
    apply Inv_fetch_send; [|apply Inv_alloc; exact HI].
    apply free_fresh; [exact HI | discriminate].
Qed.

Lemma Inv_upload (ph : phase) (w : World) (url file : string) (options : obj) (ra : bool) :
  Inv ph w -> exists ph', Inv ph' (snd (upload url file options ra w)) /\ keeps ph ph'.
Proof.
  intros HI. destruct (gate options ra) eqn:Hg.
  - rewrite (upload_gated _ _ _ _ _ Hg). cbn [snd].
    apply (Inv_gate ph w (fun a => KUploadGate a _ _ _ _ _ _)); [reflexivity | exact HI].
  - rewrite (upload_ungated _ _ _ _ _ Hg). cbn [snd new_promise].
    exists ph. split; [|apply keeps_refl].
    apply Inv_upload_send; [|apply Inv_alloc; exact HI].
    apply free_fresh; [exact HI | discriminate].
Qed.

Lemma Inv_build (ph ph' : phase) (w w' : World) :
  Inv ph w ->
  refreshPromise (this w') = phase_handle ph' ->
  refresh_tasks w' = phase_tasks ph' ->
  phase_pending ph' (promises w') ->
  length (promises w') = length (promises w) ->
  (forall q, owns ph' q -> owns ph q) ->
  Forall (fun k => forall p, foreign_target k = Some p ->
                             free ph (length (promises w)) p) (tasks w') ->
  xhrs w' = xhrs w ->
  Inv ph' w'.
Proof.
  intros HI Hh Ht Hp Hlen Ho Hf Hx. split; try assumption.
  - rewrite Hlen. eapply Forall_impl; [exact Hf|]. intros k Hk p Hkp.
    destruct (Hk p Hkp) as [Hlt Hno]. split; [exact Hlt | auto].
  - rewrite Hlen, Hx. eapply Forall_impl; [exact (inv_xhrs _ _ HI)|].
    intros x [Hlt Hno]. split; [exact Hlt | auto].
Qed.

(** A suspended [KRefreshFetch p0] pins the phase: the refresh is waiting
    for its response, and [.finally] is the only other refresh task. *)
Lemma Inv_waiting (ph : phase) (w : World) (i p0 : nat) :
  Inv ph w -> tasks w !! i = Some (KRefreshFetch p0) ->
  exists p1, ph = Waiting p0 p1
             /\ refresh_tasks (drop_task i w) = [KRefreshFinally p0 p1].
Proof.
  intros HI Hi.
  destruct (filter_delete_true is_refresh_task _ _ _ Hi eq_refl) as (l1 & l2 & H1 & H2).
  fold (refresh_tasks w) in H1. rewrite (inv_tasks _ _ HI) in H1.
  unfold refresh_tasks, drop_task; simpl. rewrite H2.
  destruct ph; destruct l1 as [|? [|? [|? ?]]]; simplify_eq/=.
  eexists. split; [reflexivity | congruence].
Qed.

Lemma Inv_reading (ph : phase) (w : World) (i p0 : nat) (r : response) :
  Inv ph w -> tasks w !! i = Some (KRefreshJson r p0) ->
  exists p1, ph = Reading r p0 p1
             /\ refresh_tasks (drop_task i w) = [KRefreshFinally p0 p1].
Proof.
  intros HI Hi.
  destruct (filter_delete_true is_refresh_task _ _ _ Hi eq_refl) as (l1 & l2 & H1 & H2).
  fold (refresh_tasks w) in H1. rewrite (inv_tasks _ _ HI) in H1.
  unfold refresh_tasks, drop_task; simpl. rewrite H2.
  destruct ph; destruct l1 as [|? [|? [|? ?]]]; simplify_eq/=.
  eexists. split; [reflexivity | congruence].
Qed.

Lemma Inv_finally (ph : phase) (w : World) (i p0 p1 : nat) :
  Inv ph w -> tasks w !! i = Some (KRefreshFinally p0 p1) ->
  pstate_of p0 w <> Pending ->
  ph = Done p0 p1 /\ refresh_tasks (drop_task i w) = [].
Proof.
  intros HI Hi Hset.
  destruct (filter_delete_true is_refresh_task _ _ _ Hi eq_refl) as (l1 & l2 & H1 & H2).
  fold (refresh_tasks w) in H1. rewrite (inv_tasks _ _ HI) in H1.
  unfold refresh_tasks, drop_task; simpl. rewrite H2.
  pose proof (inv_pending _ _ HI) as Hp. unfold pstate_of in Hset.
  destruct ph; destruct l1 as [|? [|? [|? ?]]]; simplify_eq/=;
    try (destruct Hp as (_ & Hp0 & _); rewrite Hp0 in Hset; contradiction).
  split; [reflexivity | congruence].
Qed.

Lemma Inv_deliver_error (ph : phase) (w : World) (i p0 : nat) :
  Inv ph w -> tasks w !! i = Some (KRefreshFetch p0) ->
  exists p1, ph = Waiting p0 p1 /\ Inv (Stuck p0 p1) (drop_task i w).
Proof.
  intros HI Hi. destruct (Inv_waiting _ _ _ _ HI Hi) as (p1 & -> & Ht).
  exists p1. split; [reflexivity|].
  eapply Inv_build; [exact HI | ..]; try reflexivity.
  - exact (inv_handle _ _ HI).
  - exact Ht.
  - exact (inv_pending _ _ HI).
  - auto.
  - simpl. apply Forall_delete. exact (inv_foreign _ _ HI).
Qed.

Lemma Inv_deliver (ph : phase) (w : World) (i : nat) (o : net_outcome) :
  Inv ph w -> exists ph', Inv ph' (deliver i o w) /\ keeps ph ph'.
Proof.
  intros HI. unfold deliver.
  destruct (tasks w !! i) as [k|] eqn:Hi; [|exists ph; split; [exact HI | apply keeps_refl]].
  destruct k; try (exists ph; split; [exact HI | apply keeps_refl]).
  - (* the refresh call completes *)
    destruct (Inv_waiting _ _ _ _ HI Hi) as (p1 & -> & Ht).
    pose proof (inv_pending _ _ HI) as (Hne & Hp0 & Hp1).
    unfold refresh_on_fetch. destruct o as [r|e].
    + destruct (r_status r =? 200)%Z.
      * exists (Done p0 p1). split; [|intros ? ? [=]].
        unfold resolve, settle. cbn [with_this drop_task with_tasks promises].
        rewrite Hp0.
        eapply Inv_build; [exact HI | ..]; try reflexivity.
        -- exact (inv_handle _ _ HI).
        -- exact Ht.
        -- simpl. split; [exact Hne|]. split.
           ++ exists (Fulfilled VUndefined).
              rewrite list_lookup_insert_eq by (eapply lookup_lt_Some; exact Hp0).
              split; [reflexivity | discriminate].
           ++ rewrite list_lookup_insert_ne by exact Hne. exact Hp1.
        -- simpl. apply length_insert.
        -- auto.
        -- simpl. apply Forall_delete. exact (inv_foreign _ _ HI).
      * exists (Reading r p0 p1). split; [|intros ? ? [=]].
        eapply Inv_build; [exact HI | ..]; try reflexivity.
        -- exact (inv_handle _ _ HI).
        -- rewrite refresh_tasks_suspend. simpl.
           change (refresh_tasks (with_this (set_expired true) (drop_task i w)))
             with (refresh_tasks (drop_task i w)).
           rewrite Ht. reflexivity.
        -- simpl. auto.
        -- auto.
        -- simpl. apply Forall_app. split.
           ++ apply Forall_delete. exact (inv_foreign _ _ HI).
           ++ constructor; [intros p [=] | constructor].
    + exists (Stuck p0 p1). split; [|intros ? ? [=]].
      destruct (Inv_deliver_error _ _ _ _ HI Hi) as (p1' & Heq & HS).
      injection Heq as <-. exact HS.
  - (* the call of a [fetch] completes *)
    exists ph. split; [|apply keeps_refl].
    pose proof (Inv_task_free _ _ _ _ _ HI Hi eq_refl) as Hfree.
    pose proof (Inv_drop _ _ _ _ Hi eq_refl HI) as HI1.
    unfold fetch_on_response. destruct o as [r|e]; [|exact HI1].
    assert (Hst : forall n, Inv ph (with_this (set_status n) (drop_task i w))).
    { intros n. eapply Inv_frame; [.. | exact HI1]; reflexivity. }
    assert (HI2 : Inv ph (if truthy skip401 && (r_status r =? 401)%Z
                          then with_this (set_status 200) (drop_task i w)
                          else with_this (set_status (r_status r)) (drop_task i w))).
    { destruct (truthy skip401 && _); apply Hst. }
    assert (Hlen : length (promises (if truthy skip401 && (r_status r =? 401)%Z
                          then with_this (set_status 200) (drop_task i w)
                          else with_this (set_status (r_status r)) (drop_task i w)))
                   = length (promises w)).
    { destruct (truthy skip401 && _); reflexivity. }
    destruct (response_ok r); [|destruct (r_status r =? 504)%Z].
    + eapply Inv_suspend; [reflexivity | cbn [with_this promises]; rewrite Hlen; exact Hfree |].
      eapply Inv_frame; [.. | exact HI2]; reflexivity.
    + eapply Inv_suspend; [reflexivity | rewrite Hlen; exact Hfree | exact HI2].
    + eapply Inv_suspend; [reflexivity | rewrite Hlen; exact Hfree | exact HI2].
Qed.

Lemma Inv_reject_free (ph : phase) (w : World) (p : nat) (s : pstate) :
  free ph (length (promises w)) p -> Inv ph w -> Inv ph (settle p s w).
Proof. intros [_ Ho]. apply Inv_settle. exact Ho. Qed.

Lemma Inv_resume (ph : phase) (w : World) (i : nat) :
  Inv ph w -> exists ph', Inv ph' (resume i w) /\ keeps ph ph'.
Proof.
  intros HI. unfold resume.
  destruct (tasks w !! i) as [k|] eqn:Hi; [|exists ph; split; [exact HI | apply keeps_refl]].
  destruct (ready k w) eqn:Hready; [|exists ph; split; [exact HI | apply keeps_refl]].
  destruct k; simpl in Hready; try discriminate; cbn [run_task].
  - (* the body of the failure response of the refresh has been read *)
    destruct (Inv_reading _ _ _ _ _ HI Hi) as (p1 & -> & Ht).
    pose proof (inv_pending _ _ HI) as (Hne & Hp0 & Hp1).
    unfold refresh_on_json. destruct (JSON_parse (r_text r)) as [body|].
    + exists (Done p0 p1). split; [|intros ? ? [=]].
      unfold reject, settle. cbn [with_this drop_task with_tasks promises].
      rewrite Hp0.
      eapply Inv_build; [exact HI | ..]; try reflexivity.
      * exact (inv_handle _ _ HI).
      * exact Ht.
      * simpl. split; [exact Hne|]. split.
        -- eexists.
           rewrite list_lookup_insert_eq by (eapply lookup_lt_Some; exact Hp0).
           split; [reflexivity | discriminate].
        -- rewrite list_lookup_insert_ne by exact Hne. exact Hp1.
      * simpl. apply length_insert.
      * auto.
      * simpl. apply Forall_delete. exact (inv_foreign _ _ HI).
    + exists (Stuck p0 p1). split; [|intros ? ? [=]].
      eapply Inv_build; [exact HI | ..]; try reflexivity.
      * exact (inv_handle _ _ HI).
      * exact Ht.
      * simpl. auto.
      * auto.
      * simpl. apply Forall_delete. exact (inv_foreign _ _ HI).
  - (* the [.finally] reaction *)
    assert (Hset : pstate_of p0 w <> Pending)
      by (intros E; rewrite E in Hready; discriminate).
    destruct (Inv_finally _ _ _ _ _ HI Hi Hset) as (-> & Ht).
    pose proof (inv_pending _ _ HI) as (Hne & Hp0 & Hp1).
    exists Idle. split; [|intros ? ? [=]].
    unfold refresh_finally, settle.
    cbn [with_this drop_task with_tasks promises]. rewrite Hp1.
    eapply Inv_build; [exact HI | ..]; try reflexivity.
    + exact Ht.
    + simpl. apply length_insert.
    + simpl. contradiction.
    + simpl. apply Forall_delete. exact (inv_foreign _ _ HI).
  - (* [fetch] passes the gate *)
    exists ph. split; [|apply keeps_refl].
    pose proof (Inv_task_free _ _ _ _ _ HI Hi eq_refl) as Hfree.
    pose proof (Inv_drop _ _ _ _ Hi eq_refl HI) as HI1.
    unfold fetch_after_gate.
    destruct (outcome a (drop_task i w)); [exact HI1 | |].
    + apply Inv_fetch_send; assumption.
    + apply Inv_reject_free; assumption.
  - exists ph. split; [|apply keeps_refl].
    pose proof (Inv_task_free _ _ _ _ _ HI Hi eq_refl) as Hfree.
    pose proof (Inv_drop _ _ _ _ Hi eq_refl HI) as HI1.
    unfold fetch_resolve_json, resolve, reject.
    destruct (JSON_parse (r_text r)); apply Inv_reject_free; assumption.
  - exists ph. split; [|apply keeps_refl].
    pose proof (Inv_task_free _ _ _ _ _ HI Hi eq_refl) as Hfree.
    pose proof (Inv_drop _ _ _ _ Hi eq_refl HI) as HI1.
    unfold fetch_on_text, reject. apply Inv_reject_free; assumption.
  - exists ph. split; [|apply keeps_refl].
    pose proof (Inv_task_free _ _ _ _ _ HI Hi eq_refl) as Hfree.
    pose proof (Inv_drop _ _ _ _ Hi eq_refl HI) as HI1.
    unfold fetch_on_json, reject.
    destruct (JSON_parse (r_text r)); [|exact HI1].
    apply Inv_reject_free; [exact Hfree|].
    eapply Inv_frame; [.. | exact HI1]; reflexivity.
  - (* [upload] passes the gate *)
    exists ph. split; [|apply keeps_refl].
    pose proof (Inv_task_free _ _ _ _ _ HI Hi eq_refl) as Hfree.
    pose proof (Inv_drop _ _ _ _ Hi eq_refl HI) as HI1.
    unfold upload_after_gate.
    destruct (outcome a (drop_task i w)); [exact HI1 | |].
    + apply Inv_upload_send; assumption.
    + apply Inv_reject_free; assumption.
Qed.

Lemma Inv_on_xhr (ph : phase) (w : World) (x : nat) (f : xhr -> World -> World) :
  (forall r w1, free ph (length (promises w1)) (x_promise r) -> Inv ph w1 -> Inv ph (f r w1)) ->
  Inv ph w -> Inv ph (on_xhr x f w).
Proof.
  intros Hf HI. unfold on_xhr. destruct (xhrs w !! x) as [r|] eqn:Hx; [|exact HI].
  apply Hf; [|exact HI]. exact (Inv_xhr_free _ _ _ _ HI Hx).
Qed.

Lemma Inv_step (ph : phase) (w : World) (e : event) :
  Inv ph w -> exists ph', Inv ph' (step e w) /\ keeps ph ph'.
Proof.
  intros HI.
  assert (Hsame : forall w', Inv ph w' -> exists ph', Inv ph' w' /\ keeps ph ph').
  { intros w' H. exists ph. split; [exact H | apply keeps_refl]. }
  assert (Hframe : forall w1 w', Inv ph w1 ->
            refreshPromise (this w') = refreshPromise (this w1) ->
            tasks w' = tasks w1 -> promises w' = promises w1 -> xhrs w' = xhrs w1 ->
            Inv ph w').
  { intros w1 w' H H1 H2 H3 H4. exact (Inv_frame ph w1 w' H1 H2 H3 H4 H). }
  destruct e; cbn [step].
  - apply Hsame. apply (Hframe w); [exact HI | reflexivity ..].
  - apply Hsame. destruct v; apply (Hframe w); first [exact HI | reflexivity].
  - apply Hsame. unfold sessionWatch.
    destruct (_ <? _)%Z; [|exact HI]. apply (Hframe w); [exact HI | reflexivity ..].
  - destruct (Inv_refresh _ _ HI) as (ph' & H1 & H2 & _). exists ph'. split; assumption.
  - apply Inv_fetch. exact HI.
  - apply Inv_upload. exact HI.
  - apply Hsame. apply (Hframe w); [exact HI | reflexivity ..].
  - apply Hsame. apply (Hframe w); [exact HI | reflexivity ..].
  - apply Hsame. apply (Hframe w); [exact HI | reflexivity ..].
  - apply Hsame. apply (Hframe w); [exact HI | reflexivity ..].
  - apply Hsame. apply (Hframe w); [exact HI | reflexivity ..].
  - apply Inv_resume. exact HI.
  - apply Inv_deliver. exact HI.
  - apply Hsame. apply Inv_on_xhr; [|exact HI].
    intros r w1 Hfree HI1. unfold xhr_onreadystatechange, resolve, reject.
    assert (H2 : Inv ph (with_this (set_status xstatus) w1))
      by (apply (Hframe w1); [exact HI1 | reflexivity ..]).
    assert (H3 : forall v, Inv ph (with_this (set_uploadError v)
                                     (with_this (set_status xstatus) w1)))
      by (intros v; apply (Hframe w1); [exact HI1 | reflexivity ..]).
    destruct ((readyState =? 4)%Z && (xstatus =? 200)%Z).
    + destruct (JSON_parse responseText); [|apply H3].
      apply Inv_reject_free; [exact Hfree | apply H3].
    + destruct ((readyState =? 4)%Z && negb (xstatus =? 200)%Z); [|exact H2].
      destruct (JSON_parse responseText); [|apply H3].
      apply Inv_reject_free; [exact Hfree | apply H3].
  - apply Hsame. apply Inv_on_xhr; [|exact HI].
    intros r w1 Hfree HI1. unfold xhr_onprogress.
    apply (Hframe w1); [exact HI1 | reflexivity ..].
  - apply Hsame. apply Inv_on_xhr; [|exact HI].
    intros r w1 Hfree HI1. unfold xhr_onerror, reject.
    apply Inv_reject_free; [exact Hfree|].
    apply (Hframe w1); [exact HI1 | reflexivity ..].
Qed.

Lemma Inv_constructor (ls : gmap string Z) (now : Z) : Inv Idle (constructor ls now).
Proof. split; simpl; try reflexivity; try exact I; constructor. Qed.

(** Every world the store can reach is in some phase of the invariant. *)
Lemma Inv_run (es : list event) (ph : phase) (w : World) :
  Inv ph w -> exists ph', Inv ph' (run es w) /\ keeps ph ph'.
Proof.
  intros HI. induction es as [|e es IH] using rev_ind.
  - exists ph. split; [exact HI | apply keeps_refl].
  - destruct IH as (ph1 & H1 & K1). rewrite run_snoc.
    destruct (Inv_step ph1 _ e H1) as (ph2 & H2 & K2).
    exists ph2. split; [exact H2|].
    intros p0 p1 E. apply K2, K1, E.
Qed.

Lemma Inv_stuck_run (es : list event) (p0 p1 : nat) (w : World) :
  Inv (Stuck p0 p1) w -> Inv (Stuck p0 p1) (run es w).
Proof.
  intros HI. destruct (Inv_run es _ _ HI) as (ph' & H & K).
  rewrite (K p0 p1 eq_refl) in H. exact H.
Qed.

(** C8. Whenever the store, in any world it can reach, has a refresh call
    in the air (the executor of [refresh] is suspended on [window.fetch])
    and the transport fails (the awaited call rejects), then in every later
    world the in-flight handle is still the promise [p1] that [refresh()]
    returned and [p1] is still pending: it never settles and the handle is
    never cleared. Every later [refresh()] returns that same promise and
    does nothing else; every [fetch] and [upload] that passes through the
    freshness gate suspends on it, and such a continuation is never ready
    to resume. *)
Theorem C8_refresh_transport_failure (ls : gmap string Z) (now : Z)
    (es1 : list event) (i p0 : nat) (e : value) :
  let w := run es1 (constructor ls now) in
  tasks w !! i = Some (KRefreshFetch p0) ->
  exists p1,
    refreshPromise (this w) = Some p1
    /\ forall es2,
         let w' := run es2 (deliver i (NetError e) w) in
         refreshPromise (this w') = Some p1
         /\ pstate_of p1 w' = Pending
         /\ pstate_of p0 w' = Pending
         /\ refresh w' = (AwaitPromise p1, w')
         /\ (forall url options recordActivity,
               gate options recordActivity = true ->
               fetch url options recordActivity w' =
                 (length (promises w'),
                  suspend (KFetchGate (AwaitPromise p1)
                             (with_query url (get "query" options))
                             (rest ["query"; "skip401"] options)
                             (default (JBool false) (get "skip401" options))
                             (length (promises w')))
                          (snd (new_promise w'))))
         /\ (forall url file options recordActivity,
               gate options recordActivity = true ->
               upload url file options recordActivity w' =
                 (length (promises w'),
                  suspend (KUploadGate (AwaitPromise p1)
                             (default (JStr "POST") (get "method" options))
                             (with_query url (get "query" options))
                             (default (JObj []) (get "headers" options))
                             (rest ["method"; "query"; "headers"] options)
                             file (length (promises w')))
                          (snd (new_promise w'))))
         /\ (forall u ro s p, ready (KFetchGate (AwaitPromise p1) u ro s p) w' = false)
         /\ (forall m u h d f p,
               ready (KUploadGate (AwaitPromise p1) m u h d f p) w' = false).
Proof.
  intros w Hi.
  destruct (Inv_run es1 Idle _ (Inv_constructor ls now)) as (ph & HI & _).
  fold w in HI.
  destruct (Inv_deliver_error _ _ _ _ HI Hi) as (p1 & -> & HS).
  exists p1. split; [exact (inv_handle _ _ HI)|].
  intros es2 w'.
  assert (Hd : deliver i (NetError e) w = drop_task i w).
  { unfold deliver. rewrite Hi. reflexivity. }
  pose proof (Inv_stuck_run es2 _ _ _ HS) as HS'.
  rewrite <- Hd in HS'. fold w' in HS'.
  pose proof (inv_handle _ _ HS') as Hh. simpl in Hh.
  pose proof (inv_pending _ _ HS') as (_ & Hp0 & Hp1).
  assert (Hpend1 : pstate_of p1 w' = Pending) by (unfold pstate_of; rewrite Hp1; reflexivity).
  assert (Hpend0 : pstate_of p0 w' = Pending) by (unfold pstate_of; rewrite Hp0; reflexivity).
  assert (Hr : refresh (snd (new_promise w')) = (AwaitPromise p1, snd (new_promise w')))
    by (apply refresh_in_flight; exact Hh).
  split_and!.
  - exact Hh.
  - exact Hpend1.
  - exact Hpend0.
  - apply refresh_in_flight. exact Hh.
  - intros url options ra Hg. rewrite (fetch_gated _ _ _ _ Hg), Hr. reflexivity.
  - intros url file options ra Hg. rewrite (upload_gated _ _ _ _ _ Hg), Hr. reflexivity.
  - intros u ro s p. simpl. rewrite Hpend1. reflexivity.
  - intros m u h d f p. simpl. rewrite Hpend1. reflexivity.
Qed.

(** * Further properties of the store *)

(** ** [buildOptions] *)

(** A key of the standard options is a key of every built object. *)
Lemma buildOptions_has_standard (k : string) (options : obj) :
  get k standard <> None -> get k (buildOptions options) <> None.
Proof.
  intros Hk. unfold buildOptions. rewrite get_spread.
  match goal with |- match ?g with _ => _ end <> None => destruct g end;
    [discriminate | exact Hk].
Qed.

(** X1. Every option except [headers] goes to the transport as the caller
    gave it, and an option the caller left out takes the store's default
    ([credentials: 'include'], [mode: 'same-origin']). *)
Theorem buildOptions_merges_defaults (k : string) (options : obj) :
  k <> "headers" ->
  get k (buildOptions options) =
  match get k options with
  | Some v => Some v
  | None => get k standard
  end.
Proof.
  intros Hk. unfold buildOptions.
  assert (Hset : forall h, get k (obj_set "headers" h options) = get k options).
  { intros h. rewrite get_obj_set.
    destruct (String.eqb_spec k "headers"); [contradiction | reflexivity]. }
  rewrite get_spread.
  destruct (get "headers" options) as [h|]; [destruct (truthy h)|];
    rewrite ?Hset; reflexivity.
Qed.

(** X2. The headers sent: the standard ones when the caller gives none;
    when the caller gives truthy headers, the standard ones overridden key
    by key by the caller's; and when the caller gives a falsy [headers]
    (such as [null]) that value itself, without any standard header. *)
Theorem buildOptions_headers_merge (options : obj) :
  match get "headers" options with
  | None => get "headers" (buildOptions options) = Some (JObj standard_headers)
  | Some h =>
      if truthy h then
        get "headers" (buildOptions options) =
          Some (JObj (spread standard_headers (own_entries h)))
        /\ forall k, get k (spread standard_headers (own_entries h)) =
                     match get k (own_entries h) with
                     | Some v => Some v
                     | None => get k standard_headers
                     end
      else get "headers" (buildOptions options) = Some h
  end.
Proof.
  unfold buildOptions. destruct (get "headers" options) as [h|] eqn:Hh.
  - destruct (truthy h) eqn:Ht.
    + split; [|intros k; apply get_spread].
      rewrite get_spread, get_obj_set. reflexivity.
    + rewrite get_spread, Hh. reflexivity.
  - rewrite get_spread, Hh. reflexivity.
Qed.

(** ** The persisted clock *)

(** X3. Writing and reading the persisted clock round-trip: after
    [updateLastRefresh] the clock reads [Date.now()], after
    [clearLastRefresh] it reads 0, each undoes the other, and no other key
    of the storage is touched. *)
Theorem lastRefresh_round_trip (w : World) :
  getLastRefresh (updateLastRefresh w) = Date_now w
  /\ getLastRefresh (clearLastRefresh (updateLastRefresh w)) = 0
  /\ getLastRefresh (updateLastRefresh (clearLastRefresh w)) = Date_now w
  /\ updateLastRefresh (updateLastRefresh w) = updateLastRefresh w
  /\ (forall k, k <> lastRefreshed_key ->
        localStorage (updateLastRefresh w) !! k = localStorage w !! k
        /\ localStorage (clearLastRefresh w) !! k = localStorage w !! k).
Proof.
  split_and!.
  - apply getLastRefresh_update.
  - apply getLastRefresh_clear.
  - exact (getLastRefresh_update (clearLastRefresh w)).
  - unfold updateLastRefresh, with_localStorage, Date_now; simpl.
    rewrite insert_insert_eq. reflexivity.
  - intros k Hk. unfold updateLastRefresh, clearLastRefresh; simpl. split.
    + apply lookup_insert_ne. congruence.
    + apply lookup_delete_ne. congruence.
Qed.

(** X4. Cross-tab synchronisation: once another tab has written a refresh
    time [t] to the shared storage, then at any clock reading [now] with
    [now - t < ACCESS_TIMEOUT] an idle [refresh()] of this tab returns at
    once without a network call, and the session watcher leaves the store
    as it is. *)
Theorem other_tab_refresh_is_seen (w : World) (t now : Z) :
  refreshPromise (this w) = None ->
  now - t < ACCESS_TIMEOUT ->
  let w1 := step (EClock now) (step (EStorage lastRefreshed_key (Some t)) w) in
  getLastRefresh w1 = t
  /\ refresh w1 = (AwaitValue VUndefined, w1)
  /\ sessionWatch w1 = w1.
Proof.
  intros Hidle Hage w1.
  assert (Hget : getLastRefresh w1 = t).
  { unfold w1, getLastRefresh; simpl. rewrite lookup_insert_eq. reflexivity. }
  split; [exact Hget|]. split.
  - apply refresh_fresh; [exact Hidle|]. rewrite Hget. exact Hage.
  - destruct (sessionWatch_cases w1) as [[Hc _]|[_ ->]]; [|reflexivity].
    rewrite Hget in Hc. change (Date_now w1) with now in Hc.
    unfold ACCESS_TIMEOUT, REFRESH_TIMEOUT in *. lia.
Qed.

(** X5. What the success handler of [AuthStore.login] does to the store
    ([updateLastRefresh(); resetExpired()]): the expiry flag is down, the
    clock reads the time of the login, and for every later reading within
    the access window an idle [refresh()] does nothing. *)
Theorem login_stamps_the_clock (w : World) (now : Z) :
  refreshPromise (this w) = None ->
  now - Date_now w < ACCESS_TIMEOUT ->
  let w1 := resetExpired (updateLastRefresh w) in
  expired (this w1) = false
  /\ getLastRefresh w1 = Date_now w
  /\ refresh (with_clock now w1) = (AwaitValue VUndefined, with_clock now w1)
  /\ expired (this (sessionWatch (with_clock now w1))) = false.
Proof.
  intros Hidle Hage w1.
  assert (Hget : getLastRefresh (with_clock now w1) = Date_now w).
  { unfold w1, getLastRefresh; simpl. rewrite lookup_insert_eq. reflexivity. }
  split_and!.
  - reflexivity.
  - exact Hget.
  - apply refresh_fresh; [exact Hidle|]. rewrite Hget. exact Hage.
  - destruct (sessionWatch_cases (with_clock now w1)) as [[Hc _]|[_ ->]]; [|reflexivity].
    rewrite Hget in Hc. change (Date_now (with_clock now w1)) with now in Hc.
    unfold ACCESS_TIMEOUT, REFRESH_TIMEOUT in *. lia.
Qed.

(** X6. What the handlers of [AuthStore.logout] do to the store
    ([clearTimeout(); clearLastRefresh()]): the expiry flag is lowered and
    the clock removed; the next tick of the session watcher, at any reading
    past the ceiling, raises the flag again. *)
Theorem logout_then_tick_expires (w : World) (now : Z) :
  REFRESH_TIMEOUT < now ->
  let w1 := clearLastRefresh (clearTimeout w) in
  expired (this w1) = false
  /\ localStorage w1 !! lastRefreshed_key = None
  /\ getLastRefresh w1 = 0
  /\ expired (this (sessionWatch (with_clock now w1))) = true.
Proof.
  intros Hnow w1.
  assert (Habs : localStorage w1 !! lastRefreshed_key = None).
  { unfold w1, clearLastRefresh; simpl. apply lookup_delete_eq. }
  split_and!.
  - reflexivity.
  - exact Habs.
  - apply getLastRefresh_absent. exact Habs.
  - destruct (sessionWatch_cases (with_clock now w1)) as [[_ ->]|[Hc _]]; [reflexivity|].
    rewrite (getLastRefresh_absent (with_clock now w1) Habs) in Hc.
    change (Date_now (with_clock now w1)) with now in Hc. lia.
Qed.

(** ** Response normalization *)

(** X7. A 2xx response: the observable status is the response status
    (whatever [skip401] is), the observable error is cleared, and the call
    settles as the body does: fulfilled with the parsed JSON, or rejected
    with the parser's error when the body is not JSON. *)
Theorem fetch_success (r : response) (skip401 : json) (p : nat) (w : World) :
  response_ok r = true ->
  let w1 := fetch_on_response (NetResponse r) skip401 p w in
  status (this w1) = r_status r
  /\ error (this w1) = JStr ""
  /\ promises w1 = promises w
  /\ tasks w1 = tasks w ++ [KFetchResolveJson r p]
  /\ (forall w2, promises w2 !! p = Some Pending ->
        this (fetch_resolve_json r p w2) = this w2
        /\ pstate_of p (fetch_resolve_json r p w2) =
             match JSON_parse (r_text r) with
             | Some body => Fulfilled (VJson body)
             | None => Rejected VSyntaxError
             end).
Proof.
  intros Hok w1. subst w1. unfold fetch_on_response. rewrite Hok.
  assert (H401 : (r_status r =? 401)%Z = false).
  { unfold response_ok in Hok. apply andb_true_iff in Hok as [_ Hle].
    apply Z.leb_le in Hle. apply Z.eqb_neq. lia. }
  rewrite H401, andb_false_r. simpl.
  split_and!; try reflexivity.
  intros w2 Hp. unfold fetch_resolve_json, resolve, reject.
  destruct (JSON_parse (r_text r)); (split; [apply this_settle | apply pstate_of_settle; exact Hp]).
Qed.

(** X8. A 504 response is never parsed as JSON: the call is rejected with
    an error whose message is the raw response text and whose body is
    [{error: text}], with no status attached; the observable status is 504
    (whatever [skip401] is) and the observable error is left as it was. *)
Theorem fetch_gateway_timeout (r : response) (skip401 : json) (p : nat) (w : World) :
  r_status r = 504 ->
  let w1 := fetch_on_response (NetResponse r) skip401 p w in
  status (this w1) = 504
  /\ error (this w1) = error (this w)
  /\ tasks w1 = tasks w ++ [KFetchText r p]
  /\ (forall w2, promises w2 !! p = Some Pending ->
        this (fetch_on_text r p w2) = this w2
        /\ pstate_of p (fetch_on_text r p w2) =
             Rejected (VError (r_text r) None (Some (JObj [("error", JStr (r_text r))])))).
Proof.
  intros H504 w1. subst w1. unfold fetch_on_response, response_ok. rewrite H504.
  simpl. rewrite andb_false_r.
  split_and!; try reflexivity.
  intros w2 Hp. unfold fetch_on_text, reject.
  split; [apply this_settle | apply pstate_of_settle; exact Hp].
Qed.


(** ** Upload client *)

Lemma refresh_frame (w : World) :
  xhrs (snd (refresh w)) = xhrs w
  /\ exists l, promises (snd (refresh w)) = promises w ++ l /\ Forall (eq Pending) l.
Proof.
  unfold refresh. destruct (refreshPromise (this w)).
  { split; [reflexivity|]. exists []. rewrite app_nil_r. split; [reflexivity | constructor]. }
  destruct (_ >? _)%Z.
  { split; [reflexivity|]. exists []. rewrite app_nil_r. split; [reflexivity | constructor]. }
  split; [reflexivity|]. exists [Pending; Pending]. simpl.
  rewrite <- app_assoc. split; [reflexivity | repeat constructor].
Qed.


(** X11. The form fields of an upload are exactly: every option other than
    [method], [query] and [headers], under its own name and
    JSON-stringified, followed by the file, which comes last. *)
Theorem upload_form_fields (options : obj) (file : string) (k s : string) :
  let data := rest ["method"; "query"; "headers"] options in
  (In (k, FormText s) (form_data data file) <->
     exists j, In (k, j) options
               /\ k <> "method" /\ k <> "query" /\ k <> "headers"
               /\ s = JSON_stringify j)
  /\ last (form_data data file) = Some ("file", FormFile file)
  /\ length (form_data data file) = S (length data).
Proof.
  intros data. unfold form_data. split_and!.
  - rewrite in_app_iff, in_map_iff. split.
    + intros [((k', j) & Heq & Hin) | [Heq | []]]; [|discriminate].
      simpl in Heq. injection Heq as Hk Hs. subst k' s.
      unfold data, rest in Hin. apply filter_In in Hin as [Hin Hkeep].
      exists j. split; [exact Hin|]. simpl in Hkeep.
      destruct (String.eqb_spec k "method"); [discriminate|].
      destruct (String.eqb_spec k "query"); [discriminate|].
      destruct (String.eqb_spec k "headers"); [discriminate|].
      auto.
    + intros (j & Hin & H1 & H2 & H3 & ->). left. exists (k, j). split; [reflexivity|].
      unfold data, rest. apply filter_In. split; [exact Hin|]. simpl.
      destruct (String.eqb_spec k "method"); [contradiction|].
      destruct (String.eqb_spec k "query"); [contradiction|].
      destruct (String.eqb_spec k "headers"); [contradiction|].
      reflexivity.
  - apply last_snoc.
  - rewrite length_app, length_map. simpl. lia.
Qed.

(** ** Calls and the promise heap *)

(** X12. A call of [fetch] or [upload] returns a new promise, pending when
    the call returns; the call leaves every promise that existed as it was,
    and whatever else it allocates is pending too: nothing settles
    synchronously. *)
Theorem calls_settle_nothing (url file : string) (options : obj) (recordActivity : bool)
    (w : World) :
  (fst (fetch url options recordActivity w) = length (promises w)
   /\ exists l, promises (snd (fetch url options recordActivity w)) =
                  promises w ++ Pending :: l
                /\ Forall (eq Pending) l)
  /\ (fst (upload url file options recordActivity w) = length (promises w)
      /\ exists l, promises (snd (upload url file options recordActivity w)) =
                     promises w ++ Pending :: l
                   /\ Forall (eq Pending) l).
Proof.
  destruct (refresh_frame (snd (new_promise w))) as (_ & l & Hl & Hall).
  cbn [new_promise snd with_promises promises] in Hl. rewrite <- app_assoc in Hl.
  split.
  - destruct (gate options recordActivity) eqn:Hg.
    + rewrite (fetch_gated _ _ _ _ Hg). split; [reflexivity|].
      exists l. split; [exact Hl | exact Hall].
    + rewrite (fetch_ungated _ _ _ _ Hg). split; [reflexivity|].
      exists []. split; [reflexivity | constructor].
  - destruct (gate options recordActivity) eqn:Hg.
    + rewrite (upload_gated _ _ _ _ _ Hg). split; [reflexivity|].
      exists l. split; [exact Hl | exact Hall].
    + rewrite (upload_ungated _ _ _ _ _ Hg). split; [reflexivity|].
      exists []. split; [|constructor]. cbn [snd new_promise]. unfold upload_send.
      destruct (Object_entries _); reflexivity.
Qed.

(** ** One refresh for many calls *)




(** ** The refresh coordinator in every reachable world *)

Lemma reachable_Inv (ls : gmap string Z) (now : Z) (es : list event) :
  exists ph, Inv ph (run es (constructor ls now)).
Proof.
  destruct (Inv_run es Idle _ (Inv_constructor ls now)) as (ph & H & _).
  exists ph. exact H.
Qed.

Lemma filter_two_indices {A : Type} (P : A -> bool) (l : list A) (i j : nat) (x y : A) :
  (i < j)%nat -> l !! i = Some x -> l !! j = Some y -> P x = true -> P y = true ->
  exists l1 l2 l3, List.filter P l = l1 ++ x :: l2 ++ y :: l3.
Proof.
  revert i j. induction l as [|a l IH]; intros i j Hij Hi Hj Hx Hy.
  - rewrite lookup_nil in Hi. discriminate.
  - destruct i as [|i].
    + simpl in Hi. injection Hi as ->. destruct j as [|j]; [lia|]. simpl in Hj.
      simpl. rewrite Hx.
      assert (Hin : y ∈ List.filter P l).
      { apply list_elem_of_In, filter_In. split; [|exact Hy].
        apply list_elem_of_In, list_elem_of_lookup. exists j. exact Hj. }
      apply list_elem_of_split in Hin as (l2 & l3 & E).
      exists [], l2, l3. rewrite E. reflexivity.
    + destruct j as [|j]; [lia|]. simpl in Hi, Hj.
      destruct (IH i j ltac:(lia) Hi Hj Hx Hy) as (l1 & l2 & l3 & E).
      simpl. rewrite E. destruct (P a).
      * exists (a :: l1), l2, l3. reflexivity.
      * exists l1, l2, l3. reflexivity.
Qed.

Lemma refresh_fetch_unique_lt (ph : phase) (w : World) (i j p q : nat) :
  Inv ph w -> (i < j)%nat ->
  tasks w !! i = Some (KRefreshFetch p) -> tasks w !! j = Some (KRefreshFetch q) -> False.
Proof.
  intros HI Hij Hi Hj.
  destruct (filter_two_indices is_refresh_task _ _ _ _ _ Hij Hi Hj eq_refl eq_refl)
    as (l1 & l2 & l3 & E).
  fold (refresh_tasks w) in E. rewrite (inv_tasks _ _ HI) in E.
  destruct ph; destruct l1 as [|? [|? ?]]; simplify_eq/=;
    repeat match goal with
           | H : _ = ?l ++ _ :: _ |- _ => destruct l; simplify_eq/=
           end.
Qed.

Lemma refresh_task_index (w : World) (k : task) :
  k ∈ refresh_tasks w -> exists j, tasks w !! j = Some k.
Proof.
  intros Hin. apply list_elem_of_In, filter_In in Hin as [Hin _].
  apply list_elem_of_lookup, list_elem_of_In. exact Hin.
Qed.

(** X14. In every world the store can reach: the in-flight handle, when
    set, is a pending promise ([refresh()] never hands out a settled one);
    when it is not set no continuation of a refresh is left; and at most one
    continuation is waiting on the refresh endpoint at a time. *)
Theorem refresh_state_invariant (ls : gmap string Z) (now : Z) (es : list event) :
  let w := run es (constructor ls now) in
  (forall p, refreshPromise (this w) = Some p -> pstate_of p w = Pending)
  /\ (refreshPromise (this w) = None -> refresh_tasks w = [])
  /\ (forall i j p q,
        tasks w !! i = Some (KRefreshFetch p) -> tasks w !! j = Some (KRefreshFetch q) ->
        i = j).
Proof.
  intros w. destruct (reachable_Inv ls now es) as (ph & HI). fold w in HI.
  pose proof (inv_handle _ _ HI) as Hh.
  pose proof (inv_pending _ _ HI) as Hp.
  split_and!.
  - intros p Hs. rewrite Hs in Hh. unfold pstate_of.
    destruct ph; simpl in *; try discriminate; injection Hh as ->;
      destruct Hp as (_ & _ & ->); reflexivity.
  - intros Hn. rewrite Hn in Hh. rewrite (inv_tasks _ _ HI).
    destruct ph; simpl in *; try discriminate. reflexivity.
  - intros i j p q Hi Hj.
    destruct (Nat.lt_trichotomy i j) as [Hlt | [Heq | Hgt]]; [|exact Heq|].
    + destruct (refresh_fetch_unique_lt _ _ _ _ _ _ HI Hlt Hi Hj).
    + destruct (refresh_fetch_unique_lt _ _ _ _ _ _ HI Hgt Hj Hi).
Qed.

(** X15. A successful refresh, end to end. When the response of the refresh
    call arrives with status 200, the expiry flag is lowered and the
    observable error is left alone; the callers stay suspended until the
    [.finally] reaction runs; that reaction clears the in-flight handle and
    fulfils the promise the callers hold with [undefined]. No further
    network call is made. *)
Theorem refresh_success (ls : gmap string Z) (now : Z) (es : list event)
    (i p0 : nat) (r : response) :
  let w := run es (constructor ls now) in
  tasks w !! i = Some (KRefreshFetch p0) ->
  r_status r = 200 ->
  let w1 := deliver i (NetResponse r) w in
  expired (this w1) = false
  /\ error (this w1) = error (this w)
  /\ exists p1 j,
       refreshPromise (this w) = Some p1
       /\ refreshPromise (this w1) = Some p1
       /\ pstate_of p1 w1 = Pending
       /\ tasks w1 !! j = Some (KRefreshFinally p0 p1)
       /\ let w2 := resume j w1 in
          refreshPromise (this w2) = None
          /\ pstate_of p1 w2 = Fulfilled VUndefined
          /\ expired (this w2) = false
          /\ requests w2 = requests w.
Proof.
  intros w Hi H200 w1.
  destruct (reachable_Inv ls now es) as (ph & HI). fold w in HI.
  destruct (Inv_waiting _ _ _ _ HI Hi) as (p1 & -> & Ht).
  pose proof (inv_pending _ _ HI) as (Hne & Hp0 & Hp1).
  assert (Hw1 : w1 = with_promises (fun ps => <[p0 := Fulfilled VUndefined]> ps)
                       (with_this (set_expired false) (drop_task i w))).
  { unfold w1, deliver. rewrite Hi. unfold refresh_on_fetch. rewrite H200. simpl.
    unfold resolve, settle. cbn [with_this drop_task with_tasks promises].
    rewrite Hp0. reflexivity. }
  assert (Hfin : exists j, tasks w1 !! j = Some (KRefreshFinally p0 p1)).
  { rewrite Hw1. apply (refresh_task_index (drop_task i w)). rewrite Ht. left. }
  destruct Hfin as (j & Hj).
  assert (Hs0 : pstate_of p0 w1 = Fulfilled VUndefined).
  { rewrite Hw1. unfold pstate_of. simpl.
    rewrite list_lookup_insert_eq by (eapply lookup_lt_Some; exact Hp0). reflexivity. }
  assert (Hs1 : promises w1 !! p1 = Some Pending).
  { rewrite Hw1. simpl. rewrite list_lookup_insert_ne by exact Hne. exact Hp1. }
  split; [rewrite Hw1; reflexivity|]. split; [rewrite Hw1; reflexivity|].
  exists p1, j. split_and!.
  - exact (inv_handle _ _ HI).
  - rewrite Hw1. exact (inv_handle _ _ HI).
  - unfold pstate_of. rewrite Hs1. reflexivity.
  - exact Hj.
  - assert (Hres : resume j w1 = refresh_finally p0 p1 (drop_task j w1)).
    { unfold resume. rewrite Hj. simpl. rewrite Hs0. reflexivity. }
    cbv zeta. rewrite Hres. unfold refresh_finally.
    change (pstate_of p0 (drop_task j w1)) with (pstate_of p0 w1). rewrite Hs0.
    split_and!.
    + rewrite this_settle. reflexivity.
    + apply pstate_of_settle. exact Hs1.
    + rewrite this_settle. rewrite Hw1. reflexivity.
    + rewrite requests_settle. rewrite Hw1. reflexivity.
Qed.

(** X16. A failed refresh, end to end. When the response of the refresh call
    has a status other than 200 and a JSON body, there is a schedule of the
    three continuations (response, body, [.finally]) after which: the expiry
    flag is up, the observable error is the message derived from the body,
    the in-flight handle is cleared, and the promise the callers hold is
    rejected with the error carrying the status, the body and the message.
    No further network call is made. *)
Theorem refresh_failure (ls : gmap string Z) (now : Z) (es : list event)
    (i p0 : nat) (r : response) (body : json) :
  let w := run es (constructor ls now) in
  tasks w !! i = Some (KRefreshFetch p0) ->
  r_status r <> 200 ->
  JSON_parse (r_text r) = Some body ->
  exists p1 j1 j2,
    refreshPromise (this w) = Some p1
    /\ expired (this (deliver i (NetResponse r) w)) = true
    /\ let wf := run [EDeliver i (NetResponse r); EResume j1; EResume j2] w in
       refreshPromise (this wf) = None
       /\ expired (this wf) = true
       /\ error (this wf) = responseErrorMsg (r_status r) body
       /\ pstate_of p1 wf =
            Rejected (VError (ToString (responseErrorMsg (r_status r) body))
                             (Some (r_status r)) (Some body))
       /\ requests wf = requests w.
Proof.
  intros w Hi Hst Hparse.
  destruct (reachable_Inv ls now es) as (ph & HI). fold w in HI.
  destruct (Inv_waiting _ _ _ _ HI Hi) as (p1 & -> & Ht).
  pose proof (inv_pending _ _ HI) as (Hne & Hp0 & Hp1).
  set (msg := responseErrorMsg (r_status r) body).
  set (err := VError (ToString msg) (Some (r_status r)) (Some body)).
  set (w1 := deliver i (NetResponse r) w).
  assert (Hw1 : w1 = suspend (KRefreshJson r p0)
                       (with_this (set_expired true) (drop_task i w))).
  { unfold w1, deliver. rewrite Hi. unfold refresh_on_fetch.
    destruct (Z.eqb_spec (r_status r) 200); [contradiction | reflexivity]. }
  set (j1 := length (delete i (tasks w))).
  assert (Hj1 : tasks w1 !! j1 = Some (KRefreshJson r p0)).
  { rewrite Hw1. simpl. rewrite lookup_app_r by (unfold j1; lia).
    unfold j1. rewrite Nat.sub_diag. reflexivity. }
  set (w2 := resume j1 w1).
  assert (Hw2 : w2 = with_promises (fun ps => <[p0 := Rejected err]> ps)
                       (with_this (set_error msg)
                          (with_this (set_expired true) (drop_task i w)))).
  { unfold w2, resume. rewrite Hj1. simpl. unfold refresh_on_json. rewrite Hparse.
    unfold reject, settle. rewrite Hw1.
    cbn [with_this drop_task with_tasks suspend promises tasks]. rewrite Hp0.
    unfold with_promises, with_this, drop_task, with_tasks; simpl.
    unfold j1. rewrite (delete_middle (delete i (tasks w)) [] (KRefreshJson r p0)).
    rewrite app_nil_r. reflexivity. }
  assert (Hfin : exists j2, tasks w2 !! j2 = Some (KRefreshFinally p0 p1)).
  { rewrite Hw2. apply (refresh_task_index (drop_task i w)). rewrite Ht. left. }
  destruct Hfin as (j2 & Hj2).
  assert (Hs0 : pstate_of p0 w2 = Rejected err).
  { rewrite Hw2. unfold pstate_of. simpl.
    rewrite list_lookup_insert_eq by (eapply lookup_lt_Some; exact Hp0). reflexivity. }
  assert (Hs1 : promises w2 !! p1 = Some Pending).
  { rewrite Hw2. simpl. rewrite list_lookup_insert_ne by exact Hne. exact Hp1. }
  exists p1, j1, j2. split; [exact (inv_handle _ _ HI)|].
  split; [fold w1; rewrite Hw1; reflexivity|].
  change (run [EDeliver i (NetResponse r); EResume j1; EResume j2] w)
    with (resume j2 w2).
  assert (Hres : resume j2 w2 = refresh_finally p0 p1 (drop_task j2 w2)).
  { unfold resume. rewrite Hj2. simpl. rewrite Hs0. reflexivity. }
  cbv zeta. rewrite Hres. unfold refresh_finally.
  change (pstate_of p0 (drop_task j2 w2)) with (pstate_of p0 w2). rewrite Hs0.
  split_and!.
  - rewrite this_settle. reflexivity.
  - rewrite this_settle. rewrite Hw2. reflexivity.
  - rewrite this_settle. rewrite Hw2. reflexivity.
  - apply pstate_of_settle. exact Hs1.
  - rewrite requests_settle. rewrite Hw2. reflexivity.
Qed.

(** X17. A failure response of the refresh endpoint whose body is not JSON
    wedges the coordinator like a transport failure does: the expiry flag
    has been raised on arrival, but when [response.json()] rejects the
    executor throws, so in every later world the in-flight handle is still
    set, its promise is still pending, and [refresh()] keeps returning it. *)
Theorem refresh_unparsable_failure_wedges (ls : gmap string Z) (now : Z)
    (es1 : list event) (i p0 : nat) (r : response) :
  let w := run es1 (constructor ls now) in
  tasks w !! i = Some (KRefreshJson r p0) ->
  JSON_parse (r_text r) = None ->
  exists p1,
    refreshPromise (this w) = Some p1
    /\ forall es2,
         let w' := run es2 (resume i w) in
         refreshPromise (this w') = Some p1
         /\ pstate_of p1 w' = Pending
         /\ refresh w' = (AwaitPromise p1, w').
Proof.
  intros w Hi Hparse.
  destruct (reachable_Inv ls now es1) as (ph & HI). fold w in HI.
  destruct (Inv_reading _ _ _ _ _ HI Hi) as (p1 & -> & Ht).
  exists p1. split; [exact (inv_handle _ _ HI)|].
  assert (Hres : resume i w = drop_task i w).
  { unfold resume. rewrite Hi. simpl. unfold refresh_on_json. rewrite Hparse. reflexivity. }
  assert (HS : Inv (Stuck p0 p1) (drop_task i w)).
  { eapply Inv_build; [exact HI | ..]; try reflexivity.
    - exact (inv_handle _ _ HI).
    - exact Ht.
    - exact (inv_pending _ _ HI).
    - auto.
    - simpl. apply Forall_delete. exact (inv_foreign _ _ HI). }
  intros es2 w'. subst w'. rewrite Hres.
  pose proof (Inv_stuck_run es2 _ _ _ HS) as HS'.
  pose proof (inv_handle _ _ HS') as Hh. simpl in Hh.
  pose proof (inv_pending _ _ HS') as (_ & _ & Hp1).
  split_and!.
  - exact Hh.
  - unfold pstate_of. rewrite Hp1. reflexivity.
  - apply refresh_in_flight. exact Hh.
Qed.

(** ** Promises that nothing can settle *)

Lemma holders_suspend (k : task) (w : World) :
  holders (suspend k w) ≡ₚ target k :: holders w.
Proof.
  unfold holders, suspend; simpl. rewrite fmap_app. simpl.
  rewrite <- app_assoc. simpl. symmetry. apply Permutation_middle.
Qed.

Lemma holders_drop (i : nat) (k : task) (w : World) :
  tasks w !! i = Some k -> holders w ≡ₚ target k :: holders (drop_task i w).
Proof.
  intros Hi. unfold holders, drop_task; simpl. rewrite list_fmap_delete.
  rewrite (delete_Permutation (target <$> tasks w) i (target k)) at 1.
  - reflexivity.
  - rewrite list_lookup_fmap, Hi. reflexivity.
Qed.

Lemma holders_xhr_add (x : xhr) (w : World) :
  holders (with_xhrs (fun xs => xs ++ [x]) w) ≡ₚ x_promise x :: holders w.
Proof.
  unfold holders; simpl. rewrite fmap_app. simpl.
  rewrite app_assoc. rewrite <- Permutation_cons_append. reflexivity.
Qed.

Lemma keep_refl (p : nat) (w : World) : orphan p w -> keep p w w.
Proof. intros H. split; [exact H | reflexivity]. Qed.

Lemma keep_frame (p : nat) (w w1 w2 : World) :
  keep p w w1 -> tasks w2 = tasks w1 -> xhrs w2 = xhrs w1 -> promises w2 = promises w1 ->
  keep p w w2.
Proof.
  intros [[Hlt Hno] He] Ht Hx Hp. unfold keep, orphan, holders in *.
  rewrite Ht, Hx, Hp. auto.
Qed.

Lemma keep_settle (p q : nat) (s : pstate) (w w1 : World) :
  keep p w w1 -> q <> p -> keep p w (settle q s w1).
Proof.
  intros [[Hlt Hno] He] Hne. unfold settle.
  destruct (promises w1 !! q) as [[]|]; try (split; [split|]; assumption).
  split; [split|]; simpl.
  - rewrite length_insert. exact Hlt.
  - exact Hno.
  - rewrite list_lookup_insert_ne by exact Hne. exact He.
Qed.

Lemma keep_suspend (p : nat) (k : task) (w w1 : World) :
  keep p w w1 -> target k <> p -> keep p w (suspend k w1).
Proof.
  intros [[Hlt Hno] He] Hne. split; [split|]; try assumption.
  rewrite holders_suspend. intros [E | Hin]%elem_of_cons; [congruence | contradiction].
Qed.

Lemma keep_drop (p i : nat) (w w1 : World) : keep p w w1 -> keep p w (drop_task i w1).
Proof.
  intros [[Hlt Hno] He]. split; [split|]; try assumption.
  intros Hin. apply Hno. unfold holders, drop_task in *; simpl in *.
  apply elem_of_app in Hin as [Hin | Hin]; apply elem_of_app; [left | right; exact Hin].
  rewrite list_fmap_delete in Hin. eapply list_elem_of_delete_inv. exact Hin.
Qed.

Lemma keep_alloc (p : nat) (l : list pstate) (w w1 : World) :
  keep p w w1 -> keep p w (with_promises (fun ps => ps ++ l) w1).
Proof.
  intros [[Hlt Hno] He]. split; [split|]; simpl.
  - rewrite length_app. lia.
  - exact Hno.
  - rewrite lookup_app_l by exact Hlt. exact He.
Qed.

Lemma keep_xhr_add (p : nat) (x : xhr) (w w1 : World) :
  keep p w w1 -> x_promise x <> p -> keep p w (with_xhrs (fun xs => xs ++ [x]) w1).
Proof.
  intros [[Hlt Hno] He] Hne. split; [split|]; try assumption.
  rewrite holders_xhr_add. intros [E | Hin]%elem_of_cons; [congruence | contradiction].
Qed.

Lemma keep_bound (p : nat) (w w1 : World) : keep p w w1 -> (p < length (promises w1))%nat.
Proof. intros [[Hlt _] _]. exact Hlt. Qed.

Lemma orphan_task_ne (p i : nat) (k : task) (w : World) :
  orphan p w -> tasks w !! i = Some k -> target k <> p.
Proof.
  intros [_ Hno] Hi E. apply Hno. unfold holders. apply elem_of_app. left.
  apply list_elem_of_fmap. exists k. split; [congruence|].
  apply list_elem_of_lookup. exists i. exact Hi.
Qed.

Lemma orphan_xhr_ne (p i : nat) (x : xhr) (w : World) :
  orphan p w -> xhrs w !! i = Some x -> x_promise x <> p.
Proof.
  intros [_ Hno] Hi E. apply Hno. unfold holders. apply elem_of_app. right.
  apply list_elem_of_fmap. exists x. split; [congruence|].
  apply list_elem_of_lookup. exists i. exact Hi.
Qed.

Ltac keep_side :=
  first [ assumption
        | match goal with
          | H : keep ?p _ ?w1 |- _ <> ?p =>
              let Hb := fresh in
              pose proof (keep_bound _ _ _ H) as Hb; simpl in Hb |- *;
              rewrite ?length_app in *; simpl in *; lia
          end ].

Ltac keep_step :=
  lazymatch goal with
  | |- keep _ _ (settle _ _ _) => apply keep_settle
  | |- keep _ _ (resolve _ _ _) => unfold resolve
  | |- keep _ _ (reject _ _ _) => unfold reject
  | |- keep _ _ (suspend _ _) => apply keep_suspend
  | |- keep _ _ (drop_task _ _) => apply keep_drop
  | |- keep _ _ (with_promises (fun ps => ps ++ _) _) => apply keep_alloc
  | |- keep _ _ (with_xhrs (fun xs => xs ++ _) _) => apply keep_xhr_add
  | |- keep _ _ (window_fetch _ _ _ _) => unfold window_fetch
  | |- keep ?p ?w (?g ?w1) =>
      apply (keep_frame p w w1 (g w1)); [| reflexivity | reflexivity | reflexivity]
  end.

Lemma keep_refresh (p : nat) (w w1 : World) :
  keep p w w1 -> keep p w (snd (refresh w1)).
Proof.
  intros Hk. unfold refresh. destruct (refreshPromise (this w1)); [exact Hk|].
  destruct (_ >? _)%Z; [exact Hk|].
  pose proof (keep_bound _ _ _ Hk) as Hb.
  unfold new_promise, window_fetch, updateLastRefresh. cbn [snd].
  keep_step. keep_step; [| simpl; rewrite ?length_app; simpl; lia].
  keep_step. keep_step; [| simpl; lia].
  keep_step. keep_step. keep_step. exact Hk.
Qed.

Ltac keep_tac := repeat (repeat case_match; first [eassumption | keep_step; try keep_side]).

Lemma keep_gate (p : nat) (k : awaited -> task) (w : World) :
  orphan p w -> (forall a, target (k a) = length (promises w)) ->
  keep p w (suspend (k (fst (refresh (snd (new_promise w)))))
                    (snd (refresh (snd (new_promise w))))).
Proof.
  intros Ho Hk. apply keep_suspend.
  - apply keep_refresh. cbn [new_promise snd]. apply keep_alloc, keep_refl, Ho.
  - rewrite Hk. destruct Ho as [Hlt _]. lia.
Qed.

Lemma keep_fetch (p : nat) (url : string) (options : obj) (ra : bool) (w : World) :
  orphan p w -> keep p w (snd (fetch url options ra w)).
Proof.
  intros Ho. pose proof (keep_refl p w Ho) as Hk. pose proof (proj1 Ho) as Hlt.
  destruct (gate options ra) eqn:Hg.
  - rewrite (fetch_gated _ _ _ _ Hg). cbn [snd].
    apply (keep_gate p (fun a => KFetchGate a _ _ _ _) w Ho). reflexivity.
  - rewrite (fetch_ungated _ _ _ _ Hg). cbn [snd new_promise].
    unfold fetch_send, window_fetch.
    keep_step; [| simpl; lia]. keep_step. keep_step. exact Hk.
Qed.

Lemma keep_upload (p : nat) (url file : string) (options : obj) (ra : bool) (w : World) :
  orphan p w -> keep p w (snd (upload url file options ra w)).
Proof.
  intros Ho. pose proof (keep_refl p w Ho) as Hk. pose proof (proj1 Ho) as Hlt.
  destruct (gate options ra) eqn:Hg.
  - rewrite (upload_gated _ _ _ _ _ Hg). cbn [snd].
    apply (keep_gate p (fun a => KUploadGate a _ _ _ _ _ _) w Ho). reflexivity.
  - rewrite (upload_ungated _ _ _ _ _ Hg). cbn [snd new_promise].
    unfold upload_send. destruct (Object_entries _).
    + keep_step; [| simpl; lia]. keep_step. exact Hk.
    + keep_step. exact Hk.
Qed.

Lemma keep_resume (p i : nat) (w : World) : orphan p w -> keep p w (resume i w).
Proof.
  intros Ho. pose proof (keep_refl p w Ho) as Hk.
  unfold resume. destruct (tasks w !! i) as [k|] eqn:Hi; [|exact Hk].
  destruct (ready k w); [|exact Hk].
  pose proof (orphan_task_ne _ _ _ _ Ho Hi) as Hne.
  destruct k; simpl in Hne; cbn [run_task];
    unfold refresh_on_json, refresh_finally, fetch_after_gate, fetch_send, window_fetch,
      fetch_resolve_json, fetch_on_text, fetch_on_json, upload_after_gate, upload_send;
    keep_tac.
Qed.

Lemma keep_deliver (p i : nat) (o : net_outcome) (w : World) :
  orphan p w -> keep p w (deliver i o w).
Proof.
  intros Ho. pose proof (keep_refl p w Ho) as Hk.
  unfold deliver. destruct (tasks w !! i) as [k|] eqn:Hi; [|exact Hk].
  pose proof (orphan_task_ne _ _ _ _ Ho Hi) as Hne.
  destruct k; simpl in Hne; try exact Hk;
    unfold refresh_on_fetch, fetch_on_response; keep_tac.
Qed.

Lemma keep_on_xhr (p x : nat) (f : xhr -> World -> World) (w : World) :
  orphan p w ->
  (forall r, x_promise r <> p -> keep p w (f r w)) ->
  keep p w (on_xhr x f w).
Proof.
  intros Ho Hf. unfold on_xhr. destruct (xhrs w !! x) as [r|] eqn:Hx.
  - apply Hf. exact (orphan_xhr_ne _ _ _ _ Ho Hx).
  - apply keep_refl, Ho.
Qed.

(** Nothing the event loop does settles, or hands to a new holder, a promise
    that no continuation and no XHR holds. *)
Lemma keep_step_event (p : nat) (e : event) (w : World) :
  orphan p w -> keep p w (step e w).
Proof.
  intros Ho. pose proof (keep_refl p w Ho) as Hk.
  destruct e; cbn [step].
  - keep_tac.
  - keep_tac.
  - unfold sessionWatch. keep_tac.
  - apply keep_refresh. exact Hk.
  - apply keep_fetch. exact Ho.
  - apply keep_upload. exact Ho.
  - unfold clearTimeout, resetExpired. keep_tac.
  - unfold resetExpired. keep_tac.
  - unfold clearError. keep_tac.
  - unfold updateLastRefresh. keep_tac.
  - unfold clearLastRefresh. keep_tac.
  - apply keep_resume. exact Ho.
  - apply keep_deliver. exact Ho.
  - apply keep_on_xhr; [exact Ho|]. intros r Hne.
    unfold xhr_onreadystatechange. keep_tac.
  - apply keep_on_xhr; [exact Ho|]. intros r Hne. unfold xhr_onprogress. keep_tac.
  - apply keep_on_xhr; [exact Ho|]. intros r Hne. unfold xhr_onerror. keep_tac.
Qed.

Lemma keep_run (p : nat) (es : list event) (w : World) :
  orphan p w -> keep p w (run es w).
Proof.
  intros Ho. induction es as [|e es IH] using rev_ind.
  - apply keep_refl, Ho.
  - rewrite run_snoc. destruct IH as [Ho1 He1].
    destruct (keep_step_event p e _ Ho1) as [Ho2 He2].
    split; [exact Ho2 | congruence].
Qed.

(** ** At most one holder per promise *)

Lemma WF_frame (w w' : World) :
  tasks w' = tasks w -> xhrs w' = xhrs w -> promises w' = promises w -> WF w -> WF w'.
Proof.
  intros Ht Hx Hp [W1 W2 W3]. unfold holders in *.
  split; unfold holders; rewrite ?Ht, ?Hx, ?Hp; assumption.
Qed.

Lemma WF_alloc (l : list pstate) (w : World) :
  WF w -> WF (with_promises (fun ps => ps ++ l) w).
Proof.
  intros [W1 W2 W3]. split; simpl.
  - exact W1.
  - eapply Forall_impl; [exact W2|]. intros q Hq. simpl in *. rewrite length_app. lia.
  - eapply Forall_impl; [exact W3|]. intros k Hk. simpl in *.
    apply lookup_app_l_Some. exact Hk.
Qed.

Lemma WF_settle (q : nat) (s : pstate) (w : World) :
  q ∉ (target <$> tasks w) -> WF w -> WF (settle q s w).
Proof.
  intros Hq HW. unfold settle. destruct (promises w !! q) as [[]|]; try exact HW.
  destruct HW as [W1 W2 W3]. split; simpl.
  - exact W1.
  - rewrite length_insert. exact W2.
  - apply Forall_forall. intros k Hk.
    rewrite list_lookup_insert_ne.
    + exact (proj1 (Forall_forall _ _) W3 k Hk).
    + intros ->. apply Hq. apply list_elem_of_fmap. exists k. split; [reflexivity | exact Hk].
Qed.

Lemma orphan_not_target (q : nat) (w : World) : orphan q w -> q ∉ (target <$> tasks w).
Proof. intros [_ Hno] Hin. apply Hno. unfold holders. apply elem_of_app. left. exact Hin. Qed.

Lemma WF_suspend (k : task) (w : World) :
  orphan (target k) w -> promises w !! target k = Some Pending ->
  WF w -> WF (suspend k w).
Proof.
  intros [Hlt Hno] Hp [W1 W2 W3]. split.
  - rewrite holders_suspend. apply NoDup_cons. split; assumption.
  - rewrite holders_suspend. constructor; assumption.
  - simpl. apply Forall_app. split; [exact W3 | constructor; [exact Hp | constructor]].
Qed.

Lemma WF_xhr_add (x : xhr) (w : World) :
  orphan (x_promise x) w -> WF w -> WF (with_xhrs (fun xs => xs ++ [x]) w).
Proof.
  intros [Hlt Hno] [W1 W2 W3]. split.
  - rewrite holders_xhr_add. apply NoDup_cons. split; assumption.
  - rewrite holders_xhr_add. constructor; assumption.
  - exact W3.
Qed.

Lemma WF_drop (i : nat) (k : task) (w : World) :
  tasks w !! i = Some k -> WF w ->
  WF (drop_task i w)
  /\ orphan (target k) (drop_task i w)
  /\ promises (drop_task i w) !! target k = Some Pending.
Proof.
  intros Hi [W1 W2 W3].
  pose proof (holders_drop i k w Hi) as Hperm.
  rewrite Hperm in W1, W2. apply NoDup_cons in W1 as [Hno W1].
  apply Forall_cons in W2 as [Hlt W2].
  split_and!.
  - split; [exact W1 | exact W2 |]. simpl. apply Forall_delete. exact W3.
  - split; [exact Hlt | exact Hno].
  - exact (proj1 (Forall_lookup _ _) W3 i k Hi).
Qed.

Lemma WF_fresh (w : World) :
  WF w ->
  orphan (length (promises w)) (with_promises (fun ps => ps ++ [Pending]) w)
  /\ promises (with_promises (fun ps => ps ++ [Pending]) w) !! length (promises w)
     = Some Pending.
Proof.
  intros [W1 W2 W3]. split; [split|]; simpl.
  - rewrite length_app. simpl. lia.
  - intros Hin. pose proof (proj1 (Forall_forall _ _) W2 _ Hin) as Hlt. simpl in Hlt. lia.
  - rewrite lookup_app_r by lia. rewrite Nat.sub_diag. reflexivity.
Qed.

Lemma WF_xhr_not_target (x : nat) (r : xhr) (w : World) :
  WF w -> xhrs w !! x = Some r -> x_promise r ∉ (target <$> tasks w).
Proof.
  intros [W1 _ _] Hx Hin. unfold holders in W1.
  apply NoDup_app in W1 as (_ & Hdisj & _). apply (Hdisj _ Hin).
  apply list_elem_of_fmap. exists r. split; [reflexivity|].
  apply list_elem_of_lookup. exists x. exact Hx.
Qed.

Ltac wf_step :=
  lazymatch goal with
  | |- WF (settle _ _ _) => apply WF_settle; [first [assumption | apply orphan_not_target; assumption] |]
  | |- WF (resolve _ _ _) => unfold resolve
  | |- WF (reject _ _ _) => unfold reject
  | |- WF (suspend _ _) => apply WF_suspend; [assumption | assumption |]
  | |- WF (with_promises (fun ps => ps ++ _) _) => apply WF_alloc
  | |- WF (with_xhrs (fun xs => xs ++ _) _) => apply WF_xhr_add; [assumption |]
  | |- WF (window_fetch _ _ _ _) => unfold window_fetch
  | |- WF (?g ?w1) => apply (WF_frame w1 (g w1)); [reflexivity | reflexivity | reflexivity |]
  end.

Ltac wf_tac := repeat (repeat case_match; first [assumption | wf_step]).

Lemma WF_refresh (w : World) : WF w -> WF (snd (refresh w)).
Proof.
  intros HW. unfold refresh. destruct (refreshPromise (this w)); [exact HW|].
  destruct (_ >? _)%Z; [exact HW|].
  unfold new_promise, window_fetch, updateLastRefresh. cbn [snd].
  set (w1 := with_localStorage _ w).
  assert (HW1 : WF w1) by (apply (WF_frame w); [reflexivity .. | exact HW]).
  destruct (WF_fresh w1 HW1) as [Ho0 Hp0].
  set (w2 := with_promises _ w1) in *.
  assert (HW2 : WF w2) by (apply WF_alloc; exact HW1).
  set (w3 := suspend (KRefreshFetch (length (promises w1))) (with_requests _ w2)).
  assert (HW3 : WF w3).
  { unfold w3. apply WF_suspend; [exact Ho0 | exact Hp0 |].
    apply (WF_frame w2); [reflexivity .. | exact HW2]. }
  destruct (WF_fresh w3 HW3) as [Ho1 Hp1].
  wf_step. apply WF_suspend; [exact Ho1 | exact Hp1 |]. apply WF_alloc. exact HW3.
Qed.

Lemma WF_gate (k : awaited -> task) (w : World) :
  WF w -> (forall a, target (k a) = length (promises w)) ->
  WF (suspend (k (fst (refresh (snd (new_promise w)))))
              (snd (refresh (snd (new_promise w))))).
Proof.
  intros HW Hk. cbn [new_promise snd].
  destruct (WF_fresh w HW) as [Ho Hp].
  set (w0 := with_promises _ w) in *.
  destruct (keep_refresh _ _ _ (keep_refl _ _ Ho)) as [Ho' He].
  apply WF_suspend.
  - rewrite Hk. exact Ho'.
  - rewrite Hk, He. exact Hp.
  - apply WF_refresh, WF_alloc, HW.
Qed.

Lemma WF_fetch (url : string) (options : obj) (ra : bool) (w : World) :
  WF w -> WF (snd (fetch url options ra w)).
Proof.
  intros HW. destruct (WF_fresh w HW) as [Ho Hp].
  destruct (gate options ra) eqn:Hg.
  - rewrite (fetch_gated _ _ _ _ Hg). cbn [snd].
    apply (WF_gate (fun a => KFetchGate a _ _ _ _) w HW). reflexivity.
  - rewrite (fetch_ungated _ _ _ _ Hg). cbn [snd new_promise].
    unfold fetch_send, window_fetch.
    apply WF_suspend; [exact Ho | exact Hp |]. wf_step. apply WF_alloc, HW.
Qed.

Lemma WF_upload (url file : string) (options : obj) (ra : bool) (w : World) :
  WF w -> WF (snd (upload url file options ra w)).
Proof.
  intros HW. destruct (WF_fresh w HW) as [Ho Hp].
  destruct (gate options ra) eqn:Hg.
  - rewrite (upload_gated _ _ _ _ _ Hg). cbn [snd].
    apply (WF_gate (fun a => KUploadGate a _ _ _ _ _ _) w HW). reflexivity.
  - rewrite (upload_ungated _ _ _ _ _ Hg). cbn [snd new_promise].
    unfold upload_send. destruct (Object_entries _).
    + apply WF_xhr_add; [exact Ho |]. apply WF_alloc, HW.
    + apply WF_alloc, HW.
Qed.

Lemma WF_resume (i : nat) (w : World) : WF w -> WF (resume i w).
Proof.
  intros HW. unfold resume. destruct (tasks w !! i) as [k|] eqn:Hi; [|exact HW].
  destruct (ready k w); [|exact HW].
  destruct (WF_drop i k w Hi HW) as (HW1 & Ho1 & Hp1).
  destruct k; simpl in Ho1, Hp1; cbn [run_task];
    unfold refresh_on_json, refresh_finally, fetch_after_gate, fetch_send, window_fetch,
      fetch_resolve_json, fetch_on_text, fetch_on_json, upload_after_gate, upload_send;
    wf_tac.
Qed.

Lemma WF_deliver (i : nat) (o : net_outcome) (w : World) : WF w -> WF (deliver i o w).
Proof.
  intros HW. unfold deliver. destruct (tasks w !! i) as [k|] eqn:Hi; [|exact HW].
  destruct (WF_drop i k w Hi HW) as (HW1 & Ho1 & Hp1).
  destruct k; simpl in Ho1, Hp1; try exact HW;
    unfold refresh_on_fetch, fetch_on_response; wf_tac.
Qed.

Lemma WF_on_xhr (x : nat) (f : xhr -> World -> World) (w : World) :
  WF w ->
  (forall r, x_promise r ∉ (target <$> tasks w) -> WF (f r w)) ->
  WF (on_xhr x f w).
Proof.
  intros HW Hf. unfold on_xhr. destruct (xhrs w !! x) as [r|] eqn:Hx; [|exact HW].
  apply Hf. exact (WF_xhr_not_target _ _ _ HW Hx).
Qed.

Lemma WF_step (e : event) (w : World) : WF w -> WF (step e w).
Proof.
  intros HW. destruct e; cbn [step].
  - wf_tac.
  - wf_tac.
  - unfold sessionWatch. wf_tac.
  - apply WF_refresh, HW.
  - apply WF_fetch, HW.
  - apply WF_upload, HW.
  - unfold clearTimeout, resetExpired. wf_tac.
  - unfold resetExpired. wf_tac.
  - unfold clearError. wf_tac.
  - unfold updateLastRefresh. wf_tac.
  - unfold clearLastRefresh. wf_tac.
  - apply WF_resume, HW.
  - apply WF_deliver, HW.
  - apply WF_on_xhr; [exact HW|]. intros r Hr. unfold xhr_onreadystatechange. wf_tac.
  - apply WF_on_xhr; [exact HW|]. intros r Hr. unfold xhr_onprogress. wf_tac.
  - apply WF_on_xhr; [exact HW|]. intros r Hr. unfold xhr_onerror. wf_tac.
Qed.

Lemma WF_constructor (ls : gmap string Z) (now : Z) : WF (constructor ls now).
Proof. split; simpl; constructor. Qed.

Lemma reachable_WF (ls : gmap string Z) (now : Z) (es : list event) :
  WF (run es (constructor ls now)).
Proof.
  induction es as [|e es IH] using rev_ind.
  - apply WF_constructor.
  - rewrite run_snoc. apply WF_step, IH.
Qed.

Lemma orphan_stays_pending (p : nat) (w : World) (es : list event) :
  orphan p w -> promises w !! p = Some Pending ->
  pstate_of p (run es w) = Pending
  /\ forall x, x ∈ xhrs (run es w) -> x_promise x <> p.
Proof.
  intros Ho Hp. destruct (keep_run p es w Ho) as [[_ Hno] He]. split.
  - unfold pstate_of. rewrite He, Hp. reflexivity.
  - intros x Hx E. apply Hno. unfold holders. apply elem_of_app. right.
    apply list_elem_of_fmap. exists x. split; [congruence | exact Hx].
Qed.

(** X18. When the transport of a [fetch] fails (the awaited [window.fetch]
    rejects), the promise the caller holds is never settled: it is pending
    in every later world. The failure itself changes no observable of the
    store ([status], [error] and the expiry flag stay as they were). *)
Theorem fetch_transport_failure_never_settles (ls : gmap string Z) (now : Z)
    (es1 : list event) (i : nat) (skip401 : json) (p : nat) (e : value) :
  let w := run es1 (constructor ls now) in
  tasks w !! i = Some (KFetchThen skip401 p) ->
  this (deliver i (NetError e) w) = this w
  /\ forall es2, pstate_of p (run es2 (deliver i (NetError e) w)) = Pending.
Proof.
  intros w Hi.
  assert (Hd : deliver i (NetError e) w = drop_task i w).
  { unfold deliver. rewrite Hi. reflexivity. }
  rewrite Hd. split; [reflexivity|]. intros es2.
  destruct (WF_drop i _ w Hi (reachable_WF ls now es1)) as (_ & Ho & Hp).
  exact (proj1 (orphan_stays_pending p _ es2 Ho Hp)).
Qed.

(** X19. When a non-2xx, non-504 response has a body that is not JSON,
    [response.json()] rejects and the handler that would set the observable
    error and reject the call never runs: the observable error keeps its
    old value and the promise the caller holds is pending in every later
    world. *)
Theorem fetch_unparsable_error_never_settles (ls : gmap string Z) (now : Z)
    (es1 : list event) (i : nat) (r : response) (p : nat) :
  let w := run es1 (constructor ls now) in
  tasks w !! i = Some (KFetchJson r p) ->
  JSON_parse (r_text r) = None ->
  this (resume i w) = this w
  /\ forall es2, pstate_of p (run es2 (resume i w)) = Pending.
Proof.
  intros w Hi Hparse.
  assert (Hd : resume i w = drop_task i w).
  { unfold resume. rewrite Hi. simpl. unfold fetch_on_json. rewrite Hparse. reflexivity. }
  rewrite Hd. split; [reflexivity|]. intros es2.
  destruct (WF_drop i _ w Hi (reachable_WF ls now es1)) as (_ & Ho & Hp).
  exact (proj1 (orphan_stays_pending p _ es2 Ho Hp)).
Qed.

(** X20. An [upload] whose options carry [headers: null] never sends
    anything and never settles: [Object.entries(null)] throws inside the
    executor, whether the call skipped the freshness gate or passed it. In
    every later world the promise is pending and no XHR belongs to it. *)
Theorem upload_null_headers_never_settles (ls : gmap string Z) (now : Z)
    (es1 : list event) :
  let w := run es1 (constructor ls now) in
  (forall url file options recordActivity,
     get "headers" options = Some JNull ->
     gate options recordActivity = false ->
     let p := fst (upload url file options recordActivity w) in
     let w1 := snd (upload url file options recordActivity w) in
     xhrs w1 = xhrs w
     /\ forall es2, pstate_of p (run es2 w1) = Pending
                    /\ forall x, x ∈ xhrs (run es2 w1) -> x_promise x <> p)
  /\ (forall i a m u d file p v,
        tasks w !! i = Some (KUploadGate a m u JNull d file p) ->
        outcome a w = Fulfilled v ->
        xhrs (resume i w) = xhrs w
        /\ forall es2, pstate_of p (run es2 (resume i w)) = Pending
                       /\ forall x, x ∈ xhrs (run es2 (resume i w)) -> x_promise x <> p).
Proof.
  intros w. pose proof (reachable_WF ls now es1) as HW. fold w in HW. split.
  - intros url file options ra Hh Hg p w1. subst p w1.
    rewrite (upload_ungated _ _ _ _ _ Hg). cbn [fst snd new_promise].
    rewrite Hh. simpl. split; [reflexivity|]. intros es2.
    destruct (WF_fresh w HW) as [Ho Hp].
    exact (orphan_stays_pending _ _ es2 Ho Hp).
  - intros i a m u d file p v Hi Ha.
    assert (Hd : resume i w = drop_task i w).
    { unfold resume. rewrite Hi. simpl. rewrite Ha.
      unfold upload_after_gate. change (outcome a (drop_task i w)) with (outcome a w).
      rewrite Ha. reflexivity. }
    rewrite Hd. split; [reflexivity|]. intros es2.
    destruct (WF_drop i _ w Hi HW) as (_ & Ho & Hp).
    exact (orphan_stays_pending p _ es2 Ho Hp).
Qed.

(** ** Helpers of the collaborating stores *)

Lemma append_cons (c : ascii) (s t : string) : String c s +:+ t = String c (s +:+ t).
Proof. reflexivity. Qed.

Lemma append_nil (t : string) : "" +:+ t = t.
Proof. reflexivity. Qed.

Lemma string_drop_app (pre s : string) :
  string_drop (String.length pre) (pre +:+ s) = s.
Proof.
  induction pre as [|c pre IH]; [rewrite append_nil; destruct s; reflexivity|].
  rewrite append_cons. exact IH.
Qed.

Lemma lastIndexOf_none (c : ascii) (s : string) :
  contains_char c s = false -> lastIndexOf c s = -1.
Proof.
  induction s as [|c' s IH]; simpl; [reflexivity|].
  destruct (Ascii.eqb c c'); [discriminate|]. intros H. rewrite (IH H). reflexivity.
Qed.

Lemma lastIndexOf_ge (c : ascii) (s : string) : -1 <= lastIndexOf c s.
Proof.
  induction s as [|c' s IH]; simpl; [lia|].
  destruct (Z.leb_spec 0 (lastIndexOf c s)); [lia|]. destruct (Ascii.eqb c c'); lia.
Qed.

Lemma lastIndexOf_app (c : ascii) (pre suf : string) :
  contains_char c suf = false ->
  lastIndexOf c (pre +:+ String c suf) = Z.of_nat (String.length pre).
Proof.
  intros Hsuf. induction pre as [|c' pre IH].
  - rewrite append_nil. simpl. rewrite (lastIndexOf_none c suf Hsuf). simpl.
    rewrite Ascii.eqb_refl. reflexivity.
  - rewrite append_cons. cbn [lastIndexOf String.length]. rewrite IH.
    destruct (Z.leb_spec 0 (Z.of_nat (String.length pre))); lia.
Qed.

Lemma lastIndexOf_split (c : ascii) (s : string) :
  (lastIndexOf c s = -1 /\ contains_char c s = false)
  \/ exists pre suf, s = pre +:+ String c suf
                     /\ lastIndexOf c s = Z.of_nat (String.length pre)
                     /\ contains_char c suf = false.
Proof.
  induction s as [|c' s IH].
  - left. split; reflexivity.
  - destruct IH as [[Hi Hno] | (pre & suf & -> & Hi & Hsuf)].
    + simpl. rewrite Hi, Hno. simpl. destruct (Ascii.eqb_spec c c') as [<-|Hne].
      * right. exists "", s. split_and!; [reflexivity | reflexivity | exact Hno].
      * left. split; reflexivity.
    + right. exists (String c' pre), suf. split; [reflexivity|]. split; [|exact Hsuf].
      exact (lastIndexOf_app c (String c' pre) suf Hsuf).
Qed.

Lemma append_char (pre : string) (c : ascii) (s : string) :
  pre +:+ String c s = (pre +:+ String c "") +:+ s.
Proof.
  induction pre as [|c' pre IH]; [reflexivity|].
  rewrite !append_cons. f_equal. exact IH.
Qed.

Lemma length_append_char (pre : string) (c : ascii) :
  String.length (pre +:+ String c "") = S (String.length pre).
Proof.
  induction pre as [|c' pre IH]; [reflexivity|].
  rewrite append_cons. cbn [String.length]. rewrite IH. reflexivity.
Qed.

Lemma contains_char_middle (c : ascii) (pre suf : string) :
  contains_char c (pre +:+ String c suf) = true.
Proof.
  induction pre as [|c' pre IH].
  - rewrite append_nil. simpl. rewrite Ascii.eqb_refl. reflexivity.
  - rewrite append_cons. simpl. destruct (Ascii.eqb c c'); [reflexivity | exact IH].
Qed.

Lemma substr_after (pre s : string) :
  substr (Z.of_nat (String.length pre) + 1) (pre +:+ String "/"%char s) = s.
Proof.
  unfold substr. destruct (Z.ltb_spec (Z.of_nat (String.length pre) + 1) 0); [lia|].
  replace (Z.to_nat (Z.of_nat (String.length pre) + 1))
    with (String.length (pre +:+ "/")) by (rewrite length_append_char; lia).
  rewrite (append_char pre "/" s). apply string_drop_app.
Qed.

(** X21. [ConfigStore.sponsorId] and [siteId] take the last path segment:
    the id of [prefix/id] is [id] when [id] has no slash, a value without
    any slash is its own id, and in every case the result has no slash and
    is what the value ends with. The empty value gives the empty id. *)
Theorem sponsorId_last_segment (s : string) :
  siteId s = sponsorId s
  /\ contains_char "/"%char (sponsorId s) = false
  /\ (exists pre, s = pre +:+ sponsorId s)
  /\ (contains_char "/"%char s = false -> sponsorId s = s)
  /\ (forall pre id, s = pre +:+ String "/"%char id ->
        contains_char "/"%char id = false -> sponsorId s = id).
Proof.
  assert (Hround : forall pre id, contains_char "/"%char id = false ->
            sponsorId (pre +:+ String "/"%char id) = id).
  { intros pre id Hid. unfold sponsorId.
    destruct (String.eqb_spec (pre +:+ String "/"%char id) "") as [E|_].
    - destruct pre; discriminate.
    - rewrite (lastIndexOf_app _ pre id Hid). apply substr_after. }
  assert (Hnone : contains_char "/"%char s = false -> sponsorId s = s).
  { intros Hno. unfold sponsorId. destruct (String.eqb_spec s "") as [->|_]; [reflexivity|].
    rewrite (lastIndexOf_none _ s Hno). simpl. unfold substr. simpl. reflexivity. }
  split; [reflexivity|].
  destruct (lastIndexOf_split "/"%char s) as [[_ Hno] | (pre & suf & -> & _ & Hsuf)].
  - rewrite (Hnone Hno). split_and!.
    + exact Hno.
    + exists "". reflexivity.
    + reflexivity.
    + intros pre id E Hid. rewrite E, contains_char_middle in Hno. discriminate.
  - rewrite (Hround pre suf Hsuf). split_and!.
    + exact Hsuf.
    + exists (pre +:+ "/"). apply append_char.
    + intros Hno. rewrite contains_char_middle in Hno. discriminate.
    + intros pre' id E Hid. rewrite <- (Hround pre suf Hsuf), E. apply Hround. exact Hid.
Qed.

Lemma indexOf_zero (needle s : string) :
  (indexOf needle s =? 0)%Z = String.prefix needle s.
Proof.
  unfold indexOf. destruct s as [|b s].
  - simpl. destruct needle; reflexivity.
  - cbn [String.index]. destruct (String.prefix needle (String b s)); [reflexivity|].
    destruct (String.index 0 needle s); reflexivity.
Qed.

(** X22. The type flags of a sponsor: for a non-empty id exactly one of
    [isCommunity] and [isEnterprise] is [true], the first exactly when the
    id starts with [CM_]; for an empty or missing id both return the id
    itself, so neither flag is truthy. In no case are both truthy. *)
Theorem sponsor_type_flags (id : option string) :
  (forall s, id = Some s -> s <> "" ->
     isCommunity id = Some (JBool (String.prefix "CM_" s))
     /\ isEnterprise id = Some (JBool (negb (String.prefix "CM_" s))))
  /\ (id = None \/ id = Some "" ->
      isCommunity id = JStr <$> id /\ isEnterprise id = JStr <$> id
      /\ truthy_opt (isCommunity id) = false /\ truthy_opt (isEnterprise id) = false)
  /\ truthy_opt (isCommunity id) && truthy_opt (isEnterprise id) = false
  /\ (forall rest, isCommunity (Some ("CM_" +:+ rest)) = Some (JBool true)).
Proof.
  split_and!.
  - intros s -> Hs. unfold isCommunity, isEnterprise.
    destruct (String.eqb_spec s ""); [contradiction|].
    rewrite indexOf_zero. split; reflexivity.
  - intros [-> | ->]; split_and!; reflexivity.
  - destruct id as [s|]; [|reflexivity]. unfold isCommunity, isEnterprise.
    destruct (String.eqb s ""); [reflexivity|]. simpl.
    destruct (indexOf "CM_" s =? 0)%Z; reflexivity.
  - intros rest. unfold isCommunity. simpl. rewrite indexOf_zero. simpl.
    destruct rest; reflexivity.
Qed.

(** X23. [AuthStore.hasRole] holds exactly when the first permission entry
    of the module has roles and one of the requested roles is among them:
    entries of other modules before it are skipped and later entries of the
    same module are never consulted. With no role requested, or with no
    entry for the module, it is false. *)
Theorem hasRole_first_entry (permissions : list module_roles) (module : string)
    (roles : list string) :
  (hasRole permissions module roles = true <->
     exists pre e post held role,
       permissions = pre ++ e :: post
       /\ Forall (fun e' => pm_module e' <> module) pre
       /\ pm_module e = module
       /\ pm_roles e = Some held
       /\ In role roles /\ In role held)
  /\ hasRole permissions module [] = false
  /\ (Forall (fun e => pm_module e <> module) permissions ->
      hasRole permissions module roles = false)
  /\ (forall held more,
        hasRole (ModuleRoles module (Some held) :: more) module roles =
        hasRole [ModuleRoles module (Some held)] module roles).
Proof.
  assert (Hfind : forall e,
            List.find (fun m => String.eqb (pm_module m) module) permissions = Some e <->
            exists pre post, permissions = pre ++ e :: post
                             /\ Forall (fun e' => pm_module e' <> module) pre
                             /\ pm_module e = module).
  { intros e. induction permissions as [|a l IH]; simpl.
    - split; [discriminate|]. intros (pre & post & E & _). destruct pre; discriminate.
    - destruct (String.eqb_spec (pm_module a) module) as [Ha|Ha].
      + split.
        * intros [= ->]. exists [], l. split_and!; [reflexivity | constructor | exact Ha].
        * intros (pre & post & E & Hpre & He). destruct pre as [|b pre].
          -- simpl in E. injection E as -> _. reflexivity.
          -- simpl in E. injection E as -> _. apply Forall_cons in Hpre as [Hb _].
             contradiction.
      + rewrite IH. split.
        * intros (pre & post & -> & Hpre & He). exists (a :: pre), post.
          split_and!; [reflexivity | constructor; assumption | exact He].
        * intros (pre & post & E & Hpre & He). destruct pre as [|b pre].
          -- simpl in E. injection E as -> _. contradiction.
          -- simpl in E. injection E as -> ->. apply Forall_cons in Hpre as [_ Hpre].
             exists pre, post. split_and!; [reflexivity | exact Hpre | exact He]. }
  assert (Hany : forall held,
            negb (length (List.filter (fun role => existsb (String.eqb role) held) roles)
                  =? 0)%nat = true <->
            exists role, In role roles /\ In role held).
  { intros held. split.
    - destruct (List.filter _ roles) as [|role l] eqn:E; [discriminate|]. intros _.
      assert (Hin : In role (List.filter (fun role => existsb (String.eqb role) held) roles))
        by (rewrite E; left; reflexivity).
      apply filter_In in Hin as [Hin Hex]. apply existsb_exists in Hex as (x & Hx & Heq).
      apply String.eqb_eq in Heq as ->. exists x. split; assumption.
    - intros (role & Hin & Hheld).
      assert (Hf : In role (List.filter (fun role => existsb (String.eqb role) held) roles)).
      { apply filter_In. split; [exact Hin|]. apply existsb_exists.
        exists role. split; [exact Hheld | apply String.eqb_refl]. }
      destruct (List.filter _ roles); [destruct Hf | reflexivity]. }
  split_and!.
  - unfold hasRole. split.
    + destruct (List.find _ permissions) as [e|] eqn:Hf; [|discriminate].
      destruct (pm_roles e) as [held|] eqn:Hr; [|discriminate].
      intros H. apply Hany in H as (role & Hin & Hheld).
      destruct (proj1 (Hfind e) eq_refl) as (pre & post & E & Hpre & He).
      exists pre, e, post, held, role. split_and!; assumption.
    + intros (pre & e & post & held & role & E & Hpre & He & Hr & Hin & Hheld).
      assert (Hf : List.find (fun m => String.eqb (pm_module m) module) permissions = Some e)
        by (apply Hfind; exists pre, post; split_and!; assumption).
      rewrite Hf, Hr. apply Hany. exists role. split; assumption.
  - unfold hasRole. destruct (List.find _ permissions) as [e|]; [|reflexivity].
    destruct (pm_roles e); reflexivity.
  - intros Hall. unfold hasRole.
    destruct (List.find _ permissions) as [e|] eqn:Hf; [|reflexivity].
    apply find_some in Hf as [Hin Heq]. apply String.eqb_eq in Heq.
    apply Forall_forall with (x := e) in Hall; [contradiction|].
    apply list_elem_of_In. exact Hin.
  - intros held more. unfold hasRole. simpl. rewrite String.eqb_refl. reflexivity.
Qed.

(** ** Outgoing requests and the persisted clock *)

Lemma more_refl (w : World) : more_requests w w.
Proof. exists []. rewrite app_nil_r. split; [reflexivity | constructor]. Qed.

Lemma more_trans (w1 w2 w3 : World) :
  more_requests w1 w2 -> more_requests w2 w3 -> more_requests w1 w3.
Proof.
  intros (l1 & E1 & F1) (l2 & E2 & F2). exists (l1 ++ l2).
  rewrite E2, E1, app_assoc. split; [reflexivity | apply Forall_app; split; assumption].
Qed.

Lemma more_frame (w w' : World) : requests w' = requests w -> more_requests w w'.
Proof. intros E. exists []. rewrite E, app_nil_r. split; [reflexivity | constructor]. Qed.

Lemma more_settle (q : nat) (s : pstate) (w : World) : more_requests w (settle q s w).
Proof. apply more_frame, requests_settle. Qed.

Lemma more_window_fetch (url : string) (options : obj) (k : task) (w : World) :
  more_requests w (window_fetch url (buildOptions options) k w).
Proof.
  exists [Request url (buildOptions options)]. split; [reflexivity|].
  constructor; [exists options; reflexivity | constructor].
Qed.

Ltac more_step :=
  lazymatch goal with
  | |- more_requests ?w ?w => apply more_refl
  | |- more_requests _ (settle _ _ _) => eapply more_trans; [| apply more_settle]
  | |- more_requests _ (resolve _ _ _) => unfold resolve
  | |- more_requests _ (reject _ _ _) => unfold reject
  | |- more_requests _ (window_fetch _ (buildOptions _) _ _) =>
      eapply more_trans; [| apply more_window_fetch]
  | |- more_requests ?w (?g ?w1) =>
      apply (more_trans w w1 (g w1)); [| apply more_frame; reflexivity]
  end.

Ltac more_tac := repeat (repeat case_match; more_step).

Lemma more_refresh (w : World) : more_requests w (snd (refresh w)).
Proof.
  unfold refresh. destruct (refreshPromise (this w)); [apply more_refl|].
  destruct (_ >? _)%Z; [apply more_refl|].
  unfold new_promise, updateLastRefresh. cbn [snd]. more_tac.
Qed.

Lemma more_gate (k : awaited -> task) (w : World) :
  more_requests w (suspend (k (fst (refresh (snd (new_promise w)))))
                           (snd (refresh (snd (new_promise w))))).
Proof.
  eapply more_trans; [| apply more_frame; reflexivity].
  eapply more_trans; [| apply more_refresh]. apply more_frame. reflexivity.
Qed.

Lemma more_step_event (e : event) (w : World) : more_requests w (step e w).
Proof.
  destruct e; cbn [step].
  - more_tac.
  - more_tac.
  - unfold sessionWatch. more_tac.
  - apply more_refresh.
  - destruct (gate options recordActivity) eqn:Hg.
    + rewrite (fetch_gated _ _ _ _ Hg). cbn [snd].
      apply (more_gate (fun a => KFetchGate a _ _ _ _)).
    + rewrite (fetch_ungated _ _ _ _ Hg). cbn [snd new_promise]. unfold fetch_send. more_tac.
  - destruct (gate options recordActivity) eqn:Hg.
    + rewrite (upload_gated _ _ _ _ _ Hg). cbn [snd].
      apply (more_gate (fun a => KUploadGate a _ _ _ _ _ _)).
    + rewrite (upload_ungated _ _ _ _ _ Hg). cbn [snd new_promise].
      unfold upload_send. more_tac.
  - unfold clearTimeout, resetExpired. more_tac.
  - unfold resetExpired. more_tac.
  - unfold clearError. more_tac.
  - unfold updateLastRefresh. more_tac.
  - unfold clearLastRefresh. more_tac.
  - unfold resume. repeat case_match; try apply more_refl.
    eapply more_trans; [apply more_frame; reflexivity|].
    match goal with |- more_requests _ (run_task ?k _) => destruct k end; cbn [run_task];
      unfold refresh_on_json, refresh_finally, fetch_after_gate, fetch_send,
        fetch_resolve_json, fetch_on_text, fetch_on_json, upload_after_gate, upload_send;
      more_tac.
  - unfold deliver, refresh_on_fetch, fetch_on_response, drop_task. more_tac.
  - unfold on_xhr, xhr_onreadystatechange. more_tac.
  - unfold on_xhr, xhr_onprogress. more_tac.
  - unfold on_xhr, xhr_onerror. more_tac.
Qed.

(** X24. Every call the store has ever handed to [window.fetch] went
    through [buildOptions], and therefore carries a [credentials], a [mode]
    and a [headers] option (the caller's, or the store's default). *)
Theorem every_request_is_built (ls : gmap string Z) (now : Z) (es : list event)
    (q : request) :
  q ∈ requests (run es (constructor ls now)) ->
  built q
  /\ get "credentials" (req_options q) <> None
  /\ get "mode" (req_options q) <> None
  /\ get "headers" (req_options q) <> None.
Proof.
  assert (Hall : Forall built (requests (run es (constructor ls now)))).
  { induction es as [|e es IH] using rev_ind; [constructor|].
    rewrite run_snoc. destruct (more_step_event e (run es (constructor ls now)))
      as (l & -> & Hl).
    apply Forall_app. split; assumption. }
  intros Hq. pose proof (proj1 (Forall_forall _ _) Hall q Hq) as Hb.
  split; [exact Hb|]. destruct Hb as (options & ->). split_and!.
  - apply buildOptions_has_standard. discriminate.
  - apply buildOptions_has_standard. discriminate.
  - apply buildOptions_has_standard. discriminate.
Qed.

Lemma localStorage_settle (q : nat) (s : pstate) (w : World) :
  localStorage (settle q s w) = localStorage w.
Proof. unfold settle. destruct (promises w !! q) as [[]|]; reflexivity. Qed.

Ltac ls_tac :=
  repeat case_match; unfold resolve, reject; simpl; rewrite ?localStorage_settle;
  try reflexivity.

Lemma localStorage_refresh (w : World) :
  localStorage (snd (refresh w)) = localStorage w
  \/ localStorage (snd (refresh w)) = <[lastRefreshed_key := Date_now w]> (localStorage w).
Proof.
  unfold refresh. destruct (refreshPromise (this w)); [left; reflexivity|].
  destruct (_ >? _)%Z; [left; reflexivity|]. right. reflexivity.
Qed.

(** X25. The persisted clock is written only when a refresh starts (inside
    [refresh], [fetch] or [upload]) or by [updateLastRefresh], and then with
    the current time; apart from [clearLastRefresh] and the writes of other
    tabs, nothing else touches the storage: no response, no resumed
    continuation, no XHR event and no tick of the watcher. *)
Theorem clock_written_only_when_refresh_starts (e : event) (w : World) :
  match e with
  | EStorage _ _ | EClearLastRefresh => True
  | ERefresh | EFetch _ _ _ | EUpload _ _ _ _ | EUpdateLastRefresh =>
      localStorage (step e w) = localStorage w
      \/ localStorage (step e w) = <[lastRefreshed_key := Date_now w]> (localStorage w)
  | _ => localStorage (step e w) = localStorage w
  end.
Proof.
  destruct e; cbn [step]; try exact I.
  - reflexivity.
  - unfold sessionWatch. ls_tac.
  - apply localStorage_refresh.
  - destruct (gate options recordActivity) eqn:Hg.
    + rewrite (fetch_gated _ _ _ _ Hg). cbn [snd].
      exact (localStorage_refresh (snd (new_promise w))).
    + rewrite (fetch_ungated _ _ _ _ Hg). left. reflexivity.
  - destruct (gate options recordActivity) eqn:Hg.
    + rewrite (upload_gated _ _ _ _ _ Hg). cbn [snd].
      exact (localStorage_refresh (snd (new_promise w))).
    + rewrite (upload_ungated _ _ _ _ _ Hg). left. cbn [snd new_promise].
      unfold upload_send. ls_tac.
  - reflexivity.
  - reflexivity.
  - reflexivity.
  - right. reflexivity.
  - unfold resume. destruct (tasks w !! i) as [k|]; [|reflexivity].
    destruct (ready k w); [|reflexivity].
    destruct k; cbn [run_task];
      unfold refresh_on_json, refresh_finally, fetch_after_gate, fetch_send, window_fetch,
        fetch_resolve_json, fetch_on_text, fetch_on_json, upload_after_gate, upload_send;
      ls_tac.
  - apply deliver_localStorage.
  - unfold on_xhr, xhr_onreadystatechange. ls_tac.
  - unfold on_xhr, xhr_onprogress. ls_tac.
  - unfold on_xhr, xhr_onerror. ls_tac.
Qed.

End Store.

(** * The store on concrete inputs *)

Example responseErrorMsg_500_empty :
  responseErrorMsg 500 (JObj []) = JStr "500 - {}".
Proof. vm_compute. reflexivity. Qed.

Example buildOptions_post :
  buildOptions [("method", JStr "POST")] =
  [("headers", JObj standard_headers); ("credentials", JStr "include");
   ("mode", JStr "same-origin"); ("method", JStr "POST")].
Proof. vm_compute. reflexivity. Qed.

Example buildOptions_headers :
  get "headers" (buildOptions [("headers", JObj [("Content-Type", JStr "text/plain")])]) =
  Some (JObj [("Content-Type", JStr "text/plain"); ("Cache-Control", JStr "no-cache")]).
Proof. vm_compute. reflexivity. Qed.

Example stringify_sample :
  JSON_stringify (JObj [("a", JArr [JNum 1; JNull; JStr "x"]); ("b", JBool true)]) =
  "{" +:+ quote "a" +:+ ":[1,null," +:+ quote "x" +:+ "]," +:+ quote "b" +:+ ":true}".
Proof. vm_compute. reflexivity. Qed.

Example sample_parse_roundtrip :
  sample_parse (JSON_stringify (JObj [("id", JNum 1)])) = Some (JObj [("id", JNum 1)])
  /\ sample_parse "Internal Server Error" = None.
Proof. split; vm_compute; reflexivity. Qed.

(** The scenario of the specification: fresh at [T0 + 50s], stale at
    [T0 + 60s], where the clock is then rewritten. *)
Example scenario_fresh_then_stale :
  let w50 := constructor {[ lastRefreshed_key := 1700000000000 ]} 1700000050000 in
  let w60 := with_clock 1700000060000 w50 in
  snd (refresh w50) = w50
  /\ getLastRefresh (snd (refresh w60)) = 1700000060000
  /\ length (requests (snd (refresh w60))) = 1%nat.
Proof. split_and!; vm_compute; reflexivity. Qed.

(** ** Instances of the theorems *)

Lemma C1_witness :
  let w := run sample_parse sample_qs sample_percent [ERefresh] sample_stale in
  let es := [EFetch "/api/account" [] true; ERefresh; EClock 1800000000000] in
  let w' := run sample_parse sample_qs sample_percent es w in
  refreshPromise (this w) = Some 1%nat
  /\ refreshPromise (this w') = Some 1%nat
  /\ refresh w' = (AwaitPromise 1, w').
Proof.
  intros w es w'.
  assert (H1 : refreshPromise (this w) = Some 1%nat) by (vm_compute; reflexivity).
  assert (H2 : refreshPromise (this (run sample_parse sample_qs sample_percent es w))
               = Some 1%nat) by (vm_compute; reflexivity).
  split; [exact H1|]. split; [exact H2|].
  exact (proj1 (C1_refresh_deduplicated sample_parse sample_qs sample_percent w 1 es H1 H2)).
Defined.

Lemma C2_witness :
  refreshPromise (this sample_stale) = None
  /\ Date_now sample_stale - getLastRefresh sample_stale >= ACCESS_TIMEOUT
  /\ getLastRefresh (snd (refresh sample_stale)) = Date_now sample_stale.
Proof.
  assert (H1 : refreshPromise (this sample_stale) = None) by reflexivity.
  assert (H2 : Date_now sample_stale - getLastRefresh sample_stale >= ACCESS_TIMEOUT)
    by (vm_compute; congruence).
  split; [exact H1|]. split; [exact H2|].
  exact (proj1 (proj2 (proj2 (proj2 (C2_refresh_idle sample_stale H1) H2)))).
Defined.

Lemma C3_witness :
  let options := [("skip401", JBool true)] in
  let r := Response 401 sample_unauthorized in
  truthy_opt (get "skip401" options) = true
  /\ r_status r = 401
  /\ status (this (fetch_on_response (NetResponse r)
                     (default (JBool false) (get "skip401" options)) 0 sample_fresh)) = 200.
Proof.
  intros options r.
  assert (H1 : truthy_opt (get "skip401" options) = true) by reflexivity.
  assert (H2 : r_status r = 401) by reflexivity.
  split; [exact H1|]. split; [exact H2|].
  exact (proj1 (C3_skip401 sample_parse options r 0 sample_fresh H1 H2)).
Defined.

Lemma C4_witness :
  let w := sample_fresh in
  let t0 := 1700000001000 in
  t0 <= getLastRefresh w + REFRESH_TIMEOUT
  /\ exists k : nat,
       let t := t0 + Z.of_nat (S k) * WATCH_INTERVAL in
       getLastRefresh w + REFRESH_TIMEOUT < t
       /\ t <= getLastRefresh w + REFRESH_TIMEOUT + WATCH_INTERVAL
       /\ expired (this (sessionWatch (with_clock t w))) = true.
Proof.
  intros w t0.
  assert (H : t0 <= getLastRefresh w + REFRESH_TIMEOUT) by (vm_compute; congruence).
  split; [exact H|].
  exact (proj2 (proj2 (C4_session_watch w)) t0 H).
Defined.

Lemma C5_witness :
  let options := [("skipRefresh", JBool true)] in
  gate options true = false
  /\ requests (snd (fetch sample_qs "/api/configs" options true sample_stale)) =
       [Request "/api/configs" (buildOptions options)].
Proof.
  intros options.
  assert (H : gate options true = false) by reflexivity.
  split; [exact H|].
  exact (proj1 (proj2 (proj1 (proj2 (proj2
    (C5_freshness_gate sample_qs "/api/configs" options true sample_stale))) H))).
Defined.

Lemma C6_witness :
  let body := JObj [("error_description", JStr "Bad credentials"); ("error", JStr "invalid_grant")] in
  prop "error_description" body = Some (JStr "Bad credentials")
  /\ truthy (JStr "Bad credentials") = true
  /\ responseErrorMsg 400 body = JStr "Bad credentials".
Proof.
  intros body.
  assert (H1 : prop "error_description" body = Some (JStr "Bad credentials")) by reflexivity.
  assert (H2 : truthy (JStr "Bad credentials") = true) by reflexivity.
  split; [exact H1|]. split; [exact H2|].
  exact (proj1 (C6_error_message sample_parse 400 body) (JStr "Bad credentials") H1 H2).
Defined.

Lemma C7_witness :
  let x := Xhr (JStr "POST") "/api/files" [] (form_data [] "bytes") 0 in
  let w := snd (new_promise sample_fresh) in
  let text := JSON_stringify (JObj [("id", JNum 1)]) in
  promises w !! x_promise x = Some Pending
  /\ sample_parse text = Some (JObj [("id", JNum 1)])
  /\ pstate_of 0 (xhr_onreadystatechange sample_parse x 4 200 text w) =
       Fulfilled (VJson (JObj [("id", JNum 1)])).
Proof.
  intros x w text.
  assert (H1 : promises w !! x_promise x = Some Pending) by reflexivity.
  assert (H2 : sample_parse text = Some (JObj [("id", JNum 1)])) by (vm_compute; reflexivity).
  split; [exact H1|]. split; [exact H2|].
  exact (proj2 (proj1 (proj2 (C7_upload_completion sample_parse x 200 text w H1)) eq_refl)
           _ H2).
Defined.

Lemma C8_witness :
  let w := run sample_parse sample_qs sample_percent [ERefresh] sample_stale in
  tasks w !! 0%nat = Some (KRefreshFetch 0)
  /\ exists p1,
       refreshPromise (this w) = Some p1
       /\ forall es2,
            pstate_of p1 (run sample_parse sample_qs sample_percent es2
                            (deliver 0 (NetError (VError "Failed to fetch" None None)) w))
            = Pending.
Proof.
  intros w.
  assert (H : tasks w !! 0%nat = Some (KRefreshFetch 0)) by (vm_compute; reflexivity).
  split; [exact H|].
  destruct (C8_refresh_transport_failure sample_parse sample_qs sample_percent
              ∅ 1700000001000 [ERefresh] 0 0 (VError "Failed to fetch" None None) H)
    as (p1 & Hh & Hall).
  exists p1. split; [exact Hh|].
  intros es2. exact (proj1 (proj2 (Hall es2))).
Defined.

Lemma C9_witness :
  localStorage sample_stale !! lastRefreshed_key = None
  /\ REFRESH_TIMEOUT < Date_now sample_stale
  /\ getLastRefresh sample_stale = 0
  /\ expired (this (sessionWatch sample_stale)) = true.
Proof.
  assert (H1 : localStorage sample_stale !! lastRefreshed_key = None) by reflexivity.
  assert (H2 : REFRESH_TIMEOUT < Date_now sample_stale) by reflexivity.
  split; [exact H1|]. split; [exact H2|].
  pose proof (C9_absent_clock sample_stale H1 H2) as (H3 & _ & H4 & _).
  split; [exact H3 | exact H4].
Defined.

Lemma C10_witness :
  let options := [("skipRefresh", JBool true); ("skip401", JBool true)] in
  get "skip401" options = Some (JBool true)
  /\ default (JObj []) (get "headers" options) <> JNull
  /\ gate options true = false
  /\ xhrs (snd (upload sample_qs "/api/files" "bytes" options true sample_fresh)) =
       [Xhr (JStr "POST") "/api/files" []
            [("skipRefresh", FormText "true"); ("skip401", FormText "true");
             ("file", FormFile "bytes")] 0].
Proof.
  intros options.
  assert (H1 : get "skip401" options = Some (JBool true)) by reflexivity.
  assert (H2 : default (JObj []) (get "headers" options) <> JNull) by discriminate.
  assert (H3 : gate options true = false) by reflexivity.
  split; [exact H1|]. split; [exact H2|]. split; [exact H3|].
  exact (proj1 (proj2 (proj2 (proj2 (proj2
    (C10_control_flags sample_qs "/api/files" options sample_fresh)))
    "skip401" (JBool true) "bytes" (or_intror eq_refl) H1 H2)) true H3).
Defined.

(** ** Where the specification and the store part *)

(** [skip401] on a 401: the observable status is 200, yet the call fails. *)
Lemma C3_counterexample :
  let options := [("skip401", JBool true)] in
  let r := Response 401 sample_unauthorized in
  let wf := run sample_parse sample_qs sample_percent
              [EFetch "/api/account" options true; EResume 0;
               EDeliver 0 (NetResponse r); EResume 0] sample_fresh in
  truthy_opt (get "skip401" options) = true
  /\ r_status r = 401
  /\ status (this wf) = 200
  /\ pstate_of 0 wf =
       Rejected (VError "unauthorized" (Some 401)
                        (Some (JObj [("error", JStr "unauthorized")])))
  /\ ~ (exists v, pstate_of 0 wf = Fulfilled v).
Proof.
  intros options r wf.
  assert (H : pstate_of 0 wf =
              Rejected (VError "unauthorized" (Some 401)
                               (Some (JObj [("error", JStr "unauthorized")]))))
    by (vm_compute; reflexivity).
  split_and!; try (vm_compute; reflexivity).
  intros [v Hv]. rewrite H in Hv. discriminate.
Qed.

(** Exactly at the ceiling the watcher does not set the flag. *)
Lemma C4_counterexample :
  let w := constructor {[ lastRefreshed_key := 1700000000000 ]}
                       (1700000000000 + REFRESH_TIMEOUT) in
  expired (this w) = false
  /\ Date_now w - getLastRefresh w >= REFRESH_TIMEOUT
  /\ expired (this (sessionWatch w)) = false
  /\ ~ (expired (this (sessionWatch w)) = true <->
        Date_now w - getLastRefresh w >= REFRESH_TIMEOUT).
Proof.
  intros w.
  assert (H1 : Date_now w - getLastRefresh w >= REFRESH_TIMEOUT) by (vm_compute; congruence).
  assert (H2 : expired (this (sessionWatch w)) = false) by (vm_compute; reflexivity).
  split_and!; [reflexivity | exact H1 | exact H2 |].
  intros [_ H]. rewrite (H H1) in H2. discriminate.
Qed.

(** [recordActivity = false] without [skipRefresh]: the exception of the
    claim does not apply, the persisted clock is stale, and still no
    refresh is awaited: the call is issued at once. *)
Lemma C5_counterexample :
  let w' := snd (fetch sample_qs "/api/x" [] false sample_stale) in
  truthy_opt (get "skipRefresh" []) && false = false
  /\ refreshPromise (this sample_stale) = None
  /\ Date_now sample_stale - getLastRefresh sample_stale >= ACCESS_TIMEOUT
  /\ tasks w' = [KFetchThen (JBool false) 0]
  /\ requests w' = [Request "/api/x" (buildOptions [])]
  /\ ~ (exists a u ro s p, In (KFetchGate a u ro s p) (tasks w')).
Proof.
  intros w'.
  assert (Ht : tasks w' = [KFetchThen (JBool false) 0]) by (vm_compute; reflexivity).
  split_and!; try (vm_compute; reflexivity).
  - vm_compute; congruence.
  - intros (a & u & ro & s & p & Hin). rewrite Ht in Hin.
    destruct Hin as [Heq | []]. discriminate.
Qed.

(** An [error_description] that is present but empty is passed over. *)
Lemma C6_counterexample :
  let body := JObj [("error_description", JStr ""); ("error", JStr "invalid_grant")] in
  sample_parse (JSON_stringify body) = Some body
  /\ prop "error_description" body = Some (JStr "")
  /\ responseErrorMsg 400 body = JStr "invalid_grant"
  /\ ~ (forall d, prop "error_description" body = Some d -> responseErrorMsg 400 body = d).
Proof.
  intros body. split_and!; try (vm_compute; reflexivity).
  intros H. specialize (H (JStr "") eq_refl). vm_compute in H. discriminate.
Qed.

(** A non-200 completion whose body is not JSON: [uploadError] holds the
    raw text, but the call is not failed with it: it stays pending. *)
Lemma C7_counterexample :
  let text := "Internal Server Error" in
  let wf := run sample_parse sample_qs sample_percent
              [EUpload "/api/files" "bytes" [("skipRefresh", JBool true)] true;
               EXhrReadyState 0 4 500 text] sample_fresh in
  sample_parse text = None
  /\ length (xhrs wf) = 1%nat
  /\ status (this wf) = 500
  /\ uploadError (this wf) = VJson (JStr text)
  /\ pstate_of 0 wf = Pending
  /\ ~ (exists v, pstate_of 0 wf = Rejected v).
Proof.
  intros text wf.
  assert (H : pstate_of 0 wf = Pending) by (vm_compute; reflexivity).
  split_and!; try (vm_compute; reflexivity).
  intros [v Hv]. rewrite H in Hv. discriminate.
Qed.

(** ** Instances of the further properties *)

Lemma buildOptions_merges_defaults_witness :
  "method" <> "headers"
  /\ get "method" (buildOptions [("method", JStr "POST")]) = Some (JStr "POST")
  /\ get "credentials" (buildOptions [("method", JStr "POST")]) = Some (JStr "include").
Proof.
  assert (H1 : "method" <> "headers") by discriminate.
  assert (H2 : "credentials" <> "headers") by discriminate.
  split; [exact H1|]. split.
  - exact (buildOptions_merges_defaults "method" [("method", JStr "POST")] H1).
  - exact (buildOptions_merges_defaults "credentials" [("method", JStr "POST")] H2).
Defined.

Lemma other_tab_refresh_is_seen_witness :
  let w1 := step sample_parse sample_qs sample_percent (EClock 1700000001000)
              (step sample_parse sample_qs sample_percent
                 (EStorage lastRefreshed_key (Some 1700000000000)) sample_stale) in
  refreshPromise (this sample_stale) = None
  /\ 1700000001000 - 1700000000000 < ACCESS_TIMEOUT
  /\ refresh w1 = (AwaitValue VUndefined, w1).
Proof.
  intros w1.
  assert (H1 : refreshPromise (this sample_stale) = None) by reflexivity.
  assert (H2 : 1700000001000 - 1700000000000 < ACCESS_TIMEOUT) by reflexivity.
  split; [exact H1|]. split; [exact H2|].
  exact (proj1 (proj2 (other_tab_refresh_is_seen sample_parse sample_qs sample_percent
                         sample_stale 1700000000000 1700000001000 H1 H2))).
Defined.

Lemma login_stamps_the_clock_witness :
  let w1 := resetExpired (updateLastRefresh sample_stale) in
  refreshPromise (this sample_stale) = None
  /\ 1700000002000 - Date_now sample_stale < ACCESS_TIMEOUT
  /\ refresh (with_clock 1700000002000 w1) = (AwaitValue VUndefined, with_clock 1700000002000 w1).
Proof.
  intros w1.
  assert (H1 : refreshPromise (this sample_stale) = None) by reflexivity.
  assert (H2 : 1700000002000 - Date_now sample_stale < ACCESS_TIMEOUT) by reflexivity.
  split; [exact H1|]. split; [exact H2|].
  exact (proj1 (proj2 (proj2 (login_stamps_the_clock sample_stale 1700000002000 H1 H2)))).
Defined.

Lemma logout_then_tick_expires_witness :
  REFRESH_TIMEOUT < 1700000002000
  /\ expired (this (sessionWatch
       (with_clock 1700000002000 (clearLastRefresh (clearTimeout sample_fresh))))) = true.
Proof.
  assert (H : REFRESH_TIMEOUT < 1700000002000) by reflexivity.
  split; [exact H|].
  exact (proj2 (proj2 (proj2 (logout_then_tick_expires sample_fresh 1700000002000 H)))).
Defined.

Lemma fetch_success_witness :
  let r := Response 200 (JSON_stringify (JObj [("id", JNum 1)])) in
  response_ok r = true
  /\ status (this (fetch_on_response (NetResponse r) (JBool false) 0 sample_fresh)) = 200.
Proof.
  intros r.
  assert (H : response_ok r = true) by reflexivity.
  split; [exact H|].
  exact (proj1 (fetch_success sample_parse r (JBool false) 0 sample_fresh H)).
Defined.

Lemma fetch_gateway_timeout_witness :
  let r := Response 504 "Gateway Time-out" in
  let w := snd (new_promise sample_fresh) in
  r_status r = 504
  /\ promises w !! 0%nat = Some Pending
  /\ pstate_of 0 (fetch_on_text r 0 w) =
       Rejected (VError "Gateway Time-out" None
                        (Some (JObj [("error", JStr "Gateway Time-out")]))).
Proof.
  intros r w.
  assert (H1 : r_status r = 504) by reflexivity.
  assert (H2 : promises w !! 0%nat = Some Pending) by reflexivity.
  split; [exact H1|]. split; [exact H2|].
  exact (proj2 (proj2 (proj2 (proj2
           (fetch_gateway_timeout r (JBool false) 0 sample_fresh H1))) w H2)).
Defined.



Lemma refresh_success_witness :
  let w := run sample_parse sample_qs sample_percent [ERefresh]
             (constructor ∅ 1700000001000) in
  let r := Response 200 "" in
  tasks w !! 0%nat = Some (KRefreshFetch 0)
  /\ r_status r = 200
  /\ expired (this (deliver 0 (NetResponse r) w)) = false.
Proof.
  intros w r.
  assert (H1 : tasks w !! 0%nat = Some (KRefreshFetch 0)) by (vm_compute; reflexivity).
  assert (H2 : r_status r = 200) by reflexivity.
  split; [exact H1|]. split; [exact H2|].
  exact (proj1 (refresh_success sample_parse sample_qs sample_percent
                  ∅ 1700000001000 [ERefresh] 0 0 r H1 H2)).
Defined.

Lemma refresh_failure_witness :
  let w := run sample_parse sample_qs sample_percent [ERefresh]
             (constructor ∅ 1700000001000) in
  let r := Response 401 sample_unauthorized in
  tasks w !! 0%nat = Some (KRefreshFetch 0)
  /\ r_status r <> 200
  /\ sample_parse (r_text r) = Some (JObj [("error", JStr "unauthorized")])
  /\ expired (this (deliver 0 (NetResponse r) w)) = true.
Proof.
  intros w r.
  assert (H1 : tasks w !! 0%nat = Some (KRefreshFetch 0)) by (vm_compute; reflexivity).
  assert (H2 : r_status r <> 200) by discriminate.
  assert (H3 : sample_parse (r_text r) = Some (JObj [("error", JStr "unauthorized")]))
    by (vm_compute; reflexivity).
  split; [exact H1|]. split; [exact H2|]. split; [exact H3|].
  destruct (refresh_failure sample_parse sample_qs sample_percent
              ∅ 1700000001000 [ERefresh] 0 0 r _ H1 H2 H3) as (p1 & j1 & j2 & _ & He & _).
  exact He.
Defined.

Lemma refresh_unparsable_failure_wedges_witness :
  let r := Response 500 "Internal Server Error" in
  let w := run sample_parse sample_qs sample_percent
             [ERefresh; EDeliver 0 (NetResponse r)] (constructor ∅ 1700000001000) in
  tasks w !! 1%nat = Some (KRefreshJson r 0)
  /\ sample_parse (r_text r) = None
  /\ exists p1,
       refreshPromise (this w) = Some p1
       /\ forall es2,
            pstate_of p1 (run sample_parse sample_qs sample_percent es2
                            (resume sample_parse 1 w)) = Pending.
Proof.
  intros r w.
  assert (H1 : tasks w !! 1%nat = Some (KRefreshJson r 0)) by (vm_compute; reflexivity).
  assert (H2 : sample_parse (r_text r) = None) by (vm_compute; reflexivity).
  split; [exact H1|]. split; [exact H2|].
  destruct (refresh_unparsable_failure_wedges sample_parse sample_qs sample_percent
              ∅ 1700000001000 [ERefresh; EDeliver 0 (NetResponse r)] 1 0 r H1 H2)
    as (p1 & Hh & Hall).
  exists p1. split; [exact Hh|]. intros es2. exact (proj1 (proj2 (Hall es2))).
Defined.

Lemma fetch_transport_failure_never_settles_witness :
  let w := run sample_parse sample_qs sample_percent
             [EFetch "/api/configs" [("skipRefresh", JBool true)] true]
             (constructor ∅ 1700000001000) in
  tasks w !! 0%nat = Some (KFetchThen (JBool false) 0)
  /\ forall es2,
       pstate_of 0 (run sample_parse sample_qs sample_percent es2
                      (deliver 0 (NetError (VError "Failed to fetch" None None)) w))
       = Pending.
Proof.
  intros w.
  assert (H : tasks w !! 0%nat = Some (KFetchThen (JBool false) 0))
    by (vm_compute; reflexivity).
  split; [exact H|].
  exact (proj2 (fetch_transport_failure_never_settles sample_parse sample_qs sample_percent
                  ∅ 1700000001000 [EFetch "/api/configs" [("skipRefresh", JBool true)] true]
                  0 (JBool false) 0 (VError "Failed to fetch" None None) H)).
Defined.

Lemma fetch_unparsable_error_never_settles_witness :
  let r := Response 500 "Internal Server Error" in
  let es1 := [EFetch "/api/configs" [("skipRefresh", JBool true)] true;
              EDeliver 0 (NetResponse r)] in
  let w := run sample_parse sample_qs sample_percent es1 (constructor ∅ 1700000001000) in
  tasks w !! 0%nat = Some (KFetchJson r 0)
  /\ sample_parse (r_text r) = None
  /\ forall es2,
       pstate_of 0 (run sample_parse sample_qs sample_percent es2
                      (resume sample_parse 0 w)) = Pending.
Proof.
  intros r es1 w.
  assert (H1 : tasks w !! 0%nat = Some (KFetchJson r 0)) by (vm_compute; reflexivity).
  assert (H2 : sample_parse (r_text r) = None) by (vm_compute; reflexivity).
  split; [exact H1|]. split; [exact H2|].
  exact (proj2 (fetch_unparsable_error_never_settles sample_parse sample_qs sample_percent
                  ∅ 1700000001000 es1 0 r 0 H1 H2)).
Defined.

Lemma upload_null_headers_never_settles_witness :
  let options := [("headers", JNull); ("skipRefresh", JBool true)] in
  let w := constructor ∅ 1700000001000 in
  get "headers" options = Some JNull
  /\ gate options true = false
  /\ xhrs (snd (upload sample_qs "/api/files" "bytes" options true w)) = [].
Proof.
  intros options w.
  assert (H1 : get "headers" options = Some JNull) by reflexivity.
  assert (H2 : gate options true = false) by reflexivity.
  split; [exact H1|]. split; [exact H2|].
  exact (proj1 (proj1 (upload_null_headers_never_settles sample_parse sample_qs
                         sample_percent ∅ 1700000001000 [])
                  "/api/files" "bytes" options true H1 H2)).
Defined.

Lemma every_request_is_built_witness :
  let w := run sample_parse sample_qs sample_percent
             [EFetch "/api/account" [] true] (constructor ∅ 1700000001000) in
  let q := Request refresh_url (buildOptions [("method", JStr "POST")]) in
  q ∈ requests w /\ get "credentials" (req_options q) <> None.
Proof.
  intros w q.
  assert (H : q ∈ requests w) by (vm_compute; left).
  split; [exact H|].
  exact (proj1 (proj2 (every_request_is_built sample_parse sample_qs sample_percent
                         ∅ 1700000001000 [EFetch "/api/account" [] true] q H))).
Defined.

Lemma sponsorId_last_segment_witness :
  contains_char "/"%char "CM_42" = false
  /\ sponsorId "https://sso.example.org/sponsors/CM_42" = "CM_42".
Proof.
  assert (H : contains_char "/"%char "CM_42" = false) by reflexivity.
  split; [exact H|].
  exact (proj2 (proj2 (proj2 (proj2
           (sponsorId_last_segment "https://sso.example.org/sponsors/CM_42"))))
           "https://sso.example.org/sponsors" "CM_42" eq_refl H).
Defined.

Lemma sponsor_type_flags_witness :
  "CM_42" <> ""
  /\ isCommunity (Some "CM_42") = Some (JBool true)
  /\ isEnterprise (Some "CM_42") = Some (JBool false).
Proof.
  assert (H : "CM_42" <> "") by discriminate.
  split; [exact H|].
  exact (proj1 (sponsor_type_flags (Some "CM_42")) "CM_42" eq_refl H).
Defined.

Lemma hasRole_first_entry_witness :
  let permissions := [ModuleRoles "reports" (Some []);
                      ModuleRoles "reports" (Some ["admin"])] in
  Forall (fun e => pm_module e <> "users") permissions
  /\ hasRole permissions "users" ["admin"] = false
  /\ hasRole permissions "reports" ["admin"] = false.
Proof.
  intros permissions.
  assert (H : Forall (fun e => pm_module e <> "users") permissions)
    by (repeat constructor; discriminate).
  split; [exact H|]. split.
  - exact (proj1 (proj2 (proj2 (hasRole_first_entry permissions "users" ["admin"]))) H).
  - exact (eq_trans
             (proj2 (proj2 (proj2 (hasRole_first_entry permissions "reports" ["admin"])))
                [] [ModuleRoles "reports" (Some ["admin"])])
             eq_refl).
Defined.
